(** * KU-Talk: the lexical index and the tiered retrieval of the chat endpoint

    A shallow embedding of [backend/search.py] (tokenizer, BM25 index:
    build, save, load, score, the lazily initialised global index) and of
    the retrieval half of [backend/api.py] (the tiers of [chat], excerpt
    extraction, source de-duplication, the rule-based answer).

    Conventions.
    - A Python [str] is a list of Unicode code points ([pystr]).
    - A Python [int] is a [Z]; a Python [float] is a value of a type with
      an arithmetic ([FloatArith]); the functions are written once for every
      such arithmetic and evaluated on exact rationals in the examples.
    - A Python [dict] keeps insertion order: it is an association list whose
      keys are pairwise distinct, updated in place ([dict_set]).
    - A [try: ... except Exception] block is a match on a [result]. *)

From Stdlib Require Import String Ascii DecimalString.
From Stdlib Require Import List ZArith NArith QArith Qround Qabs Bool.
From Stdlib Require Import Lia Lqa Sorted Permutation.
Import ListNotations.

Local Open Scope Z_scope.

(** ** Python exceptions and fallible computations *)

Inductive exn : Type :=
| NameError
| ValueError
| ZeroDivisionError
| OSError.

Inductive result (A : Type) : Type :=
| Ok (a : A)
| Raise (e : exn).

Arguments Ok {A} a.
Arguments Raise {A} e.

Definition bind {A B : Type} (m : result A) (k : A -> result B) : result B :=
  match m with
  | Ok a => k a
  | Raise e => Raise e
  end.

Notation "x <- m ;; k" := (bind m (fun x => k))
  (at level 61, m at next level, right associativity).

(** ** Strings as lists of code points *)

Definition char := N.
Definition pystr := list char.

Definition LT : char := 60%N.
Definition GT : char := 62%N.
Definition SPACE : char := 32%N.
Definition NEWLINE : char := 10%N.

(** The code points of a UTF-8 byte sequence: [need] continuation bytes are
    still to be read into [acc]. *)
Fixpoint utf8_decode (need : nat) (acc : N) (bytes : list N) : pystr :=
  match bytes with
  | [] => []
  | b :: rest =>
      match need with
      | O =>
          if (b <? 128)%N then b :: utf8_decode 0 0%N rest
          else if (b <? 224)%N then utf8_decode 1 (b - 192)%N rest
          else if (b <? 240)%N then utf8_decode 2 (b - 224)%N rest
          else utf8_decode 3 (b - 240)%N rest
      | S O => (acc * 64 + (b - 128))%N :: utf8_decode 0 0%N rest
      | S k => utf8_decode k (acc * 64 + (b - 128))%N rest
      end
  end.

(** A string literal of this file (UTF-8) as a [pystr]. *)
Definition lit (s : string) : pystr :=
  utf8_decode 0 0%N (map N_of_ascii (list_ascii_of_string s)).

Fixpoint str_eqb (a b : pystr) : bool :=
  match a, b with
  | [], [] => true
  | x :: a', y :: b' => N.eqb x y && str_eqb a' b'
  | _, _ => false
  end.

(** [len(l)] *)
Definition len {A : Type} (l : list A) : Z := Z.of_nat (length l).

(** [s.startswith(p)] *)
Fixpoint startswith (p s : pystr) : bool :=
  match p, s with
  | [], _ => true
  | _ :: _, [] => false
  | x :: p', y :: s' => N.eqb x y && startswith p' s'
  end.

(** [sub in s] *)
Fixpoint contains (sub s : pystr) : bool :=
  startswith sub s ||
  match s with
  | [] => false
  | _ :: s' => contains sub s'
  end.

(** [s.count(sub)] for a non-empty [sub]: occurrences are counted from the left
    and do not overlap; [skip] is the number of characters of the last
    occurrence still to be passed over. *)
Fixpoint count_from (sub : pystr) (skip : nat) (s : pystr) : Z :=
  match s with
  | [] => 0
  | _ :: s' =>
      match skip with
      | S k => count_from sub k s'
      | O => if startswith sub s
             then 1 + count_from sub (length sub - 1) s'
             else count_from sub 0 s'
      end
  end.

(** [s.count(sub)]; the empty string occurs [len(s) + 1] times. *)
Definition count (sub s : pystr) : Z :=
  match sub with
  | [] => len s + 1
  | _ :: _ => count_from sub 0 s
  end.

(** [s[:k]] for any integer [k] (a negative [k] counts from the end). *)
Definition slice_to {A : Type} (k : Z) (l : list A) : list A :=
  if 0 <=? k then firstn (Z.to_nat k) l
  else firstn (length l - Z.to_nat (- k)) l.

(** [s.endswith(p)] *)
Definition endswith (p s : pystr) : bool :=
  (length p <=? length s)%nat && str_eqb (skipn (length s - length p) s) p.

(** [sep.join(parts)] *)
Fixpoint join (sep : pystr) (parts : list pystr) : pystr :=
  match parts with
  | [] => []
  | [p] => p
  | p :: rest => p ++ sep ++ join sep rest
  end.

(** [s.strip()] for a given class of whitespace. *)
Fixpoint ltrim (space : char -> bool) (s : pystr) : pystr :=
  match s with
  | [] => []
  | c :: s' => if space c then ltrim space s' else s
  end.

Definition trim (space : char -> bool) (s : pystr) : pystr :=
  rev (ltrim space (rev (ltrim space s))).

(** [x or ''] for a JSON field that may be missing or null. *)
Definition or_empty (x : option pystr) : pystr :=
  match x with
  | Some s => s
  | None => []
  end.

(** Truthiness of an optional string: [None] and [''] are falsy. *)
Definition truthy (x : option pystr) : bool :=
  match x with
  | Some (_ :: _) => true
  | _ => false
  end.

(** ** Insertion-ordered dictionaries *)

Definition dict (V : Type) := list (pystr * V).

Fixpoint dict_find {V : Type} (k : pystr) (d : dict V) : option V :=
  match d with
  | [] => None
  | (k', v) :: d' => if str_eqb k k' then Some v else dict_find k d'
  end.

(** [d.get(k, dflt)] *)
Definition dict_get {V : Type} (k : pystr) (dflt : V) (d : dict V) : V :=
  match dict_find k d with
  | Some v => v
  | None => dflt
  end.

(** [d[k] = v]: an existing key keeps its position, a new key goes last. *)
Fixpoint dict_set {V : Type} (k : pystr) (v : V) (d : dict V) : dict V :=
  match d with
  | [] => [(k, v)]
  | (k', v') :: d' =>
      if str_eqb k k' then (k', v) :: d' else (k', v') :: dict_set k v d'
  end.

Definition keys {V : Type} (d : dict V) : list pystr := map fst d.

(** [d[k] += 1] on a [defaultdict(int)]. *)
Definition dict_incr (k : pystr) (d : dict Z) : dict Z :=
  dict_set k (dict_get k 0 d + 1) d.

(** ** Stable sorting by a key, largest first

    [sorted(l, key=f, reverse=True)] and [l.sort(key=f, reverse=True)] compare
    keys with [<] only and keep elements with equal keys in their original
    order. [insert_desc] puts an element in front of the first element whose
    key is not larger than its own. *)

Section StableSort.
Context {A K : Type} (ltb : K -> K -> bool) (key : A -> K).

Fixpoint insert_desc (x : A) (l : list A) : list A :=
  match l with
  | [] => [x]
  | y :: l' =>
      if ltb (key x) (key y) then y :: insert_desc x l' else x :: y :: l'
  end.

Fixpoint sort_desc (l : list A) : list A :=
  match l with
  | [] => []
  | x :: l' => insert_desc x (sort_desc l')
  end.

(** The key of [x] is not below the key of [y]. *)
Definition not_below (x y : A) : Prop := ltb (key x) (key y) = false.

End StableSort.

(** ** Library functions outside the repository

    The Unicode tables behind [str.lower], [str.strip] and the classes [\w]
    and [\s] of [re], and BeautifulSoup's [get_text]. *)

Class Lib : Type := {
  is_word : char -> bool;          (* \w *)
  is_space : char -> bool;         (* \s, and what str.strip removes *)
  lower : pystr -> pystr;          (* str.lower *)
  soup_text : pystr -> pystr       (* BeautifulSoup(html).get_text(" ", strip=True) *)
}.

(** ** Float arithmetic

    The operations of Python's [float] that the code uses. [of_int] is the
    conversion applied when an [int] meets a [float] (ints beyond the range
    of floats, on which Python raises [OverflowError], are left out);
    [int_truediv] is [/] on two ints; [fdiv] is only called on a non-zero
    divisor ([truediv] below raises otherwise); [flog] is only called on a
    positive argument. *)

Class FloatArith (float : Type) : Type := {
  of_int : Z -> float;
  fadd : float -> float -> float;
  fsub : float -> float -> float;
  fmul : float -> float -> float;
  fdiv : float -> float -> float;
  int_truediv : Z -> Z -> float;
  flog : float -> float;
  fltb : float -> float -> bool;       (* x < y *)
  feqb : float -> float -> bool;       (* x == y *)
  float_repr : float -> pystr;         (* format(x, '') as in an f-string *)
  float_of_str : pystr -> option float;(* float(s); None stands for ValueError *)
  int_of_float : float -> Z            (* int(x), rounding towards zero *)
}.

Section FloatOps.
Context {float : Type} {FA : FloatArith float}.

Definition fzero : float := of_int 0.

(** The literals [0.5], [1.5] and [0.75] are exact binary fractions. *)
Definition f0_5 : float := fdiv (of_int 1) (of_int 2).
Definition f1_5 : float := fdiv (of_int 3) (of_int 2).
Definition f0_75 : float := fdiv (of_int 3) (of_int 4).

(** [x / y] on floats: Python raises when the divisor is zero. *)
Definition truediv (x y : float) : result float :=
  if feqb y fzero then Raise ZeroDivisionError else Ok (fdiv x y).

(** [math.log(x)]: a domain error for [x <= 0]. *)
Definition math_log (x : float) : result float :=
  if fltb x fzero || feqb x fzero then Raise ValueError else Ok (flog x).

End FloatOps.

(** ** The files the program reads

    One entry per file of [data/parsed]: its name, and the JSON object it
    holds ([None] when the file cannot be opened or is not valid JSON). A
    JSON field is a string, or [None] when it is missing or null. *)

Record Parsed : Type := {
  p_title : option pystr;       (* 'title' *)
  p_content : option pystr;     (* 'content' *)
  p_ocr_text : option pystr;    (* 'ocr_text' *)
  p_writer : option pystr;      (* 'writer' *)
  p_WRITER_NM : option pystr;   (* 'WRITER_NM' *)
  p_source_url : option pystr;  (* '_source_url' *)
  p_url : option pystr          (* 'url' *)
}.

Definition store := list (pystr * option Parsed).

(** [open(os.path.join(PARSED_DIR, name))] followed by [json.load]. *)
Fixpoint read_json (dir : store) (name : pystr) : result Parsed :=
  match dir with
  | [] => Raise OSError
  | (n, c) :: dir' =>
      if str_eqb name n
      then match c with Some p => Ok p | None => Raise ValueError end
      else read_json dir' name
  end.

Definition dot_json : pystr := lit ".json".

(** * search.py *)

Module Search.

Section WithLib.
Context {L : Lib}.

(** [TOKEN_RE.findall(text)] for [TOKEN_RE = \w+]: the maximal runs of word
    characters; [cur] is the run being read. *)
Fixpoint findall_words (cur : pystr) (s : pystr) : list pystr :=
  match s with
  | [] => match cur with [] => [] | _ :: _ => [cur] end
  | c :: s' =>
      if is_word c then findall_words (cur ++ [c]) s'
      else match cur with
           | [] => findall_words [] s'
           | _ :: _ => cur :: findall_words [] s'
           end
  end.

(** The josa recognised by [tokenize]: 이 가 은 는 을 를 야 아. *)
Definition particles : list char :=
  [51060; 44032; 51008; 45716; 51012; 47484; 50556; 50500]%N.

Definition ends_in_particle (t : pystr) : bool :=
  match rev t with
  | [] => false
  | c :: _ => existsb (N.eqb c) particles
  end.

Fixpoint add_stripped (toks : list pystr) : list pystr :=
  match toks with
  | [] => []
  | t :: rest =>
      if (2 <? len t) && ends_in_particle t
      then t :: removelast t :: add_stripped rest
      else t :: add_stripped rest
  end.

Definition tokenize (text : pystr) : list pystr :=
  match text with
  | [] => []
  | _ :: _ => add_stripped (map lower (findall_words [] text))
  end.

(** [re.sub('<[^>]+>', ' ', s)]. [pending] holds the characters read since a
    ['<'] whose closing ['>'] has not been met yet; a ['<'] directly followed
    by ['>'], or never closed, stays as it is. *)
Fixpoint sub_tags (pending : option pystr) (s : pystr) : pystr :=
  match s with
  | [] => match pending with None => [] | Some buf => LT :: buf end
  | c :: s' =>
      match pending with
      | None =>
          if N.eqb c LT then sub_tags (Some []) s' else c :: sub_tags None s'
      | Some buf =>
          if N.eqb c GT then
            match buf with
            | [] => LT :: GT :: sub_tags None s'
            | _ :: _ => SPACE :: sub_tags None s'
            end
          else sub_tags (Some (buf ++ [c])) s'
      end
  end.

(** The text of a document as [build] indexes it (line 59). *)
Definition doc_text (parsed : Parsed) : pystr :=
  or_empty (p_title parsed) ++ [SPACE]
  ++ sub_tags None (or_empty (p_content parsed)) ++ [SPACE]
  ++ or_empty (p_ocr_text parsed).

(** [freqs[t] += 1] for every token (lines 65-67). *)
Definition count_tokens (toks : list pystr) : dict Z :=
  fold_left (fun freqs t => dict_incr t freqs) toks [].

End WithLib.

Section WithFloat.
Context {L : Lib} {float : Type} {FA : FloatArith float}.

Record BM25Index : Type := {
  self_N : Z;
  self_avgdl : float;
  self_doc_len : dict Z;          (* docid -> length *)
  self_tf : dict (dict Z);        (* docid -> {term: freq} *)
  self_df : dict Z;               (* term -> doc freq *)
  self_docs : dict pystr          (* docid -> title *)
}.

(** [BM25Index()] *)
Definition init : BM25Index :=
  {| self_N := 0; self_avgdl := of_int 0; self_doc_len := [];
     self_tf := []; self_df := []; self_docs := [] |}.

(** One round of the loop of [build] over a file that was read (lines 56-70):
    the fields of [self] it assigns. *)
Definition index_doc (pid : pystr) (parsed : Parsed) (self : BM25Index)
  : BM25Index :=
  let toks := tokenize (doc_text parsed) in
  let freqs := count_tokens toks in
  {| self_N := self_N self;
     self_avgdl := self_avgdl self;
     self_doc_len := dict_set pid (len toks) (self_doc_len self);
     self_tf := dict_set pid freqs (self_tf self);
     self_df := fold_left (fun df t => dict_incr t df) (keys freqs) (self_df self);
     self_docs := dict_set pid (or_empty (p_title parsed)) (self_docs self) |}.

(** The loop of [build] (lines 48-70) with its two local counters. A file that
    cannot be read is skipped ([continue]). *)
Fixpoint build_loop (files : store) (N total_len : Z) (self : BM25Index)
  : Z * Z * BM25Index :=
  match files with
  | [] => (N, total_len, self)
  | (fname, None) :: rest => build_loop rest N total_len self
  | (fname, Some parsed) :: rest =>
      let pid := slice_to (-5) fname in
      build_loop rest (N + 1)
        (total_len + len (tokenize (doc_text parsed)))
        (index_doc pid parsed self)
  end.

(** The [*.json] files of the directory, in the order [os.listdir] gives. *)
Definition json_files (dir : store) : store :=
  filter (fun e => endswith dot_json (fst e)) dir.

Definition build (dir : store) (self : BM25Index) : BM25Index :=
  let '(N, total_len, self') := build_loop (json_files dir) 0 0 self in
  {| self_N := N;
     self_avgdl := if N =? 0 then of_int 0 else int_truediv total_len N;
     self_doc_len := self_doc_len self';
     self_tf := self_tf self';
     self_df := self_df self';
     self_docs := self_docs self' |}.

(** The state [search.py] lives in: the parsed directory, the persisted
    index ([None] while [bm25_index.json] does not exist; the JSON encoding
    of the six fields, and a file that is not valid JSON, are left out),
    whether that file can be written, and the module variable
    [_global_index]. *)
Record Env : Type := {
  parsed_dir : store;
  index_file : option BM25Index;
  index_file_writable : bool;
  global_index : option BM25Index
}.

Definition set_index_file (f : option BM25Index) (env : Env) : Env :=
  {| parsed_dir := parsed_dir env; index_file := f;
     index_file_writable := index_file_writable env;
     global_index := global_index env |}.

Definition set_global_index (g : option BM25Index) (env : Env) : Env :=
  {| parsed_dir := parsed_dir env; index_file := index_file env;
     index_file_writable := index_file_writable env;
     global_index := g |}.

(** [self.save()]: raises when the file cannot be written. *)
Definition save (self : BM25Index) (env : Env) : result unit * Env :=
  if index_file_writable env
  then (Ok tt, set_index_file (Some self) env)
  else (Raise OSError, env).

(** [self.load()]: [False] when there is no file, otherwise every field is
    taken from the file. *)
Definition load (self : BM25Index) (env : Env) : bool * BM25Index :=
  match index_file env with
  | None => (false, self)
  | Some data => (true, data)
  end.

(** [set(q_toks)]: each token once. *)
Fixpoint set_of (toks : list pystr) : list pystr :=
  match toks with
  | [] => []
  | t :: rest =>
      if existsb (str_eqb t) rest then set_of rest else t :: set_of rest
  end.

(** Line 106-107. *)
Definition idf_of (self : BM25Index) (t : pystr) : result float :=
  let df := dict_get t 0 (self_df self) in
  q <- truediv (fadd (of_int (self_N self - df)) f0_5) (fadd (of_int df) f0_5) ;;
  math_log (fadd (of_int 1) q).

Fixpoint idf_table (self : BM25Index) (ts : list pystr) (idf : dict float)
  : result (dict float) :=
  match ts with
  | [] => Ok idf
  | t :: ts' =>
      v <- idf_of self t ;;
      idf_table self ts' (dict_set t v idf)
  end.

(** Lines 117-118 for one query token. *)
Definition term_score (self : BM25Index) (k1 b : float) (dl f : Z)
  (idf_t : float) : result float :=
  norm <- (if negb (feqb (self_avgdl self) fzero)
           then truediv (of_int dl) (self_avgdl self)
           else Ok (of_int 0)) ;;
  let denom :=
    fadd (of_int f) (fmul k1 (fadd (fsub (of_int 1) b) (fmul b norm))) in
  truediv (fmul idf_t (fmul (of_int f) (fadd k1 (of_int 1))))
          (if negb (feqb denom fzero) then denom else of_int 1).

(** The inner loop (lines 113-118). *)
Fixpoint doc_score (self : BM25Index) (idf : dict float) (k1 b : float)
  (dl : Z) (freqs : dict Z) (q_toks : list pystr) (score : float)
  : result float :=
  match q_toks with
  | [] => Ok score
  | t :: rest =>
      match dict_find t idf with
      | None => doc_score self idf k1 b dl freqs rest score
      | Some idf_t =>
          term <- term_score self k1 b dl (dict_get t 0 freqs) idf_t ;;
          doc_score self idf k1 b dl freqs rest (fadd score term)
      end
  end.

(** The outer loop (lines 110-120). *)
Fixpoint score_docs (self : BM25Index) (idf : dict float) (k1 b : float)
  (q_toks : list pystr) (tf : dict (dict Z)) (scores : dict float)
  : result (dict float) :=
  match tf with
  | [] => Ok scores
  | (pid, freqs) :: tf' =>
      let dl := dict_get pid 0 (self_doc_len self) in
      s <- doc_score self idf k1 b dl freqs q_toks (of_int 0) ;;
      score_docs self idf k1 b q_toks tf'
        (if fltb fzero s then dict_set pid s scores else scores)
  end.

(** Line 100. *)
Definition query_tokens (query : pystr) : list pystr :=
  filter (fun t => 0 <? len t) (tokenize query).

Definition score (self : BM25Index) (query : pystr) (k1 b : float) (top_k : Z)
  : result (list (pystr * float)) :=
  let q_toks := query_tokens query in
  match q_toks with
  | [] => Ok []
  | _ :: _ =>
      if self_N self =? 0 then Ok []
      else
        idf <- idf_table self (set_of q_toks) [] ;;
        scores <- score_docs self idf k1 b q_toks (self_tf self) [] ;;
        Ok (slice_to top_k (sort_desc fltb snd scores))
  end.

(** [get_index()]: the index is loaded, or built and saved, on the first call
    and kept in [_global_index]; a failing [save] is ignored. *)
Definition get_index (env : Env) : BM25Index * Env :=
  match global_index env with
  | Some idx => (idx, env)
  | None =>
      let '(loaded, idx) := load init env in
      if loaded then (idx, set_global_index (Some idx) env)
      else
        let idx := build (parsed_dir env) idx in
        let env := snd (save idx env) in
        (idx, set_global_index (Some idx) env)
  end.

(** [search(query, top_k)] with the defaults [k1=1.5], [b=0.75] of [score]. *)
Definition search (query : pystr) (top_k : Z) (env : Env)
  : result (list (pystr * float)) * Env :=
  let '(idx, env) := get_index env in
  (score idx query f1_5 f0_75 top_k, env).

End WithFloat.

Arguments BM25Index : clear implicits.
Arguments Env : clear implicits.

End Search.

(** * api.py *)

Module Api.

Section WithLib.
Context {L : Lib}.

(** [str.strip]: leading and trailing whitespace removed. *)
Definition strip (s : pystr) : pystr := trim is_space s.

(** [strip_html] (lines 105-108). *)
Definition strip_html (html : pystr) : pystr :=
  match html with
  | [] => []
  | _ :: _ => soup_text html
  end.

(** [re.findall(r"\w+", s)] *)
Definition findall_w (s : pystr) : list pystr := Search.findall_words [] s.

(** [re.split(r'(?<=[.!?])\s+', text)]: the text is cut at every run of
    whitespace that directly follows one of [.!?]. [prev_punct] says whether
    the character just read is one of them, [skipping] whether a separating
    run is being passed over, [cur] is the piece being read. *)
Definition is_punct (c : char) : bool :=
  N.eqb c 46 || N.eqb c 33 || N.eqb c 63.

Fixpoint split_sentences (prev_punct skipping : bool) (cur s : pystr)
  : list pystr :=
  match s with
  | [] => [cur]
  | c :: s' =>
      if skipping then
        if is_space c then split_sentences false true [] s'
        else split_sentences (is_punct c) false [c] s'
      else if prev_punct && is_space c then
        cur :: split_sentences false true [] s'
      else split_sentences (is_punct c) false (cur ++ [c]) s'
  end.

(** [extract_relevant_sentences] (lines 111-124). *)
Definition extract_relevant_sentences (text q : pystr) (max_sentences : Z)
  : list pystr :=
  let q_tokens := map lower (filter (fun t => 2 <? len t) (findall_w q)) in
  match q_tokens with
  | [] => []
  | _ :: _ =>
      let sents := split_sentences false false [] text in
      let scored :=
        flat_map (fun s =>
          let low := lower s in
          let score := len (filter (fun t => contains t low) q_tokens) in
          if 0 <? score then [(score, s)] else []) sents in
      map snd (slice_to max_sentences (sort_desc Z.ltb fst scored))
  end.

(** [re.sub(r"https?:\\/\\/\\S+", "", s)] (lines 313, 356, 425). In the raw
    string every [\\] is an escaped backslash, so the pattern reads: [http],
    an optional [s], a colon, then backslash, slash, backslash, slash,
    backslash, then one or more capital [S]. [match_url_pattern s] is the
    length of the match at the start of [s]. *)
Definition BACKSLASH : char := 92%N.
Definition SLASH : char := 47%N.
Definition COLON : char := 58%N.
Definition CAPITAL_S : char := 83%N.
Definition SMALL_S : char := 115%N.

Fixpoint count_leading (c : char) (s : pystr) : nat :=
  match s with
  | x :: s' => if N.eqb x c then S (count_leading c s') else O
  | [] => O
  end.

(** The part of the pattern after [https?]. *)
Definition match_url_tail (s : pystr) : option nat :=
  let sep := [COLON; BACKSLASH; SLASH; BACKSLASH; SLASH; BACKSLASH] in
  if startswith sep s then
    match count_leading CAPITAL_S (skipn 6 s) with
    | O => None
    | S k => Some (6 + S k)%nat
    end
  else None.

Definition match_url_pattern (s : pystr) : option nat :=
  if startswith (lit "http") s then
    let r := skipn 4 s in
    let without_s := option_map (Nat.add 4) (match_url_tail r) in
    match r with
    | c :: r' =>
        if N.eqb c SMALL_S then
          match match_url_tail r' with
          | Some n => Some (5 + n)%nat
          | None => without_s
          end
        else without_s
    | [] => without_s
    end
  else None.

Fixpoint sub_url_pattern (skip : nat) (s : pystr) : pystr :=
  match s with
  | [] => []
  | c :: s' =>
      match skip with
      | S k => sub_url_pattern k s'
      | O =>
          match match_url_pattern s with
          | Some (S n) => sub_url_pattern n s'
          | _ => c :: sub_url_pattern 0 s'
          end
      end
  end.

End WithLib.

(** The synonym table: a local variable of [search] (lines 75-80). *)
Definition synonyms := list (pystr * list pystr).

Definition SYNONYMS : synonyms :=
  [ (lit "불이익", [lit "불이익"; lit "제한"; lit "불이익이"; lit "불이익을"; lit "불이익은"]);
    (lit "빌리", [lit "빌리"; lit "빌려"; lit "대여"; lit "대여하다"; lit "대여가능"]);
    (lit "빌릴", [lit "빌릴"; lit "대여"]);
    (lit "누구", [lit "누구"; lit "누구야"; lit "누구인지"; lit "누가"]) ].

(** The synonym tables that api.py binds at module level, by name. The module
    assigns [app], [BASE], [INDEX_PATH], [PARSED_DIR], its functions and
    [ChatRequest]; [SYNONYMS] is assigned in the body of [search] only, so no
    table is bound here. *)
Definition module_globals : list (string * synonyms) := [].

(** Reading a name that is neither a local of the running function nor a
    module-level binding (nor a builtin) raises [NameError]. *)
Definition load_global (name : string) : result synonyms :=
  match find (fun b => String.eqb name (fst b)) module_globals with
  | Some b => Ok (snd b)
  | None => Raise NameError
  end.

(** [index.json] as [load_index] returns it: post id -> meta, of which [chat]
    and [search] read the ['url'] only; [{}] when the file cannot be read. *)
Record Meta : Type := { m_url : option pystr }.

Definition who_markers : list pystr := [lit "누구"; lit "누가"; lit "누구야"].

Definition not_found : pystr := lit "관련 공지를 찾지 못했습니다.".

(** An entry of [index.json] with the three fields the crawler writes. *)
Record PostMeta : Type := {
  pm_url : option pystr;        (* 'url' *)
  pm_title : option pystr;      (* 'title' *)
  pm_fetched_at : option Z      (* 'fetched_at'; [None] when missing *)
}.

(** [kv[1].get("fetched_at", 0)] *)
Definition fetched_at (kv : pystr * PostMeta) : Z :=
  match pm_fetched_at (snd kv) with
  | Some t => t
  | None => 0
  end.

(** [list_posts] (lines 48-55): the count and the results, each the id of a
    post with its meta. *)
Definition list_posts (limit : Z) (idx : dict PostMeta)
  : Z * list (pystr * PostMeta) :=
  let items := sort_desc Z.ltb fetched_at idx in
  let results := slice_to limit items in
  (len results, results).

(** [get_post] (lines 58-65): 404 when the file does not exist; an exception
    of [json.load] is not caught. *)
Inductive PostReply : Type :=
| HTTP404
| Post (data : Parsed)
| Uncaught (e : exn).

Definition get_post (dir : store) (post_id : pystr) : PostReply :=
  let name := post_id ++ dot_json in
  if existsb (fun e => str_eqb name (fst e)) dir then
    match read_json dir name with
    | Ok data => Post data
    | Raise e => Uncaught e
    end
  else HTTP404.

Section WithFloat.
Context {L : Lib} {float : Type} {FA : FloatArith float}.

(** What [chat] reads and changes: the state of search.py, [index.json] and
    the environment variable [OPENAI_API_KEY]. *)
Record World : Type := {
  env : Search.Env float;
  index_json : dict Meta;
  OPENAI_API_KEY : option pystr
}.

Definition set_env (e : Search.Env float) (w : World) : World :=
  {| env := e; index_json := index_json w;
     OPENAI_API_KEY := OPENAI_API_KEY w |}.

Record ChatRequest : Type := { question : pystr; top_k : Z }.

(** The second component of a candidate tuple is a post id (a str) in every
    tier but the fifth, whose loop binds it to the float of a BM25 item; the
    first component is an int in tiers 1 to 3 and a float afterwards. *)
Inductive pyid : Type :=
| IdStr (s : pystr)
| IdFloat (x : float).

Inductive pynum : Type :=
| NumInt (n : Z)
| NumFloat (x : float).

Definition id_eqb (a b : pyid) : bool :=
  match a, b with
  | IdStr s, IdStr t => str_eqb s t
  | IdFloat x, IdFloat y => feqb x y
  | _, _ => false
  end.

Definition num_ltb (a b : pynum) : bool :=
  match a, b with
  | NumInt m, NumInt n => m <? n
  | NumInt m, NumFloat y => fltb (of_int m) y
  | NumFloat x, NumInt n => fltb x (of_int n)
  | NumFloat x, NumFloat y => fltb x y
  end.

(** [int(score)] *)
Definition py_int (a : pynum) : Z :=
  match a with
  | NumInt n => n
  | NumFloat x => int_of_float x
  end.

(** A candidate tuple [(score, post_id, title, snippet, full)]. *)
Record Cand : Type := {
  c_score : pynum;
  c_post_id : pyid;
  c_title : pystr;
  c_snippet : pystr;
  c_full : pystr
}.

Definition read_post (dir : store) (post_id : pystr) : result Parsed :=
  read_json dir (post_id ++ dot_json).

(** ** Tier 1 (lines 137-167) *)

(** Lines 153-157. *)
Definition add_synonyms (syn : synonyms) (ql title content : pystr) (score : Z)
  : Z :=
  fold_left (fun score kv =>
    if contains (fst kv) ql
    then fold_left (fun score v =>
           score + count v (lower title) * 2 + count v (lower content))
         (snd kv) score
    else score) syn score.

(** Lines 159-163. *)
Definition add_tokens (ql title content : pystr) (score : Z) : Z :=
  fold_left (fun score tok =>
    if 1 <? len tok
    then (if contains tok (lower title) then score + 2 else score)
         + count tok (lower content)
    else score) (findall_w ql) score.

(** The body of the [try] of the first loop: the candidates it appends. *)
Definition tier1_doc (dir : store) (ql post_id : pystr) : result (list Cand) :=
  parsed <- read_post dir post_id ;;
  let title := or_empty (p_title parsed) in
  let content := strip_html (or_empty (p_content parsed)) in
  let ocr := or_empty (p_ocr_text parsed) in
  let content :=
    match ocr with
    | [] => content
    | _ :: _ => content ++ [NEWLINE] ++ ocr
    end in
  let score := count ql (lower title) * 3 + count ql (lower content) in
  syn <- load_global "SYNONYMS" ;;
  let score := add_synonyms syn ql title content score in
  let score := add_tokens ql title content score in
  Ok (if 0 <? score
      then [ {| c_score := NumInt score; c_post_id := IdStr post_id;
                c_title := title; c_snippet := slice_to 400 content;
                c_full := content |} ]
      else []).

(** A loop [for post_id, meta in idx.items(): try: ... except: continue]
    whose body appends candidates. *)
Definition for_posts (body : pystr -> result (list Cand)) (idx : dict Meta)
  (candidates : list Cand) : list Cand :=
  fold_left (fun candidates kv =>
    match body (fst kv) with
    | Ok added => candidates ++ added
    | Raise _ => candidates
    end) idx candidates.

Definition tier1 (dir : store) (idx : dict Meta) (ql : pystr) : list Cand :=
  for_posts (tier1_doc dir ql) idx [].

(** ** Tier 2 (lines 170-182) *)

Definition tier2_doc (dir : store) (ql post_id : pystr) : result (list Cand) :=
  parsed <- read_post dir post_id ;;
  let title := or_empty (p_title parsed) in
  let content := strip_html (or_empty (p_content parsed)) in
  Ok (if existsb (fun tok => contains tok (lower content)
                             || contains tok (lower title))
               (filter (fun tok => 2 <? len tok) (findall_w ql))
      then [ {| c_score := NumInt 1; c_post_id := IdStr post_id;
                c_title := title; c_snippet := slice_to 400 content;
                c_full := content |} ]
      else []).

Definition tier2 (dir : store) (idx : dict Meta) (ql : pystr)
  (candidates : list Cand) : list Cand :=
  match candidates with
  | [] => for_posts (tier2_doc dir ql) idx candidates
  | _ :: _ => candidates
  end.

(** ** Tier 3 (lines 185-203) *)

Definition tier3_doc (dir : store) (ql post_id : pystr) : result (list Cand) :=
  parsed <- read_post dir post_id ;;
  let title := lower (or_empty (p_title parsed)) in
  let writer :=
    if truthy (p_writer parsed) then or_empty (p_writer parsed)
    else or_empty (p_WRITER_NM parsed) in
  let content := lower (strip_html (or_empty (p_content parsed))) in
  let cand n :=
    {| c_score := NumInt n; c_post_id := IdStr post_id; c_title := title;
       c_snippet := slice_to 400 content; c_full := content |} in
  Ok (flat_map (fun tok =>
        (if (1 <? len tok) && contains tok title then [cand 2] else [])
        ++ (if (1 <? len tok) && contains tok content then [cand 1] else [])
        ++ (match writer with
            | [] => []
            | _ :: _ => if contains tok (lower writer) then [cand 3] else []
            end))
      (findall_w ql)).

Definition tier3 (dir : store) (idx : dict Meta) (ql : pystr)
  (candidates : list Cand) : list Cand :=
  if existsb (fun x => contains x ql) who_markers
  then for_posts (tier3_doc dir ql) idx candidates
  else candidates.

(** Lines 205-206. *)
Definition choose (top_k : Z) (candidates : list Cand) : list Cand :=
  slice_to top_k (sort_desc num_ltb c_score candidates).

(** ** Tier 4 (lines 208-234) *)

(** Lines 227-229 (and 245-247, 297-298): title and full text of a post. *)
Definition full_text (parsed : Parsed) : pystr :=
  strip_html (or_empty (p_content parsed))
  ++ [NEWLINE] ++ or_empty (p_ocr_text parsed).

Definition tier4_item (dir : store) (pid : pystr) (score : float)
  : result Cand :=
  parsed <- read_post dir pid ;;
  let title := or_empty (p_title parsed) in
  let full := full_text parsed in
  Ok {| c_score := NumFloat score; c_post_id := IdStr pid; c_title := title;
        c_snippet := slice_to 400 full; c_full := full |}.

Fixpoint tier4_loop (dir : store) (bm : list (pystr * float))
  (chosen : list Cand) : list Cand :=
  match bm with
  | [] => chosen
  | (pid, score) :: bm' =>
      if existsb (fun c => id_eqb (IdStr pid) (c_post_id c)) chosen
      then tier4_loop dir bm' chosen
      else
        match tier4_item dir pid score with
        | Ok c => tier4_loop dir bm' (chosen ++ [c])
        | Raise _ => tier4_loop dir bm' chosen
        end
  end.

Definition tier4 (q : pystr) (top_k : Z) (chosen : list Cand)
  (e : Search.Env float) : list Cand * Search.Env float :=
  if len chosen <? top_k then
    let need := top_k - len chosen in
    let '(bm, e') := Search.search q need e in
    match bm with
    | Ok bm => (tier4_loop (Search.parsed_dir e') bm chosen, e')
    | Raise _ => (chosen, e')
    end
  else (chosen, e).

(** ** Tier 5 (lines 236-252)

    [for score, pid in bm] binds [score] to the first component of an item
    of [search] (the document id, a str) and [pid] to the second (its BM25
    score, a float); the file opened is named after [pid]. *)

(** [float(score)] on a str. *)
Definition float_of (s : pystr) : result float :=
  match float_of_str s with
  | Some x => Ok x
  | None => Raise ValueError
  end.

Definition tier5_item (dir : store) (score : pystr) (pid : float)
  : result Cand :=
  parsed <- read_post dir (float_repr pid) ;;
  let title := or_empty (p_title parsed) in
  let full := full_text parsed in
  x <- float_of score ;;
  Ok {| c_score := NumFloat x; c_post_id := IdFloat pid; c_title := title;
        c_snippet := slice_to 400 full; c_full := full |}.

Fixpoint tier5_loop (dir : store) (bm : list (pystr * float))
  (chosen : list Cand) : list Cand :=
  match bm with
  | [] => chosen
  | (score, pid) :: bm' =>
      match tier5_item dir score pid with
      | Ok c => tier5_loop dir bm' (chosen ++ [c])
      | Raise _ => tier5_loop dir bm' chosen
      end
  end.

Definition tier5 (q : pystr) (top_k : Z) (chosen : list Cand)
  (e : Search.Env float) : list Cand * Search.Env float :=
  match chosen with
  | [] =>
      let '(bm, e') := Search.search q top_k e in
      match bm with
      | Ok bm => (tier5_loop (Search.parsed_dir e') bm chosen, e')
      | Raise _ => (chosen, e')
      end
  | _ :: _ => (chosen, e)
  end.

(** The candidate list after each stage of lines 134-252. *)
Definition candidates_after (tier : nat) (w : World) (ql : pystr)
  : list Cand :=
  let dir := Search.parsed_dir (env w) in
  let idx := index_json w in
  let c1 := tier1 dir idx ql in
  let c2 := tier2 dir idx ql c1 in
  let c3 := tier3 dir idx ql c2 in
  match tier with
  | 1%nat => c1
  | 2%nat => c2
  | _ => c3
  end.

Definition retrieve (q : pystr) (top_k : Z) (w : World)
  : list Cand * World :=
  let chosen := choose top_k (candidates_after 3 w (lower q)) in
  let '(chosen, e) := tier4 q top_k chosen (env w) in
  let '(chosen, e) := tier5 q top_k chosen e in
  (chosen, set_env e w).

(** ** Sources and answer parts (lines 258-285) *)

(** A source dict; the keys ['score'] and ['excerpt'] are absent from the
    source of the last-resort answer (line 300). *)
Record Source : Type := {
  s_id : pyid;
  s_title : pystr;
  s_url : option pystr;
  s_score : option Z;
  s_excerpt : option pystr
}.

(** Lines 261-265. *)
Definition excerpt_of (q : pystr) (c : Cand) : pystr :=
  match extract_relevant_sentences (c_full c) q 3 with
  | [] => c_snippet c
  | sent => join [SPACE] sent
  end.

(** [idx.get(post_id, {}).get("url")]; the keys of [idx] are strs. *)
Definition url_of (idx : dict Meta) (post_id : pyid) : option pystr :=
  match post_id with
  | IdStr p =>
      match dict_find p idx with
      | Some meta => m_url meta
      | None => None
      end
  | IdFloat _ => None
  end.

(** Line 268. *)
Definition source_of (idx : dict Meta) (q : pystr) (c : Cand) : Source :=
  {| s_id := c_post_id c; s_title := c_title c;
     s_url := url_of idx (c_post_id c);
     s_score := Some (py_int (c_score c));
     s_excerpt := Some (excerpt_of q c) |}.

(** Line 269: [f"[{title}] {excerpt}"]. *)
Definition answer_part (q : pystr) (c : Cand) : pystr :=
  lit "[" ++ c_title c ++ lit "] " ++ excerpt_of q c.

(** Lines 271-280; [seen] is the set of urls already kept. *)
Fixpoint dedupe (seen : list pystr) (sources : list Source) : list Source :=
  match sources with
  | [] => []
  | s :: rest =>
      match s_url s with
      | Some (c :: u') =>
          let u := c :: u' in
          if existsb (str_eqb u) seen then dedupe seen rest
          else s :: dedupe (u :: seen) rest
      | _ => dedupe seen rest
      end
  end.

(** The list [sources] after line 281. *)
Definition sources_of (idx : dict Meta) (q : pystr) (chosen : list Cand)
  : list Source :=
  dedupe [] (map (source_of idx q) chosen).

(** Line 285. *)
Definition display_sources_of (sources : list Source) : list Source :=
  slice_to 2 sources.

(** ** The response *)

Inductive Response : Type :=
| HTTP400                                     (* "question is required" *)
| Reply (answer : pystr) (sources : list Source) (llm : bool)
| Generation (answer_text : pystr) (sources display_sources : list Source).
(* [Generation]: an API key is set and lines 316-429 take over. *)

(** The last resort (lines 287-303); like the fifth tier it unpacks the item
    of [search] as [score, pid]. *)
Definition last_resort (q : pystr) (e : Search.Env float)
  : Response * Search.Env float :=
  let '(bm, e') := Search.search q 1 e in
  let found :=
    bm <- bm ;;
    match bm with
    | [] => Ok None
    | (score, pid) :: _ =>
        parsed <- read_post (Search.parsed_dir e') (float_repr pid) ;;
        let title := or_empty (p_title parsed) in
        let snippet := slice_to 800 (full_text parsed) in
        Ok (Some (Reply snippet
                    [ {| s_id := IdFloat pid; s_title := title;
                         s_url := p_source_url parsed;
                         s_score := None; s_excerpt := None |} ]
                    false))
    end in
  match found with
  | Ok (Some r) => (r, e')
  | _ => (Reply not_found [] false, e')
  end.

(** [chat] up to the rule-based answer (lines 128-314). *)
Definition chat (req : ChatRequest) (w : World) : Response * World :=
  let q := strip (question req) in
  match q with
  | [] => (HTTP400, w)
  | _ :: _ =>
      let idx := index_json w in
      let '(chosen, w) := retrieve q (top_k req) w in
      let answer_parts := map (answer_part q) chosen in
      let sources := sources_of idx q chosen in
      let display_sources := display_sources_of sources in
      match answer_parts with
      | [] =>
          let '(r, e) := last_resort q (env w) in (r, set_env e w)
      | _ :: _ =>
          let answer_text := join [NEWLINE; NEWLINE] answer_parts in
          if truthy (OPENAI_API_KEY w)
          then (Generation answer_text sources display_sources, w)
          else (Reply (sub_url_pattern 0 answer_text) display_sources false, w)
      end
  end.

(** The endpoint [/search] (lines 68-97); its local [SYNONYMS] is not read.
    A post whose file cannot be read is passed over by [continue], which
    skips the test of the limit too. *)
Definition search_doc (dir : store) (ql post_id : pystr) (meta : Meta)
  : result (list Source) :=
  parsed <- read_post dir post_id ;;
  let title := or_empty (p_title parsed) in
  let content := lower (strip_html (or_empty (p_content parsed))) in
  let ocr := lower (or_empty (p_ocr_text parsed)) in
  let content :=
    match ocr with
    | [] => content
    | _ :: _ => content ++ [NEWLINE] ++ ocr
    end in
  Ok (if contains ql (lower title) || contains ql content
      then [ {| s_id := IdStr post_id; s_title := title; s_url := m_url meta;
                s_score := None; s_excerpt := None |} ]
      else []).

Fixpoint search_loop (dir : store) (ql : pystr) (limit : Z)
  (idx : dict Meta) (results : list Source) : list Source :=
  match idx with
  | [] => results
  | (post_id, meta) :: idx' =>
      match search_doc dir ql post_id meta with
      | Ok added =>
          let results := results ++ added in
          if limit <=? len results then results
          else search_loop dir ql limit idx' results
      | Raise _ => search_loop dir ql limit idx' results
      end
  end.

Definition search (q : pystr) (limit : Z) (w : World) : list Source :=
  search_loop (Search.parsed_dir (env w)) (lower q) limit (index_json w) [].

End WithFloat.

Arguments World : clear implicits.
Arguments pyid : clear implicits.
Arguments pynum : clear implicits.
Arguments Cand : clear implicits.
Arguments Source : clear implicits.
Arguments Response : clear implicits.

End Api.

(** * Reference instances

    A restriction of the Unicode tables to ASCII and the Hangul syllables,
    and exact rational arithmetic, on which the examples are evaluated. *)

Module Reference.

Local Open Scope Q_scope.

Definition in_range (lo hi c : N) : bool := ((lo <=? c) && (c <=? hi))%N.

Definition basic_is_word (c : char) : bool :=
  in_range 48 57 c || in_range 65 90 c || in_range 97 122 c
  || N.eqb c 95 || in_range 44032 55203 c.

Definition basic_is_space (c : char) : bool :=
  in_range 9 13 c || in_range 28 32 c || N.eqb c 133 || N.eqb c 160.

Definition basic_lower (s : pystr) : pystr :=
  map (fun c => if in_range 65 90 c then (c + 32)%N else c) s.

(** The text of a body that holds no markup and no entity: the body itself,
    stripped. *)
Definition plain_text (html : pystr) : pystr := trim basic_is_space html.

#[export] Instance BasicLib : Lib := {|
  is_word := basic_is_word;
  is_space := basic_is_space;
  lower := basic_lower;
  soup_text := plain_text
|}.

(** A truncated series of the logarithm, [2 (z + z^3/3 + z^5/5)] for
    [z = (x-1)/(x+1)]: positive exactly above 1, zero at 1. *)
Definition Qlog (x : Q) : Q :=
  let z := Qred ((x - 1) / (x + 1)) in
  let z2 := Qred (z * z) in
  Qred (2 * z * (1 + z2 * ((1 # 3) + z2 * (1 # 5)))).

(** Decimal rendering with six fractional digits. *)
Definition decimal (n : Z) : pystr :=
  map N_of_ascii (list_ascii_of_string
    (DecimalString.NilZero.string_of_int (Z.to_int n))).

Definition Qrepr (x : Q) : pystr :=
  let a := Qabs x in
  let whole := Qfloor a in
  let frac := Qfloor ((a - inject_Z whole) * 1000000) in
  (if Qle_bool 0 x then [] else [45%N])
  ++ decimal whole ++ [46%N] ++ skipn 1 (decimal (1000000 + frac)%Z).

(** Plain decimal numerals [ddd] and [ddd.ddd], with an optional sign. *)
Definition digit_value (c : char) : option Z :=
  if in_range 48 57 c then Some (Z.of_N c - 48)%Z else None.

Fixpoint parse_digits (acc : Z) (s : pystr) : option (Z * pystr) :=
  match s with
  | [] => Some (acc, [])
  | c :: s' =>
      match digit_value c with
      | Some d => parse_digits (10 * acc + d)%Z s'
      | None => Some (acc, s)
      end
  end.

Definition starts_with_digit (s : pystr) : bool :=
  match s with
  | c :: _ => in_range 48 57 c
  | [] => false
  end.

Definition parse_unsigned (s : pystr) : option Q :=
  if starts_with_digit s then
    match parse_digits 0 s with
    | Some (w, []) => Some (inject_Z w)
    | Some (w, c :: r) =>
        if N.eqb c 46 && starts_with_digit r then
          match parse_digits 0 r with
          | Some (f, []) =>
              Some (Qred (inject_Z w + inject_Z f / inject_Z (10 ^ len r)%Z))
          | _ => None
          end
        else None
    | None => None
    end
  else None.

Definition Qparse (s : pystr) : option Q :=
  match s with
  | c :: s' =>
      if N.eqb c 45 then option_map Qopp (parse_unsigned s')
      else parse_unsigned s
  | [] => None
  end.

#[export] Instance QFloat : FloatArith Q := {|
  of_int := inject_Z;
  fadd := fun x y => Qred (x + y);
  fsub := fun x y => Qred (x - y);
  fmul := fun x y => Qred (x * y);
  fdiv := fun x y => Qred (x / y);
  int_truediv := fun a b => Qred (inject_Z a / inject_Z b);
  flog := Qlog;
  fltb := fun x y => negb (Qle_bool y x);
  feqb := Qeq_bool;
  float_repr := Qrepr;
  float_of_str := Qparse;
  int_of_float := fun x => Z.quot (Qnum x) (Z.pos (Qden x))
|}.

End Reference.

(** * Vocabulary of the statements *)

(** [x] stands somewhere before [y] in [l]. *)
Definition precedes {A : Type} (x y : A) (l : list A) : Prop :=
  exists l1 l2 l3, l = l1 ++ x :: l2 ++ y :: l3.

(** [l1] is [l2] with some elements left out, the order kept. *)
Inductive subseq {A : Type} : list A -> list A -> Prop :=
| subseq_nil : subseq [] []
| subseq_skip : forall x l1 l2, subseq l1 l2 -> subseq l1 (x :: l2)
| subseq_keep : forall x l1 l2, subseq l1 l2 -> subseq (x :: l1) (x :: l2).

Definition sum_Z (l : list Z) : Z := fold_right Z.add 0 l.

(** [a < b] on strs: lexicographic by code point. *)
Fixpoint str_ltb (a b : pystr) : bool :=
  match a, b with
  | _, [] => false
  | [], _ :: _ => true
  | x :: a', y :: b' => (x <? y)%N || (N.eqb x y && str_ltb a' b')
  end.

(** The order facts about [<] on floats that sorting relies on. Both hold
    of IEEE comparison: [<] is asymmetric, and [>=] is transitive through a
    positive (hence comparable) middle value. *)
Class FloatOrder {float : Type} {FA : FloatArith float} : Prop := {
  flt_asym : forall x y, fltb x y = true -> fltb y x = false;
  fge_trans : forall x y z,
    fltb fzero y = true ->
    fltb x y = false -> fltb y z = false -> fltb x z = false
}.

(** The sign facts that keep [score] inside the domain of [/] and
    [math.log]; all hold of IEEE binary64 arithmetic. A positive float is
    neither zero nor negative; [1.0] is not zero; [n + 0.5] is not zero for
    an int [n], and positive for a count [n >= 0]; [1 + x / y] is positive
    for positive [x] and [y]. *)
Class FloatSign {float : Type} {FA : FloatArith float} : Prop := {
  fpos_nonzero : forall x, fltb fzero x = true -> feqb x fzero = false;
  fpos_not_neg : forall x, fltb fzero x = true -> fltb x fzero = false;
  one_nonzero : feqb (of_int 1) fzero = false;
  int_plus_half_nonzero : forall n, feqb (fadd (of_int n) f0_5) fzero = false;
  count_plus_half_pos : forall n,
    0 <= n -> fltb fzero (fadd (of_int n) f0_5) = true;
  one_plus_ratio_pos : forall x y,
    fltb fzero x = true -> fltb fzero y = true ->
    fltb fzero (fadd (of_int 1) (fdiv x y)) = true
}.

(** The zero facts behind a score of zero: [0.0] is not positive; a term
    whose frequency factor is [0] ([idf * (0 * k) / d]) is not positive; the
    sum of two floats that are not positive is not positive. They hold of
    IEEE arithmetic, where such a term is a zero or a NaN. *)
Class FloatZero {float : Type} {FA : FloatArith float} : Prop := {
  zero_not_pos : fltb fzero fzero = false;
  zero_term_not_pos : forall i k d,
    fltb fzero (fdiv (fmul i (fmul (of_int 0) k)) d) = false;
  add_not_pos : forall x y,
    fltb fzero x = false -> fltb fzero y = false ->
    fltb fzero (fadd x y) = false
}.

(** The number of times [t] stands in [toks]. *)
Definition occurrences (t : pystr) (toks : list pystr) : Z :=
  len (filter (str_eqb t) toks).

(** The query words [extract_relevant_sentences] looks for, and the number
    of them a sentence holds. *)
Definition query_words {L : Lib} (q : pystr) : list pystr :=
  map lower (filter (fun t => 2 <? len t) (Api.findall_w q)).

Definition sentence_score {L : Lib} (q s : pystr) : Z :=
  len (filter (fun t => contains t (lower s)) (query_words q)).

(** The characters of a text that are no whitespace. *)
Definition visible {L : Lib} (s : pystr) : pystr :=
  filter (fun c => negb (is_space c)) s.

(** The url [u] is the url of the source [s]. *)
Definition has_url {float : Type} (u : pystr) (s : Api.Source float)
  : bool :=
  match Api.s_url s with
  | Some v => str_eqb u v
  | None => false
  end.

(** An entry of [score]'s result whose score is strictly positive. *)
Definition positive_entry {float : Type} {FA : FloatArith float}
  (e : pystr * float) : Prop :=
  fltb fzero (snd e) = true.

(** Non-increasing order of two entries: the first score is not below the
    second. *)
Definition score_not_below {float : Type} {FA : FloatArith float}
  (x y : pystr * float) : Prop :=
  fltb (snd x) (snd y) = false.

Section IndexVocabulary.
Context {L : Lib} {float : Type} {FA : FloatArith float}.

(** The documents [build] indexes: the readable [*.json] files, each under
    its file name without the extension. *)
Definition readable (files : store) : list (pystr * Parsed) :=
  flat_map (fun e =>
    match snd e with
    | Some parsed => [(slice_to (-5) (fst e), parsed)]
    | None => []
    end) files.

Definition indexed (dir : store) : list (pystr * Parsed) :=
  readable (Search.json_files dir).

Definition doc_tokens (d : pystr * Parsed) : list pystr :=
  Search.tokenize (Search.doc_text (snd d)).

(** [self.doc_len[pid] = len(toks)] for one document. *)
Definition set_doc_len (d : dict Z) (doc : pystr * Parsed) : dict Z :=
  dict_set (fst doc) (len (doc_tokens doc)) d.

(** The total token count over a list of documents. *)
Definition token_total (docs : list (pystr * Parsed)) : Z :=
  sum_Z (map (fun d => len (doc_tokens d)) docs).

Definition total_tokens (dir : store) : Z := token_total (indexed dir).

(** The number of documents of a list in which the term [t] occurs. *)
Definition containing (t : pystr) (docs : list (pystr * Parsed)) : Z :=
  len (filter (fun d => existsb (str_eqb t) (doc_tokens d)) docs).

Definition doc_frequency (dir : store) (t : pystr) : Z :=
  containing t (indexed dir).

(** The loop of [build] over the documents that can be read. *)
Fixpoint index_docs (docs : list (pystr * Parsed)) (N total_len : Z)
  (self : Search.BM25Index float) : Z * Z * Search.BM25Index float :=
  match docs with
  | [] => (N, total_len, self)
  | doc :: rest =>
      index_docs rest (N + 1) (total_len + len (doc_tokens doc))
        (Search.index_doc (fst doc) (snd doc) self)
  end.

(** An index whose document frequencies are counts of documents among the
    [N] indexed ones. *)
Definition index_ok (idx : Search.BM25Index float) : Prop :=
  forall t, 0 <= dict_get t 0 (Search.self_df idx) <= Search.self_N idx.

End IndexVocabulary.

(** * Example data *)

Module Examples.
Import Reference.

Definition post (title content : string) : Parsed :=
  {| p_title := Some (lit title); p_content := Some (lit content);
     p_ocr_text := None; p_writer := None; p_WRITER_NM := None;
     p_source_url := None; p_url := None |}.

Definition meta (url : string) : Api.Meta := {| Api.m_url := Some (lit url) |}.

Definition empty_env (dir : store) : Search.Env Q :=
  {| Search.parsed_dir := dir; Search.index_file := None;
     Search.index_file_writable := true; Search.global_index := None |}.

Definition world (dir : store) (idx : dict Api.Meta) : Api.World Q :=
  {| Api.env := empty_env dir; Api.index_json := idx;
     Api.OPENAI_API_KEY := None |}.

(** Two notices with the same text; the directory lists [b.json] first. *)
Definition twin_dir : store :=
  [ (lit "b.json", Some (post "notice" "alpha beta"));
    (lit "a.json", Some (post "notice" "alpha beta")) ].

Definition twin_index : Search.BM25Index Q :=
  Search.build twin_dir Search.init.

(** What [score] returns on [twin_index] for the query [alpha]. *)
Definition twin_scores : list (pystr * Q) :=
  [ (lit "b", 440446 # 2415765); (lit "a", 440446 # 2415765) ]%Q.

(** The scenario of the specification: a notice on leave of absence and a
    scholarship notice. *)
Definition leave_dir : store :=
  [ (lit "A.json", Some (post "휴학 신청 방법" "휴학은 학과 사무실에서 신청합니다."));
    (lit "B.json", Some (post "장학금 공고" "장학금 신청 기간 안내.")) ].

Definition leave_idx : dict Api.Meta :=
  [ (lit "A", meta "https://cs.kku.ac.kr/a"); (lit "B", meta "https://cs.kku.ac.kr/b") ].

Definition leave_world : Api.World Q := world leave_dir leave_idx.

(** Two notices on leave of absence, for a request with [top_k = -1]. *)
Definition leave2_dir : store :=
  [ (lit "A.json", Some (post "휴학 신청 방법" "휴학은 학과 사무실에서 신청합니다."));
    (lit "C.json", Some (post "휴학 연장" "휴학 연장은 학기 시작 전에 신청합니다.")) ].

Definition leave2_idx : dict Api.Meta :=
  [ (lit "A", meta "https://cs.kku.ac.kr/a"); (lit "C", meta "https://cs.kku.ac.kr/c") ].

Definition leave2_world : Api.World Q := world leave2_dir leave2_idx.

(** A "who" question about a name that a notice carries in title and body. *)
Definition seminar_dir : store :=
  [ (lit "S.json", Some (post "김교수 세미나" "김교수 세미나 안내")) ].

Definition seminar_idx : dict Api.Meta :=
  [ (lit "S", meta "https://cs.kku.ac.kr/s") ].

Definition seminar_world : Api.World Q := world seminar_dir seminar_idx.

(** A scholarship notice whose body quotes a link. *)
Definition link_dir : store :=
  [ (lit "P.json", Some (post "장학금 안내" "장학금 신청은 http://a.kr/x 에서 합니다.")) ].

Definition link_idx : dict Api.Meta :=
  [ (lit "P", meta "https://cs.kku.ac.kr/p") ].

Definition link_world : Api.World Q := world link_dir link_idx.

(** An index state whose [avgdl] is zero although a document has tokens. *)
Definition zero_avgdl_index : Search.BM25Index Q :=
  {| Search.self_N := 1; Search.self_avgdl := of_int 0;
     Search.self_doc_len := [(lit "d", 1)];
     Search.self_tf := [(lit "d", [(lit "alpha", 1)])];
     Search.self_df := [(lit "alpha", 1)];
     Search.self_docs := [(lit "d", lit "notice")] |}.

(** A directory whose only notice has no text. *)
Definition blank_dir : store := [ (lit "e.json", Some (post "" "")) ].

(** [twin_dir] with a file that cannot be read and a file that is no JSON
    file beside the two notices. *)
Definition cluttered_dir : store :=
  [ (lit "b.json", Some (post "notice" "alpha beta"));
    (lit "broken.json", None);
    (lit "a.json", Some (post "notice" "alpha beta"));
    (lit "notes.txt", Some (post "draft" "gamma")) ].

(** What the fresh index of [leave_dir] returns for the question [휴학]. *)
Definition leave_hits : list (pystr * Q) :=
  Eval vm_compute in
    match Search.score (Search.build leave_dir Search.init) (lit "휴학")
            f1_5 f0_75 5 with
    | Ok l => l
    | Raise _ => []
    end.

(** An index state with a negative document count, as [load] would take it
    from a damaged [bm25_index.json]. *)
Definition damaged_index : Search.BM25Index Q :=
  {| Search.self_N := -1; Search.self_avgdl := of_int 0;
     Search.self_doc_len := []; Search.self_tf := [];
     Search.self_df := []; Search.self_docs := [] |}.

End Examples.

(** * Facts about strings, dictionaries and sorting *)

Lemma str_eqb_eq (a b : pystr) : str_eqb a b = true <-> a = b.
Proof.
  revert b; induction a as [|x a IH]; intros [|y b]; simpl;
    try (split; [discriminate | discriminate]); try tauto.
  rewrite andb_true_iff, N.eqb_eq, IH.
  split; [intros [-> ->]; reflexivity | intros H; inversion H; auto].
Qed.

Lemma str_eqb_refl (a : pystr) : str_eqb a a = true.
Proof. apply str_eqb_eq; reflexivity. Qed.

Lemma str_eqb_neq (a b : pystr) : str_eqb a b = false <-> a <> b.
Proof.
  rewrite <- str_eqb_eq. destruct (str_eqb a b); split; congruence.
Qed.

Lemma existsb_str_eqb (t : pystr) (l : list pystr) :
  existsb (str_eqb t) l = true <-> In t l.
Proof.
  rewrite existsb_exists; split.
  - intros (x & Hx & E). apply str_eqb_eq in E; subst; assumption.
  - intros H; exists t; split; [assumption | apply str_eqb_refl].
Qed.

Lemma len_cons {A : Type} (x : A) (l : list A) : len (x :: l) = len l + 1.
Proof. unfold len; simpl; lia. Qed.

Section DictFacts.
Context {V : Type}.

Lemma dict_find_set_same (k : pystr) (v : V) (d : dict V) :
  dict_find k (dict_set k v d) = Some v.
Proof.
  induction d as [|[k' v'] d IH]; simpl.
  - rewrite str_eqb_refl; reflexivity.
  - destruct (str_eqb k k') eqn:E; simpl; rewrite E; auto.
Qed.

Lemma dict_find_set_other (k k' : pystr) (v : V) (d : dict V) :
  k <> k' -> dict_find k' (dict_set k v d) = dict_find k' d.
Proof.
  intros Hne; induction d as [|[k0 v0] d IH]; simpl.
  - apply not_eq_sym, str_eqb_neq in Hne; rewrite Hne; reflexivity.
  - destruct (str_eqb k k0) eqn:E; simpl.
    + apply str_eqb_eq in E; subst k0.
      apply not_eq_sym, str_eqb_neq in Hne; rewrite Hne; reflexivity.
    + rewrite IH; reflexivity.
Qed.

(** Setting a key that is present keeps the keys; a new key goes last. *)
Lemma keys_dict_set (k : pystr) (v : V) (d : dict V) :
  keys (dict_set k v d) = if existsb (str_eqb k) (keys d) then keys d
                          else keys d ++ [k].
Proof.
  induction d as [|[k' v'] d IH]; simpl; [reflexivity|].
  destruct (str_eqb k k') eqn:E; simpl; [reflexivity|].
  unfold keys in *; rewrite IH.
  destruct (existsb (str_eqb k) (map fst d)); reflexivity.
Qed.

Lemma dict_set_absent (k : pystr) (v : V) (d : dict V) :
  ~ In k (keys d) -> dict_set k v d = d ++ [(k, v)].
Proof.
  induction d as [|[k' v'] d IH]; simpl; intros H; [reflexivity|].
  destruct (str_eqb k k') eqn:E.
  - apply str_eqb_eq in E; subst; tauto.
  - rewrite IH by tauto; reflexivity.
Qed.

Lemma NoDup_keys_dict_set (k : pystr) (v : V) (d : dict V) :
  NoDup (keys d) -> NoDup (keys (dict_set k v d)).
Proof.
  intros H; rewrite keys_dict_set.
  destruct (existsb (str_eqb k) (keys d)) eqn:E; [assumption|].
  apply NoDup_app; [assumption | repeat constructor; auto |].
  intros x Hx [<-|[]].
  apply existsb_str_eqb in Hx; congruence.
Qed.

End DictFacts.

Lemma dict_get_incr (t k : pystr) (d : dict Z) :
  dict_get t 0 (dict_incr k d)
  = dict_get t 0 d + (if str_eqb t k then 1 else 0).
Proof.
  unfold dict_incr, dict_get.
  destruct (str_eqb t k) eqn:E.
  - apply str_eqb_eq in E; subst. rewrite dict_find_set_same; reflexivity.
  - apply str_eqb_neq in E.
    rewrite dict_find_set_other by congruence. lia.
Qed.

(** Incrementing the entries of a list of keys adds, to each entry, the
    number of times its key is listed. *)
Lemma dict_get_incr_all (t : pystr) (ks : list pystr) (d : dict Z) :
  dict_get t 0 (fold_left (fun d k => dict_incr k d) ks d)
  = dict_get t 0 d + len (filter (str_eqb t) ks).
Proof.
  revert d; induction ks as [|k ks IH]; intros d; simpl.
  - unfold len; simpl; lia.
  - rewrite IH, dict_get_incr.
    destruct (str_eqb t k); [rewrite len_cons|]; lia.
Qed.

Lemma NoDup_keys_incr_all (ks : list pystr) (d : dict Z) :
  NoDup (keys d) -> NoDup (keys (fold_left (fun d k => dict_incr k d) ks d)).
Proof.
  revert d; induction ks as [|k ks IH]; intros d H; simpl; [assumption|].
  apply IH, NoDup_keys_dict_set, H.
Qed.

Lemma in_keys_incr_all (t : pystr) (ks : list pystr) (d : dict Z) :
  In t (keys (fold_left (fun d k => dict_incr k d) ks d))
  <-> In t (keys d) \/ In t ks.
Proof.
  revert d; induction ks as [|k ks IH]; intros d; simpl; [tauto|].
  rewrite IH. unfold dict_incr. rewrite keys_dict_set.
  destruct (existsb (str_eqb k) (keys d)) eqn:E.
  - apply existsb_str_eqb in E. split; [tauto|].
    intros [H|[<-|H]]; auto.
  - rewrite in_app_iff; simpl. tauto.
Qed.

(** A key listed once is counted once. *)
Lemma len_filter_NoDup (t : pystr) (ks : list pystr) :
  NoDup ks ->
  len (filter (str_eqb t) ks) = if existsb (str_eqb t) ks then 1 else 0.
Proof.
  induction 1 as [|k ks Hk Hnd IH]; simpl; [reflexivity|].
  destruct (str_eqb t k) eqn:E; simpl.
  - apply str_eqb_eq in E; subst k.
    rewrite len_cons, IH.
    destruct (existsb (str_eqb t) ks) eqn:E'; [|reflexivity].
    apply existsb_str_eqb in E'; contradiction.
  - exact IH.
Qed.

(** * Facts about [build] *)

Section BuildFacts.
Context {L : Lib} {float : Type} {FA : FloatArith float}.

Lemma NoDup_keys_count_tokens (toks : list pystr) :
  NoDup (keys (Search.count_tokens toks)).
Proof. apply NoDup_keys_incr_all; constructor. Qed.

Lemma in_keys_count_tokens (t : pystr) (toks : list pystr) :
  In t (keys (Search.count_tokens toks)) <-> In t toks.
Proof.
  unfold Search.count_tokens; rewrite in_keys_incr_all; simpl; tauto.
Qed.

Lemma existsb_keys_count_tokens (t : pystr) (toks : list pystr) :
  existsb (str_eqb t) (keys (Search.count_tokens toks))
  = existsb (str_eqb t) toks.
Proof.
  apply eq_true_iff_eq.
  rewrite !existsb_str_eqb. apply in_keys_count_tokens.
Qed.

(** Indexing a document raises the frequency of each of its terms by one. *)
Lemma df_index_doc (t pid : pystr) (parsed : Parsed) (self : Search.BM25Index float) :
  dict_get t 0 (Search.self_df (Search.index_doc pid parsed self))
  = dict_get t 0 (Search.self_df self)
    + (if existsb (str_eqb t) (Search.tokenize (Search.doc_text parsed))
       then 1 else 0).
Proof.
  unfold Search.index_doc; cbn [Search.self_df].
  rewrite dict_get_incr_all.
  rewrite len_filter_NoDup by apply NoDup_keys_count_tokens.
  rewrite existsb_keys_count_tokens. reflexivity.
Qed.

Lemma token_total_cons (d : pystr * Parsed) (docs : list (pystr * Parsed)) :
  token_total (d :: docs) = len (doc_tokens d) + token_total docs.
Proof. reflexivity. Qed.

Lemma containing_cons (t : pystr) (d : pystr * Parsed)
  (docs : list (pystr * Parsed)) :
  containing t (d :: docs)
  = (if existsb (str_eqb t) (doc_tokens d) then 1 else 0) + containing t docs.
Proof.
  unfold containing; simpl.
  destruct (existsb (str_eqb t) (doc_tokens d)); [rewrite len_cons|]; lia.
Qed.

(** The loop of [build] counts the readable files, adds up their token
    counts, and adds to every document frequency the number of readable
    files that hold the term. *)
Lemma build_loop_spec (files : store) :
  forall (N total_len : Z) (self : Search.BM25Index float),
    fst (fst (Search.build_loop files N total_len self))
    = N + len (readable files)
    /\ snd (fst (Search.build_loop files N total_len self))
       = total_len + token_total (readable files)
    /\ forall t,
         dict_get t 0 (Search.self_df
                         (snd (Search.build_loop files N total_len self)))
         = dict_get t 0 (Search.self_df self) + containing t (readable files).
Proof.
  induction files as [|[fname [parsed|]] files IH]; intros N total_len self.
  - simpl. unfold token_total, containing, len; simpl.
    repeat split; intros; lia.
  - simpl Search.build_loop.
    destruct (IH (N + 1) (total_len + len (Search.tokenize (Search.doc_text parsed)))
                 (Search.index_doc (slice_to (-5) fname) parsed self))
      as (HN & HT & Hdf).
    rewrite HN, HT.
    change (readable ((fname, Some parsed) :: files))
      with ((slice_to (-5) fname, parsed) :: readable files).
    rewrite token_total_cons, len_cons.
    unfold doc_tokens at 1; simpl snd.
    repeat split; try lia.
    intros t. rewrite Hdf, df_index_doc, containing_cons.
    unfold doc_tokens at 1; simpl snd. lia.
  - simpl Search.build_loop. apply IH.
Qed.

Lemma build_N (dir : store) (self : Search.BM25Index float) :
  Search.self_N (Search.build dir self) = len (indexed dir).
Proof.
  unfold Search.build.
  pose proof (build_loop_spec (Search.json_files dir) 0 0 self) as (HN & _ & _).
  destruct (Search.build_loop (Search.json_files dir) 0 0 self) as [[N T] s'].
  simpl in *. subst N. unfold indexed. lia.
Qed.

(** [build] adds the document frequencies of the directory to those the
    index already holds. *)
Lemma build_df (dir : store) (self : Search.BM25Index float) (t : pystr) :
  dict_get t 0 (Search.self_df (Search.build dir self))
  = dict_get t 0 (Search.self_df self) + doc_frequency dir t.
Proof.
  unfold Search.build.
  pose proof (build_loop_spec (Search.json_files dir) 0 0 self) as (_ & _ & Hdf).
  destruct (Search.build_loop (Search.json_files dir) 0 0 self) as [[N T] s'].
  simpl in *. apply Hdf.
Qed.

Lemma containing_bounds (t : pystr) (docs : list (pystr * Parsed)) :
  0 <= containing t docs <= len docs.
Proof.
  unfold containing, len. split; [lia|].
  apply inj_le, filter_length_le.
Qed.

(** A freshly built index is well formed. *)
Lemma build_index_ok (dir : store) : index_ok (Search.build dir Search.init).
Proof.
  intros t. rewrite build_df, build_N. simpl.
  unfold dict_get; simpl. unfold doc_frequency.
  pose proof (containing_bounds t (indexed dir)). lia.
Qed.

(** A second [build] on the same index doubles every document frequency,
    whatever the directory holds. *)
Lemma build_twice_df (dir : store) (t : pystr) :
  dict_get t 0 (Search.self_df
                  (Search.build dir (Search.build dir Search.init)))
  = 2 * dict_get t 0 (Search.self_df (Search.build dir Search.init)).
Proof.
  rewrite !build_df.
  change (dict_get t 0 (Search.self_df Search.init)) with 0. lia.
Qed.

(** ... while [N] and [avgdl] do not depend on the index [build] starts
    from. *)
Lemma build_N_avgdl_fresh (dir : store) (self : Search.BM25Index float) :
  Search.self_N (Search.build dir self)
  = Search.self_N (Search.build dir Search.init)
  /\ Search.self_avgdl (Search.build dir self)
     = Search.self_avgdl (Search.build dir Search.init).
Proof.
  split; [rewrite !build_N; reflexivity|].
  unfold Search.build.
  pose proof (build_loop_spec (Search.json_files dir) 0 0 self) as (HN & HT & _).
  pose proof (build_loop_spec (Search.json_files dir) 0 0 Search.init)
    as (HN' & HT' & _).
  destruct (Search.build_loop (Search.json_files dir) 0 0 self) as [[N T] s'].
  destruct (Search.build_loop (Search.json_files dir) 0 0 Search.init)
    as [[N' T'] s''].
  simpl in *.
  assert (N = N') by lia. assert (T = T') by lia. subst; reflexivity.
Qed.

(** C6. After [build], whatever the directory and the index it starts from,
    [N] is the number of indexed documents, [avgdl] is the total token count
    over the indexed documents divided by [N] when [N > 0], and [0.0] when
    [N = 0]. *)
Theorem build_avgdl (dir : store) (self : Search.BM25Index float) :
  Search.self_N (Search.build dir self) = len (indexed dir)
  /\ (0 < Search.self_N (Search.build dir self) ->
      Search.self_avgdl (Search.build dir self)
      = int_truediv (total_tokens dir) (Search.self_N (Search.build dir self)))
  /\ (Search.self_N (Search.build dir self) = 0 ->
      Search.self_avgdl (Search.build dir self) = of_int 0).
Proof.
  split; [apply build_N|].
  unfold Search.build.
  pose proof (build_loop_spec (Search.json_files dir) 0 0 self) as (HN & HT & _).
  destruct (Search.build_loop (Search.json_files dir) 0 0 self) as [[N T] s'].
  simpl in *. split; intros HN0.
  - destruct (N =? 0) eqn:E; [apply Z.eqb_eq in E; lia|].
    rewrite HT. reflexivity.
  - rewrite HN0. reflexivity.
Qed.

(** ** The document lengths kept by the index *)

Lemma build_loop_doc_len (files : store) :
  forall (N total_len : Z) (self : Search.BM25Index float),
    Search.self_doc_len (snd (Search.build_loop files N total_len self))
    = fold_left set_doc_len (readable files) (Search.self_doc_len self).
Proof.
  induction files as [|[fname [parsed|]] files IH]; intros N total_len self;
    simpl Search.build_loop.
  - reflexivity.
  - rewrite IH. reflexivity.
  - apply IH.
Qed.

Lemma build_doc_len_fold (dir : store) (self : Search.BM25Index float) :
  Search.self_doc_len (Search.build dir self)
  = fold_left set_doc_len (indexed dir) (Search.self_doc_len self).
Proof.
  unfold Search.build, indexed.
  rewrite <- (build_loop_doc_len (Search.json_files dir) 0 0 self).
  destruct (Search.build_loop (Search.json_files dir) 0 0 self) as [[N T] s'].
  reflexivity.
Qed.

(** New documents are entered in the order they are read. *)
Lemma fold_set_doc_len_fresh (docs : list (pystr * Parsed)) :
  forall d,
    NoDup (keys d ++ map fst docs) ->
    fold_left set_doc_len docs d
    = d ++ map (fun doc => (fst doc, len (doc_tokens doc))) docs.
Proof.
  induction docs as [|doc docs IH]; intros d Hnd; simpl.
  - rewrite app_nil_r; reflexivity.
  - unfold set_doc_len at 2. rewrite dict_set_absent.
    + rewrite IH.
      * rewrite <- app_assoc; reflexivity.
      * unfold keys in *. rewrite map_app, <- app_assoc. exact Hnd.
    + apply NoDup_remove_2 in Hnd. intros Hin; apply Hnd.
      apply in_or_app; left; exact Hin.
Qed.

Lemma dict_set_same_value {V : Type} (k : pystr) (v : V) (d : dict V) :
  dict_find k d = Some v -> dict_set k v d = d.
Proof.
  induction d as [|[k' v'] d IH]; simpl; [discriminate|].
  destruct (str_eqb k k') eqn:E.
  - intros H; inversion H; reflexivity.
  - intros H; rewrite IH by exact H; reflexivity.
Qed.

Lemma dict_find_in {V : Type} (k : pystr) (v : V) (d : dict V) :
  NoDup (keys d) -> In (k, v) d -> dict_find k d = Some v.
Proof.
  induction d as [|[k' v'] d IH]; simpl; intros Hnd Hin; [contradiction|].
  inversion Hnd as [|? ? Hk Hnd']; subst.
  destruct Hin as [Heq | Hin].
  - inversion Heq; subst. rewrite str_eqb_refl; reflexivity.
  - destruct (str_eqb k k') eqn:E.
    + apply str_eqb_eq in E; subst k'. exfalso; apply Hk.
      apply in_map_iff. exists (k, v); auto.
    + apply IH; assumption.
Qed.

(** Entering again the lengths that are already there changes nothing. *)
Lemma fold_set_doc_len_again (docs : list (pystr * Parsed)) (d : dict Z) :
  NoDup (keys d) ->
  (forall doc, In doc docs -> In (fst doc, len (doc_tokens doc)) d) ->
  fold_left set_doc_len docs d = d.
Proof.
  intros Hnd. induction docs as [|doc docs IH]; intros Hin; simpl;
    [reflexivity|].
  unfold set_doc_len at 2.
  rewrite dict_set_same_value.
  - apply IH. intros doc' H; apply Hin; right; exact H.
  - apply dict_find_in; [exact Hnd | apply Hin; left; reflexivity].
Qed.

(** A file name that ends in [.json] is its document id followed by
    [.json], so distinct files are distinct documents. *)
Lemma json_name (fname : pystr) :
  endswith dot_json fname = true -> fname = slice_to (-5) fname ++ dot_json.
Proof.
  unfold endswith. rewrite andb_true_iff. intros [Hlen Heq].
  apply str_eqb_eq in Heq.
  change (length dot_json) with 5%nat in *.
  unfold slice_to.
  change (0 <=? -5) with false. cbv iota.
  change (Z.to_nat (- -5)) with 5%nat.
  rewrite <- Heq. apply eq_sym, firstn_skipn.
Qed.

Lemma NoDup_indexed (dir : store) :
  NoDup (map fst dir) -> NoDup (map fst (indexed dir)).
Proof.
  unfold indexed, Search.json_files.
  induction dir as [|[fname c] dir IH]; simpl; intros Hnd; [constructor|].
  inversion Hnd as [|? ? Hf Hnd']; subst.
  destruct (endswith dot_json fname) eqn:E; [|apply IH; exact Hnd'].
  destruct c as [parsed|]; simpl; [|apply IH; exact Hnd'].
  constructor; [|apply IH; exact Hnd'].
  intros Hin. apply Hf.
  apply in_map_iff in Hin as ([pid p] & Hpid & Hin). simpl in Hpid.
  unfold readable in Hin. apply in_flat_map in Hin as ([f' c'] & Hin & Hout).
  apply filter_In in Hin as [Hin E']. simpl in E', Hout.
  destruct c' as [p'|]; [|contradiction].
  destruct Hout as [Heq|[]]. inversion Heq as [[Hf' Hp']].
  apply in_map_iff. exists (f', Some p'). split; [|exact Hin].
  simpl. rewrite (json_name _ E), (json_name _ E'), Hf', Hpid. reflexivity.
Qed.

(** On an index built from scratch over a directory (whose file names are
    distinct), [doc_len] lists the indexed documents with their token
    counts, so [avgdl] is the sum of the document lengths over [N]. *)
Lemma build_doc_len (dir : store) :
  NoDup (map fst dir) ->
  Search.self_doc_len (Search.build dir Search.init)
  = map (fun doc => (fst doc, len (doc_tokens doc))) (indexed dir)
  /\ sum_Z (map snd (Search.self_doc_len (Search.build dir Search.init)))
     = total_tokens dir.
Proof.
  intros Hnd. rewrite build_doc_len_fold.
  rewrite fold_set_doc_len_fresh by (apply NoDup_indexed, Hnd).
  split; [reflexivity|].
  unfold total_tokens, token_total. simpl. rewrite map_map. reflexivity.
Qed.

(** A second [build] over the same directory leaves [doc_len] as it is. *)
Lemma build_twice_doc_len (dir : store) :
  NoDup (map fst dir) ->
  Search.self_doc_len (Search.build dir (Search.build dir Search.init))
  = Search.self_doc_len (Search.build dir Search.init).
Proof.
  intros Hnd. rewrite build_doc_len_fold.
  destruct (build_doc_len dir Hnd) as [E _].
  apply fold_set_doc_len_again.
  - rewrite E. unfold keys. rewrite map_map. simpl.
    apply NoDup_indexed, Hnd.
  - intros doc Hin. rewrite E.
    apply in_map_iff. exists doc; auto.
Qed.

End BuildFacts.

(** * Facts about order: [precedes], [subseq] and the stable sort *)

Section OrderFacts.
Context {A : Type}.

Lemma precedes_cons_iff (a b y : A) (r : list A) :
  precedes a b (y :: r) <-> (a = y /\ In b r) \/ precedes a b r.
Proof.
  split.
  - intros (l1 & l2 & l3 & E). destruct l1 as [|z l1]; simpl in E.
    + inversion E; subst. left; split; [reflexivity|].
      apply in_or_app; right; left; reflexivity.
    + inversion E; subst. right. exists l1, l2, l3; reflexivity.
  - intros [[-> Hb] | (l1 & l2 & l3 & ->)].
    + apply in_split in Hb as (l2 & l3 & ->).
      exists [], l2, l3; reflexivity.
    + exists (y :: l1), l2, l3; reflexivity.
Qed.

Lemma precedes_nil (a b : A) : ~ precedes a b [].
Proof. intros (l1 & l2 & l3 & E). destruct l1; discriminate. Qed.

Lemma precedes_app_l (a b : A) (l l' : list A) :
  precedes a b l -> precedes a b (l ++ l').
Proof.
  intros (l1 & l2 & l3 & ->). exists l1, l2, (l3 ++ l').
  rewrite <- !app_assoc. simpl. rewrite <- !app_assoc. reflexivity.
Qed.

Lemma precedes_firstn (a b : A) (n : nat) (l : list A) :
  precedes a b (firstn n l) -> precedes a b l.
Proof.
  intros H. rewrite <- (firstn_skipn n l). apply precedes_app_l, H.
Qed.

Lemma precedes_slice_to (a b : A) (k : Z) (l : list A) :
  precedes a b (slice_to k l) -> precedes a b l.
Proof. unfold slice_to; destruct (0 <=? k); apply precedes_firstn. Qed.

Lemma subseq_in (x : A) (l1 l2 : list A) :
  subseq l1 l2 -> In x l1 -> In x l2.
Proof.
  induction 1; simpl; intros Hin; auto.
  destruct Hin; auto.
Qed.

Lemma subseq_nil_l (l : list A) : subseq [] l.
Proof. induction l; constructor; assumption. Qed.

Lemma slice_to_nil (k : Z) : slice_to k (@nil A) = [].
Proof. unfold slice_to; destruct (0 <=? k); apply firstn_nil. Qed.

Lemma precedes_subseq (a b : A) (l1 l2 : list A) :
  subseq l1 l2 -> precedes a b l1 -> precedes a b l2.
Proof.
  induction 1 as [| x l1 l2 Hs IH | x l1 l2 Hs IH]; intros Hp.
  - assumption.
  - apply precedes_cons_iff; right; auto.
  - apply precedes_cons_iff in Hp as [[-> Hb] | Hp]; apply precedes_cons_iff.
    + left; split; [reflexivity | eapply subseq_in; eassumption].
    + right; auto.
Qed.

Lemma StronglySorted_firstn (R : A -> A -> Prop) (n : nat) (l : list A) :
  StronglySorted R l -> StronglySorted R (firstn n l).
Proof.
  revert n; induction l as [|x l IH]; intros [|n] H; simpl; try constructor.
  - apply IH. inversion H; assumption.
  - inversion H as [|? ? _ Hall]; subst.
    rewrite Forall_forall in *. intros y Hy. apply Hall.
    rewrite <- (firstn_skipn n l). apply in_or_app; left; assumption.
Qed.

Lemma Forall_firstn (P : A -> Prop) (n : nat) (l : list A) :
  Forall P l -> Forall P (firstn n l).
Proof.
  rewrite !Forall_forall. intros H x Hx. apply H.
  rewrite <- (firstn_skipn n l). apply in_or_app; left; assumption.
Qed.

End OrderFacts.

Lemma precedes_map {A B : Type} (f : A -> B) (a b : A) (l : list A) :
  precedes a b l -> precedes (f a) (f b) (map f l).
Proof.
  intros (l1 & l2 & l3 & ->). exists (map f l1), (map f l2), (map f l3).
  rewrite !map_app. simpl. rewrite map_app. reflexivity.
Qed.

Section SortFacts.
Context {A K : Type} (ltb : K -> K -> bool) (key : A -> K).

Lemma in_insert_desc (x y : A) (l : list A) :
  In y (insert_desc ltb key x l) <-> y = x \/ In y l.
Proof.
  induction l as [|z l IH]; simpl.
  - intuition.
  - destruct (ltb (key x) (key z)); simpl; rewrite ?IH; intuition.
Qed.

Lemma in_sort_desc (y : A) (l : list A) :
  In y (sort_desc ltb key l) <-> In y l.
Proof.
  induction l as [|x l IH]; simpl; [tauto|].
  rewrite in_insert_desc, IH. intuition.
Qed.

(** Where [insert_desc] can put two elements relative to each other. *)
Lemma precedes_insert_desc (x a b : A) (l : list A) :
  precedes a b (insert_desc ltb key x l) ->
  precedes a b l
  \/ (a = x /\ In b l)
  \/ (b = x /\ In a l /\ ltb (key x) (key a) = true).
Proof.
  induction l as [|y l IH]; simpl.
  - intros H. apply precedes_cons_iff in H as [[_ []] | H].
    exfalso; eapply precedes_nil; eassumption.
  - destruct (ltb (key x) (key y)) eqn:E; intros H.
    + apply precedes_cons_iff in H as [[-> Hb] | H].
      * apply (proj1 (in_insert_desc x b l)) in Hb as [-> | Hb].
        -- right; right; auto.
        -- left. apply precedes_cons_iff; auto.
      * apply IH in H as [H | [[-> Hb] | (-> & Ha & Hlt)]].
        -- left. apply precedes_cons_iff; auto.
        -- right; left; auto.
        -- right; right; auto.
    + apply precedes_cons_iff in H as [[-> Hb] | H]; auto.
Qed.

(** Stability: two elements of which the later is not smaller than the
    earlier come out in the order they went in. *)
Lemma sort_desc_stable (a b : A) (l : list A) :
  precedes a b (sort_desc ltb key l) ->
  ltb (key b) (key a) = false ->
  precedes a b l.
Proof.
  intros H Htie; induction l as [|x l IH]; simpl in H.
  - exfalso; eapply precedes_nil; eassumption.
  - apply precedes_insert_desc in H as [H | [[-> Hb] | (-> & _ & Hlt)]].
    + apply precedes_cons_iff; right; auto.
    + apply precedes_cons_iff; left; split; [reflexivity|].
      apply (proj1 (in_sort_desc b l)), Hb.
    + congruence.
Qed.

(** Sortedness, for keys among which [<] is asymmetric and [>=] is
    transitive through every key of the list. *)
Section Sorted.
Variable good : K -> Prop.
Hypothesis asym : forall a b, ltb a b = true -> ltb b a = false.
Hypothesis ge_trans : forall a b c,
  good b -> ltb a b = false -> ltb b c = false -> ltb a c = false.

Lemma insert_desc_sorted (x : A) (l : list A) :
  Forall (fun y => good (key y)) l ->
  StronglySorted (not_below ltb key) l ->
  StronglySorted (not_below ltb key) (insert_desc ltb key x l).
Proof.
  induction l as [|y l IH]; simpl; intros Hgood Hs.
  - repeat constructor.
  - inversion Hs as [|? ? Hs' Hall]; subst.
    inversion Hgood as [|? ? Hy Hgood']; subst.
    destruct (ltb (key x) (key y)) eqn:E.
    + constructor; [auto|].
      rewrite Forall_forall in *. intros z Hz.
      apply (proj1 (in_insert_desc x z l)) in Hz as [-> | Hz];
        [apply asym, E | auto].
    + constructor; [exact Hs|].
      constructor; [exact E|].
      rewrite Forall_forall in *. intros z Hz.
      eapply ge_trans; [exact Hy | exact E | apply Hall, Hz].
Qed.

Lemma sort_desc_sorted (l : list A) :
  Forall (fun y => good (key y)) l ->
  StronglySorted (not_below ltb key) (sort_desc ltb key l).
Proof.
  induction l as [|x l IH]; simpl; intros Hgood; [constructor|].
  inversion Hgood; subst.
  apply insert_desc_sorted; [|auto].
  rewrite Forall_forall in *. intros y Hy.
  apply (proj1 (in_sort_desc y l)) in Hy; auto.
Qed.

End Sorted.

End SortFacts.

(** * Facts about [score] *)

Section ScoreFacts.
Context {L : Lib} {float : Type} {FA : FloatArith float}.

(** The scores dictionary is the dictionary it started from followed by
    positive entries for some of the documents of [tf], in the order of
    [tf]. *)
Lemma score_docs_spec (self : Search.BM25Index float) (idf : dict float)
  (k1 b : float) (q_toks : list pystr) :
  forall (tf : dict (dict Z)) (scores r : dict float),
    Search.score_docs self idf k1 b q_toks tf scores = Ok r ->
    NoDup (keys scores ++ keys tf) ->
    exists added,
      r = scores ++ added
      /\ Forall positive_entry added
      /\ subseq (keys added) (keys tf).
Proof.
  induction tf as [|[pid freqs] tf IH]; intros scores r H Hnd; simpl in H.
  - inversion H; subst. exists []. rewrite app_nil_r.
    repeat split; constructor.
  - destruct (Search.doc_score self idf k1 b _ freqs q_toks (of_int 0))
      as [s|e] eqn:Es; simpl in H; [|discriminate].
    simpl in Hnd.
    destruct (fltb fzero s) eqn:Ep.
    + rewrite dict_set_absent in H.
      2:{ apply NoDup_remove_2 in Hnd. intros Hin; apply Hnd.
          apply in_or_app; left; exact Hin. }
      apply IH in H as (added & -> & Hpos & Hsub).
      * exists ((pid, s) :: added). rewrite <- app_assoc.
        repeat split; [constructor; assumption | constructor; assumption].
      * unfold keys in *. rewrite map_app, <- app_assoc. exact Hnd.
    + apply IH in H as (added & -> & Hpos & Hsub).
      * exists added. repeat split; [assumption | constructor; assumption].
      * apply NoDup_remove_1 in Hnd. exact Hnd.
Qed.

(** What [score] returns, when it returns: the first entries of the stably
    sorted scores dictionary, whose entries are positive and follow the
    order of [self.tf]. *)
Lemma score_shape (self : Search.BM25Index float) (query : pystr) (k1 b : float)
  (top_k : Z) (l : list (pystr * float)) :
  NoDup (keys (Search.self_tf self)) ->
  Search.score self query k1 b top_k = Ok l ->
  exists scores,
    l = slice_to top_k (sort_desc fltb snd scores)
    /\ Forall positive_entry scores
    /\ subseq (keys scores) (keys (Search.self_tf self)).
Proof.
  intros Hnd H. unfold Search.score in H.
  assert (Hempty : exists scores : list (pystr * float),
             [] = slice_to top_k (sort_desc fltb snd scores)
             /\ Forall positive_entry scores
             /\ subseq (keys scores) (keys (Search.self_tf self))).
  { exists []. simpl. rewrite slice_to_nil.
    repeat split; [constructor | apply subseq_nil_l]. }
  destruct (Search.query_tokens query) as [|t q_toks] eqn:Eq.
  - inversion H; subst. exact Hempty.
  - destruct (Search.self_N self =? 0).
    + inversion H; subst. exact Hempty.
    + destruct (Search.idf_table self _ []) as [idf|e]; simpl in H;
        [|discriminate].
      destruct (Search.score_docs self idf k1 b (t :: q_toks)
                  (Search.self_tf self) []) as [scores|e] eqn:Es;
        simpl in H; [|discriminate].
      apply score_docs_spec in Es as (added & -> & Hpos & Hsub);
        [|exact Hnd].
      inversion H; subst. exists added. auto.
Qed.

(** C3, as amended. The list [score] returns is sorted non-increasing by
    score, and entries with equal scores (the later one is not below the
    earlier one) stand in the order in which their documents were indexed,
    that is the order of the keys of [self.tf] (distinct, as the keys of a
    dict are); nothing orders them by document id. *)
Theorem score_sorted_stable `{FO : !FloatOrder} (self : Search.BM25Index float)
  (query : pystr) (k1 b : float) (top_k : Z) (l : list (pystr * float)) :
  NoDup (keys (Search.self_tf self)) ->
  Search.score self query k1 b top_k = Ok l ->
  StronglySorted score_not_below l
  /\ forall x y,
       precedes x y l ->
       fltb (snd y) (snd x) = false ->
       precedes (fst x) (fst y) (keys (Search.self_tf self)).
Proof.
  intros Hnd H.
  destruct (score_shape self query k1 b top_k l Hnd H)
    as (scores & -> & Hpos & Hsub).
  split.
  - unfold slice_to. destruct (0 <=? top_k); apply StronglySorted_firstn.
    all: apply (sort_desc_sorted fltb snd (fun s => fltb fzero s = true));
      [apply flt_asym | intros; eapply fge_trans; eassumption | exact Hpos].
  - intros x y Hp Htie.
    apply precedes_slice_to in Hp.
    apply sort_desc_stable in Hp; [|exact Htie].
    eapply precedes_subseq; [exact Hsub|].
    apply (precedes_map fst), Hp.
Qed.

(** ** Totality *)

Lemma truediv_ok (x y : float) :
  feqb y fzero = false -> truediv x y = Ok (fdiv x y).
Proof. unfold truediv; intros ->; reflexivity. Qed.

Section Sign.
Context `{FS : !FloatSign}.

Lemma term_score_ok (self : Search.BM25Index float) (k1 b : float) (dl f : Z)
  (idf_t : float) :
  exists v, Search.term_score self k1 b dl f idf_t = Ok v.
Proof.
  unfold Search.term_score.
  destruct (feqb (Search.self_avgdl self) fzero) eqn:Ea; simpl.
  - match goal with
    | |- context [feqb ?d fzero] => destruct (feqb d fzero) eqn:Ed
    end; simpl.
    + rewrite truediv_ok by apply one_nonzero. eauto.
    + rewrite truediv_ok by exact Ed. eauto.
  - rewrite (truediv_ok _ _ Ea). simpl.
    match goal with
    | |- context [feqb ?d fzero] => destruct (feqb d fzero) eqn:Ed
    end; simpl.
    + rewrite truediv_ok by apply one_nonzero. eauto.
    + rewrite truediv_ok by exact Ed. eauto.
Qed.

Lemma doc_score_ok (self : Search.BM25Index float) (idf : dict float)
  (k1 b : float) (dl : Z) (freqs : dict Z) (q_toks : list pystr) :
  forall score, exists v,
    Search.doc_score self idf k1 b dl freqs q_toks score = Ok v.
Proof.
  induction q_toks as [|t q_toks IH]; intros score; simpl; [eauto|].
  destruct (dict_find t idf) as [idf_t|]; [|apply IH].
  destruct (term_score_ok self k1 b dl (dict_get t 0 freqs) idf_t) as (v & ->).
  simpl. apply IH.
Qed.

Lemma score_docs_ok (self : Search.BM25Index float) (idf : dict float)
  (k1 b : float) (q_toks : list pystr) (tf : dict (dict Z)) :
  forall scores, exists r,
    Search.score_docs self idf k1 b q_toks tf scores = Ok r
    /\ (Forall positive_entry scores -> Forall positive_entry r).
Proof.
  induction tf as [|[pid freqs] tf IH]; intros scores; simpl; [eauto|].
  destruct (doc_score_ok self idf k1 b (dict_get pid 0 (Search.self_doc_len self))
              freqs q_toks (of_int 0)) as (s & ->).
  simpl. destruct (fltb fzero s) eqn:Ep.
  - destruct (IH (dict_set pid s scores)) as (r & -> & Hr).
    exists r; split; [reflexivity|]. intros Hpos. apply Hr.
    clear - Hpos Ep. induction scores as [|[k v] scores IHs]; simpl.
    + repeat constructor. exact Ep.
    + inversion Hpos; subst.
      destruct (str_eqb pid k); constructor; auto.
  - apply IH.
Qed.

(** The only exception [idf_of] can raise is the domain error of
    [math.log]. *)
Lemma idf_of_cases (self : Search.BM25Index float) (t : pystr) :
  (exists v, Search.idf_of self t = Ok v)
  \/ Search.idf_of self t = Raise ValueError.
Proof.
  unfold Search.idf_of.
  rewrite truediv_ok by apply int_plus_half_nonzero. simpl.
  unfold math_log. destruct (_ || _); eauto.
Qed.

Lemma idf_of_ok (self : Search.BM25Index float) (t : pystr) :
  index_ok self -> exists v, Search.idf_of self t = Ok v.
Proof.
  intros Hok. specialize (Hok t). unfold Search.idf_of.
  rewrite truediv_ok by apply int_plus_half_nonzero. simpl.
  unfold math_log.
  assert (Hpos : fltb fzero
            (fadd (of_int 1)
               (fdiv (fadd (of_int (Search.self_N self
                                    - dict_get t 0 (Search.self_df self))) f0_5)
                     (fadd (of_int (dict_get t 0 (Search.self_df self))) f0_5)))
          = true).
  { apply one_plus_ratio_pos; apply count_plus_half_pos; lia. }
  rewrite (fpos_not_neg _ Hpos), (fpos_nonzero _ Hpos). simpl. eauto.
Qed.

Lemma idf_table_cases (self : Search.BM25Index float) (ts : list pystr) :
  forall idf,
    (exists r, Search.idf_table self ts idf = Ok r)
    \/ Search.idf_table self ts idf = Raise ValueError.
Proof.
  induction ts as [|t ts IH]; intros idf; simpl; [eauto|].
  destruct (idf_of_cases self t) as [(v & ->) | ->]; simpl; auto.
Qed.

Lemma idf_table_ok (self : Search.BM25Index float) (ts : list pystr) :
  index_ok self ->
  forall idf, exists r, Search.idf_table self ts idf = Ok r.
Proof.
  intros Hok; induction ts as [|t ts IH]; intros idf; simpl; [eauto|].
  destruct (idf_of_ok self t Hok) as (v & ->); simpl. apply IH.
Qed.

Lemma len_slice_to {A : Type} (k : Z) (l : list A) :
  0 <= k -> len (slice_to k l) <= k.
Proof.
  intros Hk. unfold slice_to, len.
  destruct (0 <=? k) eqn:E; [|apply Z.leb_gt in E; lia].
  pose proof (firstn_le_length (Z.to_nat k) l). lia.
Qed.

Lemma Forall_slice_sort (scores : list (pystr * float)) (k : Z) :
  Forall positive_entry scores ->
  Forall positive_entry (slice_to k (sort_desc fltb snd scores)).
Proof.
  intros H. unfold slice_to. destruct (0 <=? k); apply Forall_firstn.
  all: rewrite Forall_forall in *; intros x Hx;
    apply (proj1 (in_sort_desc fltb snd x scores)) in Hx; auto.
Qed.

(** C10, as amended. On every index state [score] never raises a division
    by zero (a zero [avgdl] replaces the normalization term by [0], a zero
    denominator is replaced by [1]); and on every index state whose document
    frequencies lie between [0] and [N], for every query and every
    [top_k >= 0], [score] returns a list of at most [top_k] entries, each
    with a strictly positive score. *)
Theorem score_total :
  (forall (self : Search.BM25Index float) (query : pystr) (k1 b : float) (top_k : Z),
      (exists l, Search.score self query k1 b top_k = Ok l)
      \/ Search.score self query k1 b top_k = Raise ValueError)
  /\ (forall (self : Search.BM25Index float) (query : pystr) (k1 b : float)
        (top_k : Z),
      index_ok self -> 0 <= top_k ->
      exists l,
        Search.score self query k1 b top_k = Ok l
        /\ len l <= top_k
        /\ Forall positive_entry l).
Proof.
  split.
  - intros self query k1 b top_k. unfold Search.score.
    destruct (Search.query_tokens query) as [|t q_toks]; [eauto|].
    destruct (Search.self_N self =? 0); [eauto|].
    destruct (idf_table_cases self (Search.set_of (t :: q_toks)) [])
      as [(idf & ->) | ->]; simpl; [|auto].
    destruct (score_docs_ok self idf k1 b (t :: q_toks) (Search.self_tf self) [])
      as (r & -> & _).
    simpl. eauto.
  - intros self query k1 b top_k Hok Hk. unfold Search.score.
    destruct (Search.query_tokens query) as [|t q_toks].
    { exists []. repeat split; [unfold len; simpl; lia | constructor]. }
    destruct (Search.self_N self =? 0).
    { exists []. repeat split; [unfold len; simpl; lia | constructor]. }
    destruct (idf_table_ok self (Search.set_of (t :: q_toks)) Hok [])
      as (idf & ->). simpl.
    destruct (score_docs_ok self idf k1 b (t :: q_toks) (Search.self_tf self) [])
      as (r & -> & Hr).
    simpl. eexists; split; [reflexivity|]. split.
    + apply len_slice_to, Hk.
    + apply Forall_slice_sort, Hr. constructor.
Qed.

End Sign.

(** C7, as amended. [score] on an index that was never built or loaded
    returns the empty list, for every query; it raises nothing. The callers
    go through [get_index]: the first call loads the index from its file,
    or builds it from the directory when there is no file, and keeps it in
    [_global_index]; later calls return the kept index. *)
Theorem score_before_build_is_empty :
  (forall (query : pystr) (k1 b : float) (top_k : Z),
      Search.score Search.init query k1 b top_k = Ok [])
  /\ (forall env,
        Search.global_index env = None ->
        let idx := match Search.index_file env with
                   | Some data => data
                   | None => Search.build (Search.parsed_dir env) Search.init
                   end in
        fst (Search.get_index env) = idx
        /\ Search.global_index (snd (Search.get_index env)) = Some idx)
  /\ (forall env idx,
        Search.global_index env = Some idx ->
        Search.get_index env = (idx, env))
  /\ (forall query top_k env,
        Search.search query top_k env
        = (Search.score (fst (Search.get_index env)) query f1_5 f0_75 top_k,
           snd (Search.get_index env))).
Proof.
  split; [|split; [|split]].
  - intros query k1 b top_k. unfold Search.score.
    destruct (Search.query_tokens query); reflexivity.
  - intros env H. unfold Search.get_index, Search.load. rewrite H.
    destruct (Search.index_file env); split; reflexivity.
  - intros env idx H. unfold Search.get_index. rewrite H. reflexivity.
  - intros query top_k env. unfold Search.search.
    destruct (Search.get_index env); reflexivity.
Qed.

End ScoreFacts.

(** * The reference arithmetic satisfies the order and sign facts *)

Module ReferenceLaws.
Import Reference.
Local Open Scope Q_scope.

Lemma Qfltb_true (x y : Q) : fltb x y = true <-> x < y.
Proof.
  simpl. rewrite negb_true_iff. split.
  - intros H. apply Qnot_le_lt. intros Hle.
    apply Qle_bool_iff in Hle. congruence.
  - intros H. destruct (Qle_bool y x) eqn:E; [|reflexivity].
    apply Qle_bool_iff in E. exfalso. eapply Qlt_not_le; eassumption.
Qed.

Lemma Qfltb_false (x y : Q) : fltb x y = false <-> y <= x.
Proof.
  simpl. rewrite negb_false_iff. apply Qle_bool_iff.
Qed.

Lemma Qfeqb_false (x y : Q) : ~ x == y -> feqb x y = false.
Proof.
  intros H. simpl. destruct (Qeq_bool x y) eqn:E; [|reflexivity].
  apply Qeq_bool_iff in E. contradiction.
Qed.

#[export] Instance QFloatOrder : FloatOrder (FA := QFloat).
Proof.
  split.
  - intros x y H. apply Qfltb_true in H. apply Qfltb_false.
    apply Qlt_le_weak, H.
  - intros x y z _ Hxy Hyz.
    apply Qfltb_false in Hxy, Hyz. apply Qfltb_false.
    eapply Qle_trans; eassumption.
Qed.

Lemma Qfadd_correct (x y : Q) : @fadd Q QFloat x y == x + y.
Proof. apply Qred_correct. Qed.

Lemma Qf0_5_correct : @f0_5 Q QFloat == 1 # 2.
Proof. reflexivity. Qed.

#[export] Instance QFloatSign : FloatSign (FA := QFloat).
Proof.
  split.
  - intros x H. apply Qfltb_true in H. apply Qfeqb_false.
    intros E. rewrite E in H. revert H. apply Qlt_irrefl.
  - intros x H. apply Qfltb_true in H. apply Qfltb_false.
    apply Qlt_le_weak, H.
  - reflexivity.
  - intros n. apply Qfeqb_false.
    rewrite Qfadd_correct, Qf0_5_correct.
    change (of_int n) with (inject_Z n). change fzero with (inject_Z 0).
    unfold Qeq, Qplus, inject_Z; simpl. lia.
  - intros n Hn. apply Qfltb_true.
    rewrite Qfadd_correct, Qf0_5_correct.
    change (of_int n) with (inject_Z n). change fzero with (inject_Z 0).
    unfold Qlt, Qplus, inject_Z; simpl. lia.
  - intros x y Hx Hy. apply Qfltb_true in Hx, Hy. apply Qfltb_true.
    rewrite Qfadd_correct.
    change (@fdiv Q QFloat x y) with (Qred (x / y)). rewrite Qred_correct.
    change (of_int 1) with 1. change fzero with 0 in *.
    assert (0 < x / y) by (apply Qlt_shift_div_l; [assumption | lra]).
    lra.
Qed.

End ReferenceLaws.

(** * The index on the example data *)

Module SearchExamples.
Import Reference ReferenceLaws Examples.

Lemma NoDup_twin_tf : NoDup (keys (Search.self_tf twin_index)).
Proof.
  vm_compute. repeat constructor; simpl; intuition discriminate.
Qed.

(** C3, counterexample. Two documents with the same text get the same
    score; [b], which the directory lists first, comes out before [a],
    although ["a" < "b"]. *)
Lemma score_ties_not_by_id :
  exists s : Q,
    Search.score twin_index (lit "alpha") f1_5 f0_75 5
    = Ok [(lit "b", s); (lit "a", s)]
    /\ str_ltb (lit "a") (lit "b") = true.
Proof. eexists. split; vm_compute; reflexivity. Qed.

Lemma score_sorted_stable_witness :
  NoDup (keys (Search.self_tf twin_index))
  /\ Search.score twin_index (lit "alpha") f1_5 f0_75 5 = Ok twin_scores
  /\ StronglySorted score_not_below twin_scores
  /\ forall x y,
       precedes x y twin_scores ->
       fltb (snd y) (snd x) = false ->
       precedes (fst x) (fst y) (keys (Search.self_tf twin_index)).
Proof.
  split; [exact NoDup_twin_tf|].
  split; [vm_compute; reflexivity|].
  apply (score_sorted_stable twin_index (lit "alpha") f1_5 f0_75 5 twin_scores
           NoDup_twin_tf).
  vm_compute; reflexivity.
Defined.

(** C7, counterexample. On an index that was never built or loaded [score]
    returns the empty list: no Index-Not-Ready condition is raised. *)
Lemma score_on_fresh_index_returns :
  Search.score Search.init (lit "alpha") f1_5 f0_75 5 = Ok [].
Proof. vm_compute; reflexivity. Qed.

(** C10, counterexample. With the negative document count of a damaged
    index file [score] fails in [math.log]; and with [top_k = -1] it returns
    all entries but the last, here one entry, which is more than [top_k]. *)
Lemma score_partial_and_over_top_k :
  Search.score damaged_index (lit "alpha") f1_5 f0_75 5 = Raise ValueError
  /\ exists l,
       Search.score twin_index (lit "alpha") f1_5 f0_75 (-1) = Ok l
       /\ len l = 1 /\ -1 < len l.
Proof.
  split; [vm_compute; reflexivity|].
  eexists. split; [vm_compute; reflexivity|]. split; reflexivity.
Qed.

(** The guards of [score] at work: an index built from no document, an
    index built from a document without tokens ([avgdl = 0]), and an index
    state with [avgdl = 0] and a matching document. *)
Example score_on_degenerate_indexes :
  Search.score (Search.build [] Search.init) (lit "alpha") f1_5 f0_75 5 = Ok []
  /\ Search.self_avgdl (Search.build blank_dir Search.init) = 0%Q
  /\ Search.score (Search.build blank_dir Search.init) (lit "alpha") f1_5 f0_75 5
     = Ok []
  /\ exists s : Q,
       Search.score zero_avgdl_index (lit "alpha") f1_5 f0_75 5
       = Ok [(lit "d", s)]
       /\ fltb fzero s = true.
Proof.
  repeat split; try (vm_compute; reflexivity).
  eexists; split; vm_compute; reflexivity.
Qed.

Lemma score_total_witness :
  index_ok twin_index
  /\ 0 <= 1
  /\ exists l,
       Search.score twin_index (lit "alpha") f1_5 f0_75 1 = Ok l
       /\ len l <= 1
       /\ Forall positive_entry l.
Proof.
  split; [apply build_index_ok|].
  split; [lia|].
  apply (proj2 score_total twin_index (lit "alpha") f1_5 f0_75 1).
  - apply build_index_ok.
  - lia.
Defined.

(** C5, at a failing input. Building the index of [twin_dir] a second time
    leaves [N], [avgdl] and [doc_len] as they were and doubles [df]: the
    term [alpha], which occurs in two documents, gets the frequency 4. *)
Theorem build_twice_changes_df :
  let once := Search.build twin_dir Search.init in
  let twice := Search.build twin_dir once in
  Search.self_N twice = Search.self_N once
  /\ Search.self_avgdl twice = Search.self_avgdl once
  /\ Search.self_doc_len twice = Search.self_doc_len once
  /\ dict_get (lit "alpha") 0 (Search.self_df once) = 2
  /\ dict_get (lit "alpha") 0 (Search.self_df twice) = 4.
Proof. vm_compute. repeat split; reflexivity. Qed.

End SearchExamples.

(** * Facts about the tiers of [chat] *)

Section TierFacts.
Context {L : Lib} {float : Type} {FA : FloatArith float}.

(** Whatever the directory holds, the body of the first loop ends in an
    exception: the file cannot be read, or [SYNONYMS] is not bound. *)
Lemma tier1_doc_raises (dir : store) (ql post_id : pystr) :
  exists e, Api.tier1_doc (float := float) dir ql post_id = Raise e.
Proof.
  unfold Api.tier1_doc.
  destruct (Api.read_post dir post_id) as [parsed|e]; simpl; eauto.
Qed.

Lemma for_posts_extends (body : pystr -> result (list (Api.Cand float)))
  (idx : dict Api.Meta) :
  forall candidates,
    exists added, Api.for_posts body idx candidates = candidates ++ added.
Proof.
  unfold Api.for_posts.
  induction idx as [|[post_id meta] idx IH]; intros candidates; simpl.
  - exists []. rewrite app_nil_r; reflexivity.
  - destruct (body post_id) as [added|e].
    + destruct (IH (candidates ++ added)) as (added' & ->).
      exists (added ++ added'). rewrite app_assoc; reflexivity.
    + apply IH.
Qed.

Lemma for_posts_raising (body : pystr -> result (list (Api.Cand float)))
  (idx : dict Api.Meta) (candidates : list (Api.Cand float)) :
  (forall post_id, exists e, body post_id = Raise e) ->
  Api.for_posts body idx candidates = candidates.
Proof.
  intros Hbody. unfold Api.for_posts.
  induction idx as [|[post_id meta] idx IH]; simpl; [reflexivity|].
  destruct (Hbody post_id) as (e & ->). exact IH.
Qed.

(** The first tier never produces a candidate. *)
Lemma tier1_empty (dir : store) (idx : dict Api.Meta) (ql : pystr) :
  Api.tier1 (float := float) dir idx ql = [].
Proof.
  unfold Api.tier1. apply for_posts_raising. apply tier1_doc_raises.
Qed.

(** Tiers 2 and 3 append to the candidate list. *)
Lemma tier2_extends (dir : store) (idx : dict Api.Meta) (ql : pystr)
  (candidates : list (Api.Cand float)) :
  exists added, Api.tier2 dir idx ql candidates = candidates ++ added.
Proof.
  unfold Api.tier2. destruct candidates as [|c cs].
  - apply for_posts_extends.
  - exists []. rewrite app_nil_r; reflexivity.
Qed.

Lemma tier3_extends (dir : store) (idx : dict Api.Meta) (ql : pystr)
  (candidates : list (Api.Cand float)) :
  exists added, Api.tier3 dir idx ql candidates = candidates ++ added.
Proof.
  unfold Api.tier3. destruct (existsb _ Api.who_markers).
  - apply for_posts_extends.
  - exists []. rewrite app_nil_r; reflexivity.
Qed.

Lemma tier4_item_id (dir : store) (pid : pystr) (score : float) (c : Api.Cand float) :
  Api.tier4_item dir pid score = Ok c -> Api.c_post_id c = Api.IdStr pid.
Proof.
  unfold Api.tier4_item.
  destruct (Api.read_post dir pid); simpl; intros H; inversion H; reflexivity.
Qed.

Lemma existsb_id_absent (pid : pystr) (chosen : list (Api.Cand float)) :
  existsb (fun c => Api.id_eqb (Api.IdStr pid) (Api.c_post_id c)) chosen = false ->
  ~ In (Api.IdStr pid) (map Api.c_post_id chosen).
Proof.
  intros H Hin. apply in_map_iff in Hin as (c & Hc & Hin).
  assert (existsb (fun c => Api.id_eqb (Api.IdStr pid) (Api.c_post_id c)) chosen
          = true); [|congruence].
  apply existsb_exists. exists c; split; [assumption|].
  rewrite Hc. simpl. apply str_eqb_refl.
Qed.

(** The fourth tier appends to [chosen], and only posts whose id is not in
    the list yet, each once. *)
Lemma tier4_loop_adds_absent (dir : store) (bm : list (pystr * float)) :
  forall chosen,
    exists added,
      Api.tier4_loop dir bm chosen = chosen ++ added
      /\ (forall c, In c added ->
                    ~ In (Api.c_post_id c) (map Api.c_post_id chosen))
      /\ NoDup (map Api.c_post_id added).
Proof.
  induction bm as [|[pid score] bm IH]; intros chosen; simpl.
  - exists []. rewrite app_nil_r. repeat split; [intros c [] | constructor].
  - destruct (existsb _ chosen) eqn:E; [apply IH|].
    destruct (Api.tier4_item dir pid score) as [c|e] eqn:Ec; [|apply IH].
    destruct (IH (chosen ++ [c])) as (added & -> & Hnew & Hnd).
    exists (c :: added). rewrite <- app_assoc. split; [reflexivity|].
    apply tier4_item_id in Ec. apply existsb_id_absent in E.
    split.
    + intros c' [<- | Hc'].
      * rewrite Ec. exact E.
      * intros Hin. apply (Hnew c' Hc').
        rewrite map_app. apply in_or_app; left; exact Hin.
    + simpl. constructor; [|exact Hnd].
      intros Hin. apply in_map_iff in Hin as (c' & Hid & Hc').
      apply (Hnew c' Hc'). rewrite map_app. apply in_or_app; right.
      simpl. left. symmetry; exact Hid.
Qed.

Lemma tier4_adds_absent (q : pystr) (top_k : Z) (chosen : list (Api.Cand float))
  (e : Search.Env float) :
  exists added,
    fst (Api.tier4 q top_k chosen e) = chosen ++ added
    /\ (forall c, In c added ->
                  ~ In (Api.c_post_id c) (map Api.c_post_id chosen))
    /\ NoDup (map Api.c_post_id added).
Proof.
  assert (Hnone : exists added : list (Api.Cand float),
             chosen = chosen ++ added
             /\ (forall c, In c added ->
                           ~ In (Api.c_post_id c) (map Api.c_post_id chosen))
             /\ NoDup (map Api.c_post_id added)).
  { exists []. rewrite app_nil_r. repeat split; [intros c [] | constructor]. }
  unfold Api.tier4. destruct (len chosen <? top_k); [|exact Hnone].
  destruct (Search.search q (top_k - len chosen) e) as [[bm|err] e']; simpl;
    [apply tier4_loop_adds_absent | exact Hnone].
Qed.

Lemma tier5_loop_extends (dir : store) (bm : list (pystr * float)) :
  forall chosen,
    exists added, Api.tier5_loop dir bm chosen = chosen ++ added.
Proof.
  induction bm as [|[score pid] bm IH]; intros chosen; simpl.
  - exists []. rewrite app_nil_r; reflexivity.
  - destruct (Api.tier5_item dir score pid) as [c|e]; [|apply IH].
    destruct (IH (chosen ++ [c])) as (added & ->).
    exists (c :: added). rewrite <- app_assoc; reflexivity.
Qed.

(** In the fifth tier a candidate is made only from a file that is named
    after the BM25 score of an item; when the directory holds no such file
    the tier adds nothing. *)
Lemma tier5_loop_without_score_files (dir : store) (bm : list (pystr * float))
  (chosen : list (Api.Cand float)) :
  (forall x e, In (e, x) bm ->
               exists err, Api.read_post dir (float_repr x) = Raise err) ->
  Api.tier5_loop dir bm chosen = chosen.
Proof.
  revert chosen; induction bm as [|[score pid] bm IH]; intros chosen H; simpl;
    [reflexivity|].
  unfold Api.tier5_item.
  destruct (H pid score (or_introl eq_refl)) as (err & ->). simpl.
  apply IH. intros x e Hin. apply (H x e). right; exact Hin.
Qed.

End TierFacts.

(** * Facts about the source list *)

Section SourceFacts.
Context {L : Lib} {float : Type} {FA : FloatArith float}.

Lemma dedupe_subseq (sources : list (Api.Source float)) :
  forall seen, subseq (Api.dedupe seen sources) sources.
Proof.
  induction sources as [|s rest IH]; intros seen; cbn [Api.dedupe];
    [constructor|].
  destruct (Api.s_url s) as [[|c u]|]; try (constructor; apply IH).
  destruct (existsb (str_eqb (c :: u)) seen); constructor; apply IH.
Qed.

(** Every source that is kept has a non-empty url that was not seen
    before, and no url is kept twice. *)
Lemma dedupe_urls (sources : list (Api.Source float)) :
  forall seen,
    Forall (fun s => exists u, Api.s_url s = Some u /\ u <> []
                               /\ ~ In u seen)
           (Api.dedupe seen sources)
    /\ NoDup (map Api.s_url (Api.dedupe seen sources)).
Proof.
  induction sources as [|s rest IH]; intros seen; cbn [Api.dedupe].
  - split; constructor.
  - destruct (Api.s_url s) as [[|c u]|] eqn:Eu; try apply IH.
    destruct (existsb (str_eqb (c :: u)) seen) eqn:Es; [apply IH|].
    destruct (IH ((c :: u) :: seen)) as (Hall & Hnd).
    split.
    + constructor.
      * exists (c :: u). repeat split; [assumption | discriminate |].
        intros Hin. apply existsb_str_eqb in Hin. congruence.
      * eapply Forall_impl; [|exact Hall].
        intros s' (v & Hv & Hne & Hnot). exists v. repeat split; auto.
        intros Hin. apply Hnot. right; exact Hin.
    + cbn [map]. constructor; [|exact Hnd].
      rewrite Eu. intros Hin. apply in_map_iff in Hin as (s' & Hs' & Hin).
      rewrite Forall_forall in Hall.
      destruct (Hall s' Hin) as (v & Hv & _ & Hnot).
      apply Hnot. left. congruence.
Qed.

(** For a non-empty url that was not seen before, the source kept for it is
    the first source of the list that carries it. *)
Lemma dedupe_first (u : pystr) (sources : list (Api.Source float)) :
  u <> [] ->
  forall seen,
    find (has_url u) (Api.dedupe seen sources)
    = if existsb (str_eqb u) seen then None else find (has_url u) sources.
Proof.
  intros Hu. induction sources as [|s rest IH]; intros seen;
    cbn [Api.dedupe find].
  - destruct (existsb (str_eqb u) seen); reflexivity.
  - unfold has_url at 2.
    destruct (Api.s_url s) as [[|c v]|] eqn:Ev.
    + rewrite IH. replace (str_eqb u []) with false; [reflexivity|].
      symmetry; apply str_eqb_neq; exact Hu.
    + destruct (existsb (str_eqb (c :: v)) seen) eqn:Es.
      * rewrite IH. destruct (str_eqb u (c :: v)) eqn:E; [|reflexivity].
        apply str_eqb_eq in E; subst u. rewrite Es; reflexivity.
      * cbn [find]. unfold has_url at 1. rewrite Ev.
        destruct (str_eqb u (c :: v)) eqn:E.
        -- apply str_eqb_eq in E; subst u. rewrite Es; reflexivity.
        -- rewrite IH. cbn [existsb]. rewrite E. reflexivity.
    + rewrite IH. reflexivity.
Qed.

(** C8. The source list built from the chosen candidates keeps their rank
    order; every source in it has a non-empty url; no two of its sources
    have the same url; for every non-empty url, the source it holds for
    that url is the first (highest-ranked) one of the candidates' sources;
    and the display list is its first two entries at most, while the list
    itself stays whole. *)
Theorem sources_deduplicated (idx : dict Api.Meta) (q : pystr)
  (chosen : list (Api.Cand float)) :
  let all := map (Api.source_of idx q) chosen in
  let sources := Api.sources_of idx q chosen in
  let display := Api.display_sources_of sources in
  subseq sources all
  /\ Forall (fun s => truthy (Api.s_url s) = true) sources
  /\ NoDup (map Api.s_url sources)
  /\ (forall u, u <> [] -> find (has_url u) sources = find (has_url u) all)
  /\ display = firstn 2 sources
  /\ (length display <= 2)%nat.
Proof.
  cbv zeta. unfold Api.sources_of.
  destruct (dedupe_urls (map (Api.source_of idx q) chosen) []) as (Hall & Hnd).
  split; [apply dedupe_subseq|].
  split.
  { eapply Forall_impl; [|exact Hall].
    intros s (u & -> & Hne & _). destruct u; [congruence | reflexivity]. }
  split; [exact Hnd|].
  split.
  { intros u Hu. rewrite (dedupe_first u _ Hu []). reflexivity. }
  split; [reflexivity|].
  change (Api.display_sources_of
            (Api.dedupe [] (map (Api.source_of idx q) chosen)))
    with (firstn 2 (Api.dedupe [] (map (Api.source_of idx q) chosen))).
  apply firstn_le_length.
Qed.

End SourceFacts.

(** * Facts about the rule-based answer *)

Section AnswerFacts.
Context {L : Lib} {float : Type} {FA : FloatArith float}.

Lemma startswith_incl (p s : pystr) (c : char) :
  startswith p s = true -> In c p -> In c s.
Proof.
  revert s; induction p as [|x p IH]; intros [|y s]; simpl; try tauto;
    try discriminate.
  rewrite andb_true_iff, N.eqb_eq. intros [-> H] [<- | Hc]; auto.
Qed.

Lemma in_skipn {A : Type} (x : A) (n : nat) (l : list A) :
  In x (skipn n l) -> In x l.
Proof.
  intros H. rewrite <- (firstn_skipn n l). apply in_or_app; right; exact H.
Qed.

Lemma match_url_tail_backslash (s : pystr) (n : nat) :
  Api.match_url_tail s = Some n -> In Api.BACKSLASH s.
Proof.
  unfold Api.match_url_tail.
  destruct (startswith _ s) eqn:E; [|discriminate]. intros _.
  eapply startswith_incl; [exact E|]. simpl; auto.
Qed.

(** The pattern of line 313 only matches where the text holds a backslash. *)
Lemma match_url_pattern_backslash (s : pystr) (n : nat) :
  Api.match_url_pattern s = Some n -> In Api.BACKSLASH s.
Proof.
  unfold Api.match_url_pattern.
  destruct (startswith (lit "http") s); [|discriminate].
  assert (Hw : forall m, option_map (Nat.add 4)
                           (Api.match_url_tail (skipn 4 s)) = Some m ->
                         In Api.BACKSLASH s).
  { intros m H. destruct (Api.match_url_tail (skipn 4 s)) eqn:E;
      [|discriminate].
    apply match_url_tail_backslash in E. eapply in_skipn; exact E. }
  destruct (skipn 4 s) as [|c r'] eqn:Er; [apply Hw|].
  destruct (N.eqb c Api.SMALL_S); [|apply Hw].
  destruct (Api.match_url_tail r') eqn:E; [|apply Hw].
  intros _. apply match_url_tail_backslash in E.
  apply (in_skipn _ 4). rewrite Er. right; exact E.
Qed.

(** So a text without a backslash, such as a text with ordinary links, goes
    through the substitution unchanged. *)
Lemma sub_url_pattern_unchanged (s : pystr) :
  ~ In Api.BACKSLASH s -> Api.sub_url_pattern 0 s = s.
Proof.
  induction s as [|c s IH]; intros H; [reflexivity|].
  cbn [Api.sub_url_pattern].
  destruct (Api.match_url_pattern (c :: s)) as [[|n]|] eqn:E.
  - f_equal. apply IH. intros Hin; apply H; right; exact Hin.
  - exfalso. apply H. eapply match_url_pattern_backslash; exact E.
  - f_equal. apply IH. intros Hin; apply H; right; exact Hin.
Qed.

(** The answer of [chat] when candidates were chosen and no API key is set:
    the parts [[title] excerpt] joined by blank lines, passed through the
    substitution, with the display sources and [llm = False]. *)
Lemma chat_rule_based (req : Api.ChatRequest) (w : Api.World float) :
  Api.strip (Api.question req) <> [] ->
  truthy (Api.OPENAI_API_KEY w) = false ->
  fst (Api.retrieve (Api.strip (Api.question req)) (Api.top_k req) w) <> [] ->
  let q := Api.strip (Api.question req) in
  let chosen := fst (Api.retrieve q (Api.top_k req) w) in
  fst (Api.chat req w)
  = Api.Reply
      (Api.sub_url_pattern 0
         (join [NEWLINE; NEWLINE] (map (Api.answer_part q) chosen)))
      (Api.display_sources_of (Api.sources_of (Api.index_json w) q chosen))
      false.
Proof.
  intros Hq Hkey Hchosen. cbv zeta. unfold Api.chat.
  destruct (Api.strip (Api.question req)) as [|c q] eqn:Eq; [congruence|].
  destruct (Api.retrieve (c :: q) (Api.top_k req) w) as [chosen w'] eqn:Er.
  simpl in Hchosen |- *.
  destruct chosen as [|c0 chosen]; [congruence|].
  cbn [map].
  assert (Hk : Api.OPENAI_API_KEY w' = Api.OPENAI_API_KEY w).
  { unfold Api.retrieve in Er.
    destruct (Api.tier4 _ _ _ _) as [ch4 e4].
    destruct (Api.tier5 _ _ _ _) as [ch5 e5].
    inversion Er; reflexivity. }
  rewrite Hk, Hkey. reflexivity.
Qed.

End AnswerFacts.

(** * The chat endpoint on the example data *)

Module ApiExamples.
Import Reference ReferenceLaws Examples.

(** C1, at a failing input. The notice [A] of the specification's scenario
    matches the query [휴학]: the score of the claim is
    [3*1 + 1 + 2 + 1 = 7] with the synonym table of [search]. In [chat] the
    name [SYNONYMS] is not bound, so the body of the loop raises [NameError]
    for this notice, as for every notice that can be read, and the first
    tier has no candidate. *)
Theorem tier1_skips_matching_notice :
  let ql := lit "휴학" in
  let title := lit "휴학 신청 방법" in
  let content := lit "휴학은 학과 사무실에서 신청합니다." in
  Api.read_post leave_dir (lit "A") = Ok (post "휴학 신청 방법" "휴학은 학과 사무실에서 신청합니다.")
  /\ Api.add_tokens ql title content
       (Api.add_synonyms Api.SYNONYMS ql title content
          (count ql (lower title) * 3 + count ql (lower content))) = 7
  /\ Api.tier1_doc (float := Q) leave_dir ql (lit "A") = Raise NameError
  /\ Api.tier1 (float := Q) leave_dir leave_idx ql = [].
Proof. vm_compute. repeat split; reflexivity. Qed.

(** C2, at a failing input. For the question [김교수 누구] the second tier
    makes the notice [S] a candidate, and the third tier appends [S] two
    more times (once for the title, once for the body) although it is in
    the list; the chosen list holds [S] three times. *)
Theorem tier3_adds_present_post :
  let ql := lit "김교수 누구" in
  let entry (c : Api.Cand Q) := (Api.c_score c, Api.c_post_id c) in
  let S := Api.IdStr (lit "S") in
  map entry (Api.candidates_after 2 seminar_world ql) = [(Api.NumInt 1, S)]
  /\ map entry (Api.candidates_after 3 seminar_world ql)
     = [(Api.NumInt 1, S); (Api.NumInt 2, S); (Api.NumInt 1, S)]
  /\ map entry (fst (Api.retrieve ql 5 seminar_world))
     = [(Api.NumInt 2, S); (Api.NumInt 1, S); (Api.NumInt 1, S)].
Proof. vm_compute. repeat split; reflexivity. Qed.

(** C4, at a failing input. For the question [휴학] with [top_k = -1] no
    candidate is chosen by the first four tiers; the index answers with the
    notice [A], which can be read; the fifth tier takes the id [A] for the
    score and the score for the id, finds no file of that name, and adds
    nothing; the response is the not-found answer. *)
Theorem tier5_takes_score_for_id :
  let q := lit "휴학" in
  let e := Api.env leave2_world in
  exists s : Q,
    fst (Api.tier4 q (-1) (Api.choose (-1) (Api.candidates_after 3 leave2_world q)) e)
    = []
    /\ fst (Search.search q (-1) e) = Ok [(lit "A", s)]
    /\ (exists parsed, Api.read_post leave2_dir (lit "A") = Ok parsed)
    /\ Api.tier5_item leave2_dir (lit "A") s = Raise OSError
    /\ fst (Api.retrieve q (-1) leave2_world) = []
    /\ fst (Api.chat {| Api.question := q; Api.top_k := -1 |} leave2_world)
       = Api.Reply Api.not_found [] false.
Proof.
  eexists. split; [vm_compute; reflexivity|].
  split; [vm_compute; reflexivity|].
  split; [eexists; vm_compute; reflexivity|].
  repeat split; vm_compute; reflexivity.
Qed.

(** C9, at a failing input. No API key is set; the notice [P] quotes the
    link [http://a.kr/x] in its body; the answer of [chat] to the question
    [장학금 신청] is the part [[title] excerpt] with the link still in it,
    returned with [llm = False]. *)
Theorem rule_based_answer_keeps_link :
  let req := {| Api.question := lit "장학금 신청"; Api.top_k := 5 |} in
  let answer := lit "[장학금 안내] 장학금 신청은 http://a.kr/x 에서 합니다." in
  Api.OPENAI_API_KEY link_world = None
  /\ (exists sources, fst (Api.chat req link_world) = Api.Reply answer sources false)
  /\ contains (lit "http://a.kr/x") answer = true.
Proof.
  split; [reflexivity|].
  split; [eexists; vm_compute; reflexivity | vm_compute; reflexivity].
Qed.

End ApiExamples.

(** * Further properties of search.py *)

Section TokenizerFacts.
Context {L : Lib}.

Lemma add_stripped_subseq (ws : list pystr) :
  subseq ws (Search.add_stripped ws).
Proof.
  induction ws as [|w ws IH]; simpl; [constructor|].
  destruct (_ && _); repeat constructor; exact IH.
Qed.

Lemma add_stripped_len (ws : list pystr) :
  len ws <= len (Search.add_stripped ws) <= 2 * len ws.
Proof.
  induction ws as [|w ws IH]; cbn [Search.add_stripped];
    [unfold len; simpl; lia|].
  destruct (_ && _); rewrite !len_cons; lia.
Qed.

Lemma add_stripped_in (t : pystr) (ws : list pystr) :
  In t (Search.add_stripped ws) ->
  exists w, In w ws
            /\ (t = w \/ (t = removelast w /\ 2 < len w
                          /\ Search.ends_in_particle w = true)).
Proof.
  induction ws as [|w ws IH]; simpl; [tauto|].
  destruct (2 <? len w) eqn:E1; destruct (Search.ends_in_particle w) eqn:E2;
    simpl; intros H.
  - apply Z.ltb_lt in E1.
    destruct H as [<- | [<- | H]]; [exists w; auto | exists w; auto |].
    destruct (IH H) as (w' & Hw' & Ht). exists w'; auto.
  - destruct H as [<- | H]; [exists w; auto|].
    destruct (IH H) as (w' & Hw' & Ht). exists w'; auto.
  - destruct H as [<- | H]; [exists w; auto|].
    destruct (IH H) as (w' & Hw' & Ht). exists w'; auto.
  - destruct H as [<- | H]; [exists w; auto|].
    destruct (IH H) as (w' & Hw' & Ht). exists w'; auto.
Qed.

(** X1. [tokenize] keeps every word of the text, lowercased and in order;
    what it adds is, for a word of more than two characters that ends in a
    particle, that word without its last character; so it returns between
    one and two tokens per word. *)
Theorem tokenize_keeps_words (text : pystr) :
  let words := map lower (Search.findall_words [] text) in
  subseq words (Search.tokenize text)
  /\ len words <= len (Search.tokenize text) <= 2 * len words
  /\ forall t, In t (Search.tokenize text) ->
       exists w, In w words
                 /\ (t = w \/ (t = removelast w /\ 2 < len w
                               /\ Search.ends_in_particle w = true)).
Proof.
  cbv zeta. unfold Search.tokenize. destruct text as [|c text].
  - simpl. split; [constructor|]. split; [unfold len; simpl; lia|].
    intros t [].
  - split; [apply add_stripped_subseq|].
    split; [apply add_stripped_len | intros t; apply add_stripped_in].
Qed.

Lemma sub_tags_without_lt (s : pystr) :
  ~ In LT s -> Search.sub_tags None s = s.
Proof.
  induction s as [|c s IH]; simpl; intros H; [reflexivity|].
  destruct (N.eqb c LT) eqn:E.
  - apply N.eqb_eq in E. exfalso; apply H; auto.
  - f_equal. apply IH. intros Hin; apply H; auto.
Qed.

Lemma sub_tags_len (s : pystr) :
  forall pending,
    len (Search.sub_tags pending s)
    <= len s + match pending with
               | None => 0
               | Some buf => 1 + len buf
               end.
Proof.
  induction s as [|c s IH]; intros [buf|]; cbn [Search.sub_tags].
  - rewrite !len_cons. unfold len; cbn [length]; lia.
  - unfold len; cbn [length]; lia.
  - rewrite len_cons. destruct (N.eqb c GT).
    + specialize (IH None). cbv beta iota in IH.
      destruct buf as [|x buf]; rewrite !len_cons; unfold len at 3;
        cbn [length]; lia.
    + specialize (IH (Some (buf ++ [c]))). cbv beta iota in IH.
      unfold len in *. rewrite length_app in IH. cbn [length] in IH. lia.
  - rewrite len_cons. destruct (N.eqb c LT).
    + specialize (IH (Some [])). cbv beta iota in IH.
      unfold len in *; cbn [length] in IH; lia.
    + rewrite !len_cons. specialize (IH None). cbv beta iota in IH. lia.
Qed.

(** X2. Removing the markup from a body never makes it longer, and a body
    without ['<'] is indexed as it is: the text of such a document is its
    title, body and OCR text joined by single spaces. *)
Theorem doc_text_markup (parsed : Parsed) :
  len (Search.sub_tags None (or_empty (p_content parsed)))
  <= len (or_empty (p_content parsed))
  /\ (~ In LT (or_empty (p_content parsed)) ->
      Search.doc_text parsed
      = or_empty (p_title parsed) ++ [SPACE] ++ or_empty (p_content parsed)
        ++ [SPACE] ++ or_empty (p_ocr_text parsed)).
Proof.
  split.
  - pose proof (sub_tags_len (or_empty (p_content parsed)) None) as H.
    simpl in H. lia.
  - intros H. unfold Search.doc_text. rewrite sub_tags_without_lt by exact H.
    reflexivity.
Qed.

Lemma sum_values_dict_set (k : pystr) (v : Z) (d : dict Z) :
  sum_Z (map snd (dict_set k v d)) = sum_Z (map snd d) + v - dict_get k 0 d.
Proof.
  unfold dict_get. induction d as [|[k' v'] d IH]; simpl; [lia|].
  destruct (str_eqb k k'); simpl; lia.
Qed.

Lemma sum_values_incr_all (ks : list pystr) :
  forall d,
    sum_Z (map snd (fold_left (fun d k => dict_incr k d) ks d))
    = sum_Z (map snd d) + len ks.
Proof.
  induction ks as [|k ks IH]; intros d; simpl; [unfold len; simpl; lia|].
  rewrite IH. unfold dict_incr. rewrite sum_values_dict_set, len_cons. lia.
Qed.

(** X3. The term frequencies of a document: every token of the document is
    a key, once; the frequency of a term is the number of times it stands
    among the tokens ([0] for a term that does not); and the frequencies add
    up to the number of tokens, the document length. *)
Theorem count_tokens_frequencies (toks : list pystr) :
  NoDup (keys (Search.count_tokens toks))
  /\ (forall t, In t (keys (Search.count_tokens toks)) <-> In t toks)
  /\ (forall t, dict_get t 0 (Search.count_tokens toks) = occurrences t toks)
  /\ sum_Z (map snd (Search.count_tokens toks)) = len toks.
Proof.
  split; [apply NoDup_keys_count_tokens|].
  split; [intros t; apply in_keys_count_tokens|].
  split.
  - intros t. unfold Search.count_tokens. rewrite dict_get_incr_all.
    unfold dict_get, occurrences; simpl. lia.
  - unfold Search.count_tokens. rewrite sum_values_incr_all. simpl. lia.
Qed.

End TokenizerFacts.

Section IndexFacts.
Context {L : Lib} {float : Type} {FA : FloatArith float}.

Lemma build_loop_index_docs (files : store) :
  forall (N total_len : Z) (self : Search.BM25Index float),
    Search.build_loop files N total_len self
    = index_docs (readable files) N total_len self.
Proof.
  induction files as [|[fname [parsed|]] files IH]; intros N total_len self.
  - reflexivity.
  - apply IH.
  - apply IH.
Qed.

(** X4. [build] reads the readable [*.json] files only: two directories
    with the same readable JSON documents, whatever else they hold, give the
    same index. *)
Theorem build_reads_documents_only (dir1 dir2 : store)
  (self : Search.BM25Index float) :
  indexed dir1 = indexed dir2 ->
  Search.build dir1 self = Search.build dir2 self.
Proof.
  intros H. unfold Search.build. rewrite !build_loop_index_docs.
  fold (indexed dir1). fold (indexed dir2). rewrite H. reflexivity.
Qed.

Lemma fold_dict_set_fresh {X V : Type} (k : X -> pystr) (v : X -> V)
  (xs : list X) :
  forall d : dict V,
    NoDup (keys d ++ map k xs) ->
    fold_left (fun d x => dict_set (k x) (v x) d) xs d
    = d ++ map (fun x => (k x, v x)) xs.
Proof.
  induction xs as [|x xs IH]; intros d Hnd; simpl.
  - rewrite app_nil_r; reflexivity.
  - rewrite dict_set_absent.
    + rewrite IH.
      * rewrite <- app_assoc; reflexivity.
      * unfold keys in *. rewrite map_app, <- app_assoc. exact Hnd.
    + apply NoDup_remove_2 in Hnd. intros Hin; apply Hnd.
      apply in_or_app; left; exact Hin.
Qed.

Lemma index_docs_maps (docs : list (pystr * Parsed)) :
  forall (N total_len : Z) (self : Search.BM25Index float),
    Search.self_tf (snd (index_docs docs N total_len self))
    = fold_left (fun d doc =>
        dict_set (fst doc) (Search.count_tokens (doc_tokens doc)) d)
        docs (Search.self_tf self)
    /\ Search.self_docs (snd (index_docs docs N total_len self))
       = fold_left (fun d doc =>
           dict_set (fst doc) (or_empty (p_title (snd doc))) d)
           docs (Search.self_docs self).
Proof.
  induction docs as [|doc docs IH]; intros N total_len self;
    [split; reflexivity|].
  simpl index_docs. destruct (IH (N + 1) (total_len + len (doc_tokens doc))
    (Search.index_doc (fst doc) (snd doc) self)) as [-> ->].
  split; reflexivity.
Qed.

(** The maps [tf] and [docs] of a fresh [build]. *)
Lemma build_tf (dir : store) :
  NoDup (map fst dir) ->
  Search.self_tf (Search.build dir (@Search.init float FA))
  = map (fun doc => (fst doc, Search.count_tokens (doc_tokens doc)))
      (indexed dir).
Proof.
  intros Hnd.
  assert (Hfresh : NoDup (@keys Z [] ++ map fst (indexed dir)))
    by (apply NoDup_indexed, Hnd).
  unfold Search.build. rewrite build_loop_index_docs.
  fold (indexed dir).
  pose proof (index_docs_maps (indexed dir) 0 0 Search.init) as [H _].
  destruct (index_docs (indexed dir) 0 0 Search.init) as [[N T] s'].
  cbn [Search.self_tf snd] in *. rewrite H.
  change (Search.self_tf Search.init) with (@nil (pystr * dict Z)).
  rewrite (fold_dict_set_fresh fst
             (fun doc => Search.count_tokens (doc_tokens doc)))
    by exact Hfresh.
  reflexivity.
Qed.

Lemma build_docs (dir : store) :
  NoDup (map fst dir) ->
  Search.self_docs (Search.build dir (@Search.init float FA))
  = map (fun doc => (fst doc, or_empty (p_title (snd doc)))) (indexed dir).
Proof.
  intros Hnd.
  assert (Hfresh : NoDup (@keys Z [] ++ map fst (indexed dir)))
    by (apply NoDup_indexed, Hnd).
  unfold Search.build. rewrite build_loop_index_docs.
  fold (indexed dir).
  pose proof (index_docs_maps (indexed dir) 0 0 Search.init) as [_ H].
  destruct (index_docs (indexed dir) 0 0 Search.init) as [[N T] s'].
  cbn [Search.self_docs snd] in *. rewrite H.
  change (Search.self_docs Search.init) with (@nil (pystr * pystr)).
  rewrite (fold_dict_set_fresh fst (fun doc => or_empty (p_title (snd doc))))
    by exact Hfresh.
  reflexivity.
Qed.

Lemma NoDup_build_tf (dir : store) :
  NoDup (map fst dir) ->
  NoDup (keys (Search.self_tf (Search.build dir (@Search.init float FA)))).
Proof.
  intros Hnd. rewrite build_tf by exact Hnd.
  unfold keys. rewrite map_map. simpl. apply NoDup_indexed, Hnd.
Qed.

(** X5. On a directory (its file names are distinct) a fresh [build] files
    every readable JSON document once, in the order of the directory, under
    its file name without the extension: [tf] holds its term frequencies,
    [docs] its title, [doc_len] its number of tokens; and [N] is the number
    of entries of each of the three. *)
Theorem build_fresh_maps (dir : store) :
  NoDup (map fst dir) ->
  let idx : Search.BM25Index float := Search.build dir Search.init in
  Search.self_tf idx
  = map (fun doc => (fst doc, Search.count_tokens (doc_tokens doc)))
      (indexed dir)
  /\ Search.self_docs idx
     = map (fun doc => (fst doc, or_empty (p_title (snd doc)))) (indexed dir)
  /\ Search.self_doc_len idx
     = map (fun doc => (fst doc, len (doc_tokens doc))) (indexed dir)
  /\ NoDup (keys (Search.self_tf idx))
  /\ Search.self_N idx = len (Search.self_tf idx).
Proof.
  intros Hnd idx. unfold idx.
  split; [apply build_tf, Hnd|].
  split; [apply build_docs, Hnd|].
  split; [apply build_doc_len, Hnd|].
  split; [apply NoDup_build_tf, Hnd|].
  rewrite build_tf, build_N by exact Hnd.
  unfold len. rewrite length_map. reflexivity.
Qed.

Lemma containing_pos (t : pystr) (docs : list (pystr * Parsed)) :
  0 < containing t docs <-> exists doc, In doc docs /\ In t (doc_tokens doc).
Proof.
  induction docs as [|d docs IH].
  - unfold containing, len; simpl. split; [lia | intros (doc & [] & _)].
  - rewrite containing_cons.
    pose proof (containing_bounds t docs) as Hb.
    destruct (existsb (str_eqb t) (doc_tokens d)) eqn:E.
    + split; [|lia]. intros _. exists d. split; [left; reflexivity|].
      apply existsb_str_eqb, E.
    + rewrite Z.add_0_l, IH. split.
      * intros (doc & Hin & Ht). exists doc. split; [right; exact Hin | exact Ht].
      * intros (doc & [<- | Hin] & Ht).
        -- apply existsb_str_eqb in Ht. congruence.
        -- exists doc. split; assumption.
Qed.

(** X6. After a fresh [build] the document frequency of a term is the number
    of indexed documents whose tokens contain it: it lies between [0] and
    [N], and it is positive exactly for the terms of some indexed document. *)
Theorem build_df_counts (dir : store) (t : pystr) :
  let idx : Search.BM25Index float := Search.build dir Search.init in
  dict_get t 0 (Search.self_df idx) = doc_frequency dir t
  /\ 0 <= dict_get t 0 (Search.self_df idx) <= Search.self_N idx
  /\ (0 < dict_get t 0 (Search.self_df idx)
      <-> exists doc, In doc (indexed dir) /\ In t (doc_tokens doc)).
Proof.
  cbv zeta.
  assert (E : dict_get t 0 (Search.self_df (Search.build dir (@Search.init float FA)))
              = doc_frequency dir t).
  { rewrite build_df. unfold dict_get; simpl. reflexivity. }
  split; [exact E|]. split.
  - apply build_index_ok.
  - rewrite E. apply containing_pos.
Qed.

(** X7. The first [get_index] of a process that finds no index file builds
    the index from the directory and, when the file can be written, leaves
    it there; a later process then gets that index from the file, whatever
    its directory holds by then. When the file cannot be written the failure
    is passed over and nothing is persisted. *)
Theorem get_index_persists (env : Search.Env float) :
  Search.global_index env = None ->
  Search.index_file env = None ->
  let built := Search.build (Search.parsed_dir env) Search.init in
  let env' := snd (Search.get_index env) in
  fst (Search.get_index env) = built
  /\ Search.parsed_dir env' = Search.parsed_dir env
  /\ Search.index_file env'
     = (if Search.index_file_writable env then Some built else None)
  /\ forall (dir' : store) (writable : bool),
       fst (Search.get_index
              {| Search.parsed_dir := dir';
                 Search.index_file := Search.index_file env';
                 Search.index_file_writable := writable;
                 Search.global_index := None |})
       = if Search.index_file_writable env then built
         else Search.build dir' Search.init.
Proof.
  intros Hg Hf. cbv zeta.
  unfold Search.get_index, Search.load, Search.save. rewrite Hg, Hf.
  destruct (Search.index_file_writable env) eqn:Ew; simpl; rewrite ?Hf;
    repeat split; reflexivity.
Qed.

End IndexFacts.

Section SortPermutation.
Context {A K : Type} (ltb : K -> K -> bool) (key : A -> K).

Lemma insert_desc_perm (x : A) (l : list A) :
  Permutation (x :: l) (insert_desc ltb key x l).
Proof.
  induction l as [|y l IH]; simpl; [apply Permutation_refl|].
  destruct (ltb (key x) (key y)); [|apply Permutation_refl].
  eapply perm_trans; [apply perm_swap|]. apply perm_skip, IH.
Qed.

Lemma sort_desc_perm (l : list A) : Permutation l (sort_desc ltb key l).
Proof.
  induction l as [|x l IH]; simpl; [constructor|].
  eapply perm_trans; [apply perm_skip, IH | apply insert_desc_perm].
Qed.

Lemma len_sort_desc (l : list A) : len (sort_desc ltb key l) = len l.
Proof.
  unfold len. f_equal. symmetry. apply Permutation_length, sort_desc_perm.
Qed.

End SortPermutation.

Lemma subseq_firstn {A : Type} (n : nat) (l : list A) : subseq (firstn n l) l.
Proof.
  revert n; induction l as [|x l IH]; intros [|n]; simpl.
  - constructor.
  - constructor.
  - apply subseq_nil_l.
  - apply subseq_keep, IH.
Qed.

Lemma subseq_slice_to {A : Type} (k : Z) (l : list A) :
  subseq (slice_to k l) l.
Proof. unfold slice_to; destruct (0 <=? k); apply subseq_firstn. Qed.

Lemma subseq_map {A B : Type} (f : A -> B) (l1 l2 : list A) :
  subseq l1 l2 -> subseq (map f l1) (map f l2).
Proof. induction 1; simpl; constructor; assumption. Qed.

Lemma subseq_NoDup {A : Type} (l1 l2 : list A) :
  subseq l1 l2 -> NoDup l2 -> NoDup l1.
Proof.
  induction 1 as [|x l1 l2 Hs IH|x l1 l2 Hs IH]; intros Hnd.
  - constructor.
  - inversion Hnd; subst. apply IH; assumption.
  - inversion Hnd as [|? ? Hx Hnd']; subst. constructor; [|apply IH, Hnd'].
    intros Hin. apply Hx. eapply subseq_in; eassumption.
Qed.

Lemma len_slice_to_min {A : Type} (k : Z) (l : list A) :
  0 <= k -> len (slice_to k l) = Z.min k (len l).
Proof.
  intros Hk. unfold slice_to, len.
  destruct (0 <=? k) eqn:E; [|apply Z.leb_gt in E; lia].
  rewrite length_firstn. lia.
Qed.

Lemma in_dict_set {V : Type} (k k' : pystr) (v v' : V) (d : dict V) :
  In (k', v') (dict_set k v d) -> (k' = k /\ v' = v) \/ In (k', v') d.
Proof.
  induction d as [|[k0 v0] d IH]; simpl.
  - intros [H | []]. inversion H; auto.
  - destruct (str_eqb k k0) eqn:E; simpl.
    + apply str_eqb_eq in E; subst k0.
      intros [H | H]; [inversion H; auto | auto].
    + intros [H | H]; [auto|]. destruct (IH H); auto.
Qed.

Section HitFacts.
Context {L : Lib} {float : Type} {FA : FloatArith float}.

(** Every entry of the scores dictionary was there at the start or is the
    positive score of a document of [tf]. *)
Lemma score_docs_entries (self : Search.BM25Index float) (idf : dict float)
  (k1 b : float) (q_toks : list pystr) :
  forall (tf : dict (dict Z)) (scores r : dict float),
    Search.score_docs self idf k1 b q_toks tf scores = Ok r ->
    forall pid s,
      In (pid, s) r ->
      In (pid, s) scores
      \/ exists freqs,
           In (pid, freqs) tf
           /\ Search.doc_score self idf k1 b
                (dict_get pid 0 (Search.self_doc_len self)) freqs q_toks
                (of_int 0) = Ok s
           /\ fltb fzero s = true.
Proof.
  induction tf as [|[p freqs] tf IH]; intros scores r H pid s Hin.
  - simpl in H. inversion H; subst. left; exact Hin.
  - simpl in H.
    destruct (Search.doc_score self idf k1 b
                (dict_get p 0 (Search.self_doc_len self)) freqs q_toks
                (of_int 0)) as [s0|e] eqn:Es; [|discriminate].
    simpl in H. destruct (IH _ _ H pid s Hin) as [Hold | (f & Hf & Hs & Hp)].
    + destruct (fltb fzero s0) eqn:Ep.
      * apply in_dict_set in Hold as [[-> ->] | Hold]; [|left; exact Hold].
        right. exists freqs. split; [left; reflexivity|]. split; assumption.
      * left; exact Hold.
    + right. exists f. split; [right; exact Hf|]. split; assumption.
Qed.

Lemma score_entries (self : Search.BM25Index float) (query : pystr)
  (k1 b : float) (top_k : Z) (l : list (pystr * float)) :
  Search.score self query k1 b top_k = Ok l ->
  forall pid s,
    In (pid, s) l ->
    exists idf freqs,
      In (pid, freqs) (Search.self_tf self)
      /\ Search.doc_score self idf k1 b
           (dict_get pid 0 (Search.self_doc_len self)) freqs
           (Search.query_tokens query) (of_int 0) = Ok s
      /\ fltb fzero s = true.
Proof.
  unfold Search.score. intros H pid s Hin.
  destruct (Search.query_tokens query) as [|t q_toks] eqn:Eq;
    [inversion H; subst; destruct Hin|].
  destruct (Search.self_N self =? 0); [inversion H; subst; destruct Hin|].
  destruct (Search.idf_table self (Search.set_of (t :: q_toks)) [])
    as [idf|e]; [|discriminate].
  simpl in H.
  destruct (Search.score_docs self idf k1 b (t :: q_toks)
              (Search.self_tf self) []) as [scores|e] eqn:Es; [|discriminate].
  simpl in H. inversion H; subst l.
  assert (Hin' : In (pid, s) scores).
  { apply (in_sort_desc fltb snd). eapply subseq_in; [|exact Hin].
    apply subseq_slice_to. }
  destruct (score_docs_entries _ _ _ _ _ _ _ _ Es pid s Hin')
    as [[] | (freqs & Hf & Hs & Hp)].
  exists idf, freqs. split; [exact Hf|]. split; assumption.
Qed.

Lemma indexed_in_dir (dir : store) (pid : pystr) (parsed : Parsed) :
  In (pid, parsed) (indexed dir) ->
  In (pid ++ dot_json, Some parsed) dir.
Proof.
  unfold indexed, readable. rewrite in_flat_map.
  intros ([fname c] & Hin & Hdoc).
  apply filter_In in Hin as [Hin Hjson]. simpl in Hjson, Hdoc.
  destruct c as [p|]; [|destruct Hdoc].
  destruct Hdoc as [Heq | []]. inversion Heq; subst.
  rewrite <- (json_name fname Hjson). exact Hin.
Qed.

(** The ids [score] returns on a fresh index. *)
Lemma score_ids_in_tf (self : Search.BM25Index float) (query : pystr)
  (k1 b : float) (top_k : Z) (l : list (pystr * float)) :
  NoDup (keys (Search.self_tf self)) ->
  Search.score self query k1 b top_k = Ok l ->
  NoDup (map fst l)
  /\ forall pid, In pid (map fst l) -> In pid (keys (Search.self_tf self)).
Proof.
  intros Hkeys H.
  destruct (score_shape _ _ _ _ _ _ Hkeys H) as (scores & -> & _ & Hsub).
  split.
  - eapply subseq_NoDup; [apply subseq_map, subseq_slice_to|].
    eapply Permutation_NoDup;
      [apply Permutation_map, sort_desc_perm|].
    eapply subseq_NoDup; [exact Hsub | exact Hkeys].
  - intros pid Hin.
    eapply subseq_in; [exact Hsub|].
    apply in_map_iff in Hin as ([p s] & <- & Hin).
    apply in_map_iff. exists (p, s). split; [reflexivity|].
    apply (in_sort_desc fltb snd). eapply subseq_in; [|exact Hin].
    apply subseq_slice_to.
Qed.

Lemma build_tf_key_file (dir : store) (pid : pystr) :
  NoDup (map fst dir) ->
  In pid (keys (Search.self_tf (Search.build dir (@Search.init float FA)))) ->
  exists parsed, In (pid ++ dot_json, Some parsed) dir.
Proof.
  intros Hnd Hk. rewrite build_tf in Hk by exact Hnd.
  unfold keys in Hk. rewrite map_map in Hk.
  apply in_map_iff in Hk as ([p parsed] & <- & Hdoc).
  exists parsed. apply indexed_in_dir, Hdoc.
Qed.

(** X8. On the fresh index of a directory [score] lists no document twice,
    and every id it returns is the name, without [.json], of a JSON file of
    the directory that can be read. *)
Theorem score_hits_are_documents (dir : store) (query : pystr) (k1 b : float)
  (top_k : Z) (l : list (pystr * float)) :
  NoDup (map fst dir) ->
  Search.score (Search.build dir Search.init) query k1 b top_k = Ok l ->
  NoDup (map fst l)
  /\ forall pid, In pid (map fst l) ->
       exists parsed, In (pid ++ dot_json, Some parsed) dir.
Proof.
  intros Hnd H.
  destruct (score_ids_in_tf _ _ _ _ _ _ (NoDup_build_tf dir Hnd) H)
    as (Hl & Hin).
  split; [exact Hl|].
  intros pid Hpid. apply build_tf_key_file; [exact Hnd|].
  apply Hin, Hpid.
Qed.

Section Zero.
Context `{FZ : !FloatZero}.

(** A document in which no query token occurs gets no positive score. *)
Lemma doc_score_without_match (self : Search.BM25Index float)
  (idf : dict float) (k1 b : float) (dl : Z) (freqs : dict Z)
  (q_toks : list pystr) :
  (forall t, In t q_toks -> dict_get t 0 freqs = 0) ->
  forall score s,
    fltb fzero score = false ->
    Search.doc_score self idf k1 b dl freqs q_toks score = Ok s ->
    fltb fzero s = false.
Proof.
  induction q_toks as [|t q_toks IH]; intros Hz score s Hs H; simpl in H.
  - inversion H; subst; exact Hs.
  - assert (Hz' : forall t', In t' q_toks -> dict_get t' 0 freqs = 0)
      by (intros t' Ht'; apply Hz; right; exact Ht').
    destruct (dict_find t idf) as [idf_t|]; [|apply (IH Hz' score); assumption].
    rewrite (Hz t (or_introl eq_refl)) in H.
    unfold Search.term_score in H.
    destruct (if negb (feqb (Search.self_avgdl self) fzero)
              then truediv (of_int dl) (Search.self_avgdl self)
              else Ok (of_int 0)) as [norm|e]; [|discriminate].
    simpl in H. unfold truediv in H.
    match type of H with
    | context [feqb ?d fzero] => destruct (feqb d fzero)
    end; [discriminate|].
    simpl in H. eapply (IH Hz'); [|exact H].
    apply add_not_pos; [exact Hs | apply zero_term_not_pos].
Qed.

(** X9. Every document that [score] returns on the fresh index of a
    directory shares a token with the query: a document none of whose
    tokens is a query token is never returned. *)
Theorem score_hits_share_a_token (dir : store) (query : pystr) (k1 b : float)
  (top_k : Z) (l : list (pystr * float)) :
  NoDup (map fst dir) ->
  Search.score (Search.build dir Search.init) query k1 b top_k = Ok l ->
  forall pid s,
    In (pid, s) l ->
    exists parsed t,
      In (pid ++ dot_json, Some parsed) dir
      /\ In t (Search.tokenize query)
      /\ In t (Search.tokenize (Search.doc_text parsed)).
Proof.
  intros Hnd H pid s Hin.
  pose proof (build_tf dir Hnd) as Htf.
  destruct (score_entries _ _ _ _ _ _ H pid s Hin)
    as (idf & freqs & Hf & Hs & Hp).
  rewrite Htf in Hf. apply in_map_iff in Hf as ([p parsed] & Heq & Hdoc).
  inversion Heq; subst p freqs. clear Heq.
  exists parsed.
  destruct (existsb (fun t => negb (dict_get t 0
              (Search.count_tokens (doc_tokens (pid, parsed))) =? 0))
              (Search.query_tokens query)) eqn:E.
  - apply existsb_exists in E as (t & Ht & Hnz).
    exists t. split; [apply indexed_in_dir, Hdoc|].
    split.
    + unfold Search.query_tokens in Ht. apply filter_In in Ht. tauto.
    + apply negb_true_iff, Z.eqb_neq in Hnz.
      apply (in_keys_count_tokens t).
      destruct (existsb (str_eqb t)
                  (keys (Search.count_tokens (doc_tokens (pid, parsed)))))
        eqn:Ek; [apply existsb_str_eqb, Ek|].
      exfalso. apply Hnz. unfold dict_get.
      destruct (dict_find t (Search.count_tokens (doc_tokens (pid, parsed))))
        as [v|] eqn:Ef; [|reflexivity].
      assert (Hk : existsb (str_eqb t)
                     (keys (Search.count_tokens (doc_tokens (pid, parsed))))
                   = true); [|congruence].
      apply existsb_str_eqb.
      clear - Ef. induction (Search.count_tokens (doc_tokens (pid, parsed)))
        as [|[k0 v0] d IH]; simpl in *; [discriminate|].
      destruct (str_eqb t k0) eqn:E0.
      * left. symmetry. apply str_eqb_eq, E0.
      * right. apply IH, Ef.
  - exfalso.
    assert (Hz : forall t, In t (Search.query_tokens query) ->
                   dict_get t 0
                     (Search.count_tokens (doc_tokens (pid, parsed))) = 0).
    { intros t Ht.
      assert (Hn : negb (dict_get t 0
                     (Search.count_tokens (doc_tokens (pid, parsed))) =? 0)
                   = false).
      { destruct (negb (dict_get t 0
                    (Search.count_tokens (doc_tokens (pid, parsed))) =? 0))
          eqn:En; [|reflexivity].
        assert (existsb (fun t => negb (dict_get t 0
                  (Search.count_tokens (doc_tokens (pid, parsed))) =? 0))
                  (Search.query_tokens query) = true); [|congruence].
        apply existsb_exists. exists t. split; assumption. }
      apply negb_false_iff, Z.eqb_eq in Hn. exact Hn. }
    pose proof (doc_score_without_match _ _ _ _ _ _ _ Hz (of_int 0) s
                  zero_not_pos Hs) as Hneg.
    congruence.
Qed.

End Zero.

End HitFacts.

(** * Further properties of api.py *)

Lemma StronglySorted_map_in {A B : Type} (R : A -> A -> Prop)
  (R' : B -> B -> Prop) (f : A -> B) (l : list A) :
  (forall x y, In x l -> In y l -> R x y -> R' (f x) (f y)) ->
  StronglySorted R l -> StronglySorted R' (map f l).
Proof.
  induction l as [|x l IH]; intros H Hs; simpl; [constructor|].
  inversion Hs as [|? ? Hs' Hall]; subst. constructor.
  - apply IH; [|exact Hs']. intros a b Ha Hb. apply H; right; assumption.
  - rewrite Forall_forall in *. intros y Hy.
    apply in_map_iff in Hy as (a & <- & Ha).
    apply H; [left; reflexivity | right; exact Ha | apply Hall, Ha].
Qed.

Lemma StronglySorted_slice_to {A : Type} (R : A -> A -> Prop) (k : Z)
  (l : list A) :
  StronglySorted R l -> StronglySorted R (slice_to k l).
Proof. unfold slice_to; destruct (0 <=? k); apply StronglySorted_firstn. Qed.

Lemma sort_desc_Z_sorted {A : Type} (key : A -> Z) (l : list A) :
  StronglySorted (fun x y => key y <= key x) (sort_desc Z.ltb key l).
Proof.
  assert (H : StronglySorted (not_below Z.ltb key) (sort_desc Z.ltb key l)).
  { apply (sort_desc_sorted Z.ltb key (fun _ => True)).
    - intros a b Hab. apply Z.ltb_lt in Hab. apply Z.ltb_ge. lia.
    - intros a b c _ Hab Hbc. apply Z.ltb_ge in Hab, Hbc. apply Z.ltb_ge. lia.
    - apply Forall_forall. intros; exact I. }
  eapply (StronglySorted_map_in _ _ (fun x => x)) in H.
  - rewrite map_id in H. exact H.
  - intros x y _ _ Hxy. unfold not_below in Hxy.
    apply Z.ltb_ge in Hxy. exact Hxy.
Qed.

Section SentenceFacts.
Context {L : Lib}.

Lemma split_sentences_visible (s : pystr) :
  forall prev_punct cur,
    visible (concat (Api.split_sentences prev_punct false cur s))
    = visible (cur ++ s)
    /\ visible (concat (Api.split_sentences prev_punct true [] s))
       = visible s.
Proof.
  unfold visible.
  induction s as [|c s IH]; intros prev_punct cur; simpl.
  - rewrite !app_nil_r. split; reflexivity.
  - split.
    + destruct (prev_punct && is_space c) eqn:E.
      * apply andb_true_iff in E as [_ E]. simpl.
        rewrite !filter_app. simpl. rewrite E. simpl.
        f_equal. apply (IH false []).
      * rewrite (proj1 (IH (Api.is_punct c) (cur ++ [c]))).
        rewrite <- app_assoc. reflexivity.
    + destruct (is_space c) eqn:E; simpl.
      * apply (IH false []).
      * rewrite (proj1 (IH (Api.is_punct c) [c])). simpl. rewrite E.
        reflexivity.
Qed.

Lemma split_sentences_single (s : pystr) :
  forallb (fun c => negb (Api.is_punct c)) s = true ->
  forall cur, Api.split_sentences false false cur s = [cur ++ s].
Proof.
  induction s as [|c s IH]; simpl; intros H cur.
  - rewrite app_nil_r; reflexivity.
  - apply andb_true_iff in H as [Hc H]. apply negb_true_iff in Hc.
    rewrite Hc, IH by exact H. rewrite <- app_assoc. reflexivity.
Qed.

(** X10. Cutting a text into sentences drops whitespace only: the pieces
    put together hold the visible characters of the text in their order;
    and a text without [.], [!] and [?] is one piece, the text itself. *)
Theorem split_sentences_keeps_text (text : pystr) :
  visible (concat (Api.split_sentences false false [] text)) = visible text
  /\ (forallb (fun c => negb (Api.is_punct c)) text = true ->
      Api.split_sentences false false [] text = [text]).
Proof.
  split.
  - apply (proj1 (split_sentences_visible text false [])).
  - intros H. apply (split_sentences_single text H []).
Qed.

Lemma extract_relevant_sentences_eq (text q : pystr) (max_sentences : Z) :
  Api.extract_relevant_sentences text q max_sentences
  = match query_words q with
    | [] => []
    | _ :: _ =>
        map snd (slice_to max_sentences (sort_desc Z.ltb fst
          (flat_map (fun s =>
             if 0 <? sentence_score q s then [(sentence_score q s, s)]
             else [])
             (Api.split_sentences false false [] text))))
    end.
Proof. reflexivity. Qed.

Lemma in_scored_sentences (q : pystr) (sents : list pystr) (x : Z * pystr) :
  In x (flat_map (fun s =>
          if 0 <? sentence_score q s then [(sentence_score q s, s)] else [])
          sents)
  <-> In (snd x) sents /\ fst x = sentence_score q (snd x)
      /\ 0 < sentence_score q (snd x).
Proof.
  rewrite in_flat_map. split.
  - intros (s & Hs & Hx).
    destruct (0 <? sentence_score q s) eqn:E; [|destruct Hx].
    destruct Hx as [<- | []]. simpl. apply Z.ltb_lt in E. auto.
  - intros (Hs & Hf & Hp). exists (snd x). split; [exact Hs|].
    apply Z.ltb_lt in Hp. rewrite Hp. left.
    destruct x as [n s]; simpl in *. subst n. reflexivity.
Qed.

(** X11. [extract_relevant_sentences] returns sentences of the text that
    hold at least one query word (a word of the question of more than two
    characters, lowercased), the ones with more query words first; at most
    [max_sentences] of them for [max_sentences >= 0]; and all of them when
    the text has no more than [max_sentences] sentences. *)
Theorem extract_relevant_sentences_spec (text q : pystr) (max_sentences : Z) :
  let sents := Api.split_sentences false false [] text in
  let r := Api.extract_relevant_sentences text q max_sentences in
  (forall s, In s r -> In s sents /\ 0 < sentence_score q s)
  /\ StronglySorted (fun s1 s2 => sentence_score q s2 <= sentence_score q s1) r
  /\ (0 <= max_sentences -> len r <= max_sentences)
  /\ (len sents <= max_sentences ->
      forall s, In s sents -> 0 < sentence_score q s -> In s r).
Proof.
  cbv zeta. rewrite extract_relevant_sentences_eq.
  set (sents := Api.split_sentences false false [] text).
  set (scored := flat_map _ sents).
  destruct (query_words q) as [|t ts] eqn:Eq.
  - split; [intros s []|]. split; [constructor|].
    split; [intros; unfold len; simpl; lia|].
    intros _ s _ Hp. unfold sentence_score in Hp. rewrite Eq in Hp.
    unfold len in Hp; simpl in Hp. lia.
  - assert (Hin : forall x, In x (slice_to max_sentences
                                   (sort_desc Z.ltb fst scored)) ->
                            In x scored).
    { intros x Hx. apply (in_sort_desc Z.ltb fst).
      eapply subseq_in; [apply subseq_slice_to | exact Hx]. }
    split; [|split; [|split]].
    + intros s Hs. apply in_map_iff in Hs as (x & <- & Hx).
      apply Hin, in_scored_sentences in Hx. tauto.
    + apply (StronglySorted_map_in (fun x y => fst y <= fst x)).
      * intros x y Hx Hy Hxy.
        apply Hin, in_scored_sentences in Hx.
        apply Hin, in_scored_sentences in Hy.
        destruct Hx as (_ & <- & _), Hy as (_ & <- & _). exact Hxy.
      * apply StronglySorted_slice_to, sort_desc_Z_sorted.
    + intros Hk. unfold len. rewrite length_map.
      apply (len_slice_to max_sentences _ Hk).
    + intros Hlen s Hs Hp.
      assert (Hall : slice_to max_sentences (sort_desc Z.ltb fst scored)
                     = sort_desc Z.ltb fst scored).
      { assert (Hsc : len scored <= len sents).
        { unfold scored, len. apply inj_le.
          clear. induction sents as [|x l IH]; simpl; [lia|].
          rewrite length_app.
          destruct (0 <? sentence_score q x); simpl; lia. }
        pose proof (len_sort_desc Z.ltb fst scored) as Hl.
        unfold slice_to, len in *.
        destruct (0 <=? max_sentences) eqn:E;
          [|apply Z.leb_gt in E; lia].
        apply firstn_all2. lia. }
      rewrite Hall. apply in_map_iff. exists (sentence_score q s, s).
      split; [reflexivity|].
      apply (in_sort_desc Z.ltb fst). apply in_scored_sentences. simpl. auto.
Qed.

End SentenceFacts.

Lemma read_json_in (dir : store) (name : pystr) (parsed : Parsed) :
  NoDup (map fst dir) ->
  In (name, Some parsed) dir ->
  read_json dir name = Ok parsed.
Proof.
  induction dir as [|[n c] dir IH]; simpl; intros Hnd Hin; [destruct Hin|].
  inversion Hnd as [|? ? Hn Hnd']; subst.
  destruct Hin as [Heq | Hin].
  - inversion Heq; subst. rewrite str_eqb_refl. reflexivity.
  - destruct (str_eqb name n) eqn:E; [|apply IH; assumption].
    apply str_eqb_eq in E; subst n. exfalso. apply Hn.
    apply in_map_iff. exists (name, Some parsed). split; [reflexivity|exact Hin].
Qed.

Lemma existsb_file_name (dir : store) (name : pystr) :
  existsb (fun e => str_eqb name (fst e)) dir = true <-> In name (map fst dir).
Proof.
  rewrite existsb_exists, in_map_iff. split.
  - intros (e & He & E). apply str_eqb_eq in E. exists e. auto.
  - intros (e & E & He). exists e. split; [exact He|].
    apply str_eqb_eq. auto.
Qed.

Section EndpointFacts.
Context {L : Lib} {float : Type} {FA : FloatArith float}.

(** X12. [list_posts] returns entries of [index.json], the latest fetched
    first and entries fetched at the same time in the order of the index;
    [count] is the number of results, which for [limit >= 0] is the smaller
    of [limit] and the number of posts. *)
Theorem list_posts_spec (limit : Z) (idx : dict Api.PostMeta) :
  let count := fst (Api.list_posts limit idx) in
  let results := snd (Api.list_posts limit idx) in
  count = len results
  /\ (0 <= limit -> count = Z.min limit (len idx))
  /\ (forall e, In e results -> In e idx)
  /\ StronglySorted (fun x y => Api.fetched_at y <= Api.fetched_at x) results
  /\ (forall x y, precedes x y results ->
        Api.fetched_at x = Api.fetched_at y -> precedes x y idx).
Proof.
  cbv zeta. unfold Api.list_posts. cbn [fst snd].
  split; [reflexivity|]. split; [|split; [|split]].
  - intros Hk. rewrite len_slice_to_min by exact Hk.
    rewrite len_sort_desc. reflexivity.
  - intros e He. apply (in_sort_desc Z.ltb Api.fetched_at).
    eapply subseq_in; [apply subseq_slice_to | exact He].
  - apply StronglySorted_slice_to, sort_desc_Z_sorted.
  - intros x y Hp Heq. apply precedes_slice_to in Hp.
    apply (sort_desc_stable Z.ltb Api.fetched_at) in Hp; [exact Hp|].
    apply Z.ltb_ge. lia.
Qed.

(** X13. [get_post] answers 404 exactly when the directory has no file
    [<post_id>.json]; and for every document that a fresh [build] over the
    directory has filed in [docs], [get_post] returns the document, whose
    title is the title on file. *)
Theorem get_post_of_indexed (dir : store) :
  NoDup (map fst dir) ->
  (forall post_id,
      Api.get_post dir post_id = Api.HTTP404
      <-> ~ In (post_id ++ dot_json) (map fst dir))
  /\ forall post_id title,
       In (post_id, title)
          (Search.self_docs (Search.build dir (@Search.init float FA))) ->
       exists parsed,
         Api.get_post dir post_id = Api.Post parsed
         /\ or_empty (p_title parsed) = title.
Proof.
  intros Hnd. split.
  - intros post_id. unfold Api.get_post.
    destruct (existsb (fun e => str_eqb (post_id ++ dot_json) (fst e)) dir)
      eqn:E.
    + apply existsb_file_name in E. split; [|tauto].
      destruct (read_json dir (post_id ++ dot_json)); discriminate.
    + split; [|reflexivity]. intros _ Hin.
      apply existsb_file_name in Hin. congruence.
  - intros post_id title Hin.
    pose proof (build_docs dir Hnd) as Hdocs.
    rewrite Hdocs in Hin. apply in_map_iff in Hin as ([p parsed] & Heq & Hdoc).
    inversion Heq; subst. exists parsed. split; [|reflexivity].
    apply indexed_in_dir in Hdoc. unfold Api.get_post.
    assert (E : existsb (fun e => str_eqb (post_id ++ dot_json) (fst e)) dir
                = true).
    { apply existsb_file_name, in_map_iff.
      exists (post_id ++ dot_json, Some parsed). split; [reflexivity|exact Hdoc]. }
    rewrite E, (read_json_in dir _ parsed Hnd Hdoc). reflexivity.
Qed.

(** The results of the loop of [/search]: what it started with, then at
    most one source per post of the index, in the order of the index. *)
Lemma search_loop_spec (dir : store) (ql : pystr) (limit : Z)
  (idx : dict Api.Meta) :
  forall results : list (Api.Source float),
    len results <= Z.max (limit - 1) 0 ->
    exists added,
      Api.search_loop dir ql limit idx results = results ++ added
      /\ len (results ++ added) <= Z.max limit 1
      /\ subseq (map Api.s_id added) (map (@Api.IdStr float) (keys idx))
      /\ forall s, In s added ->
           exists post_id meta,
             In (post_id, meta) idx
             /\ Api.search_doc dir ql post_id meta = Ok [s].
Proof.
  induction idx as [|[post_id meta] idx IH]; intros results Hlen.
  - exists []. simpl. rewrite app_nil_r.
    split; [reflexivity|]. split; [lia|]. split; [constructor|].
    intros s [].
  - cbn [Api.search_loop].
    destruct (Api.search_doc dir ql post_id meta) as [added|e] eqn:Ed.
    + assert (Hadded : added = []
                       \/ exists s, added = [s] /\ Api.s_id s = Api.IdStr post_id).
      { unfold Api.search_doc in Ed.
        destruct (Api.read_post dir post_id); [|discriminate].
        simpl in Ed.
        match type of Ed with
        | Ok (if ?c then _ else _) = _ => destruct c
        end; inversion Ed; subst; [right | left; reflexivity].
        eexists; split; reflexivity. }
      assert (Hlen' : len (results ++ added) <= len results + 1).
      { unfold len. rewrite length_app.
        destruct Hadded as [-> | (s & -> & _)]; simpl; lia. }
      destruct (limit <=? len (results ++ added)) eqn:E.
      * exists added. split; [reflexivity|]. split; [lia|].
        split.
        -- destruct Hadded as [-> | (s & -> & Hid)]; simpl.
           ++ apply subseq_nil_l.
           ++ rewrite Hid. apply subseq_keep, subseq_nil_l.
        -- intros s Hs. exists post_id, meta. split; [left; reflexivity|].
           destruct Hadded as [-> | (s' & -> & _)]; [destruct Hs|].
           destruct Hs as [<- | []]. exact Ed.
      * apply Z.leb_gt in E.
        destruct (IH (results ++ added)) as (more & Heq & Hl & Hsub & Hsrc);
          [lia|].
        exists (added ++ more). rewrite app_assoc.
        split; [exact Heq|]. split; [exact Hl|]. split.
        -- rewrite map_app.
           destruct Hadded as [-> | (s & -> & Hid)]; simpl.
           ++ apply subseq_skip, Hsub.
           ++ rewrite Hid. apply subseq_keep, Hsub.
        -- intros s Hs. apply in_app_or in Hs as [Hs | Hs].
           ++ exists post_id, meta. split; [left; reflexivity|].
              destruct Hadded as [-> | (s' & -> & _)]; [destruct Hs|].
              destruct Hs as [<- | []]. exact Ed.
           ++ destruct (Hsrc s Hs) as (p & m & Hin & Hd).
              exists p, m. split; [right; exact Hin | exact Hd].
    + destruct (IH results Hlen) as (more & Heq & Hl & Hsub & Hsrc).
      exists more. split; [exact Heq|]. split; [exact Hl|]. split.
      * simpl. apply subseq_skip, Hsub.
      * intros s Hs. destruct (Hsrc s Hs) as (p & m & Hin & Hd).
        exists p, m. split; [right; exact Hin | exact Hd].
Qed.

(** X14. The endpoint [/search] returns at most [limit] results (one for a
    [limit] below one), in the order of [index.json] and at most one per
    post; each result is a post of the index whose file can be read, with
    the title of the file and the url of the index, and the lowercased
    query occurs in its lowercased title or in its lowercased text, the OCR
    text included. *)
Theorem search_endpoint_results (q : pystr) (limit : Z) (w : Api.World float) :
  let dir := Search.parsed_dir (Api.env w) in
  let results := Api.search q limit w in
  len results <= Z.max limit 1
  /\ subseq (map Api.s_id results)
       (map (@Api.IdStr float) (keys (Api.index_json w)))
  /\ forall s, In s results ->
       exists post_id meta parsed,
         In (post_id, meta) (Api.index_json w)
         /\ Api.read_post dir post_id = Ok parsed
         /\ Api.s_id s = Api.IdStr post_id
         /\ Api.s_title s = or_empty (p_title parsed)
         /\ Api.s_url s = Api.m_url meta
         /\ (contains (lower q) (lower (or_empty (p_title parsed)))
             || contains (lower q)
                  (lower (Api.strip_html (or_empty (p_content parsed)))
                   ++ match lower (or_empty (p_ocr_text parsed)) with
                      | [] => []
                      | c :: ocr => NEWLINE :: c :: ocr
                      end)) = true.
Proof.
  cbv zeta. unfold Api.search.
  destruct (search_loop_spec (Search.parsed_dir (Api.env w)) (lower q) limit
              (Api.index_json w) [])
    as (added & Heq & Hl & Hsub & Hsrc); [unfold len; simpl; lia|].
  rewrite Heq. simpl in *.
  split; [exact Hl|]. split; [exact Hsub|].
  intros s Hs. destruct (Hsrc s Hs) as (post_id & meta & Hin & Hd).
  exists post_id, meta. unfold Api.search_doc in Hd.
  destruct (Api.read_post (Search.parsed_dir (Api.env w)) post_id)
    as [parsed|e]; [|discriminate].
  exists parsed. simpl in Hd.
  split; [exact Hin|]. split; [reflexivity|].
  match type of Hd with
  | Ok (if ?c then _ else _) = _ => destruct c eqn:Ec
  end; [|discriminate].
  inversion Hd; subst s. cbn [Api.s_id Api.s_title Api.s_url].
  repeat split.
  rewrite <- Ec.
  destruct (lower (or_empty (p_ocr_text parsed))); [|reflexivity].
  rewrite app_nil_r. reflexivity.
Qed.

End EndpointFacts.

Lemma ltrim_forallb (space : char -> bool) (s : pystr) :
  forallb space (ltrim space s) = forallb space s.
Proof.
  induction s as [|c s IH]; simpl; [reflexivity|].
  destruct (space c) eqn:E; simpl; [exact IH | rewrite E; reflexivity].
Qed.

Lemma ltrim_nil (space : char -> bool) (s : pystr) :
  ltrim space s = [] <-> forallb space s = true.
Proof.
  induction s as [|c s IH]; simpl; [tauto|].
  destruct (space c); simpl; [exact IH|]. split; discriminate.
Qed.

Lemma forallb_rev {A : Type} (f : A -> bool) (l : list A) :
  forallb f (rev l) = forallb f l.
Proof.
  apply eq_true_iff_eq. rewrite !forallb_forall. split; intros H x Hx.
  - apply H, in_rev. rewrite rev_involutive. exact Hx.
  - apply H, in_rev, Hx.
Qed.

Lemma trim_nil (space : char -> bool) (s : pystr) :
  trim space s = [] <-> forallb space s = true.
Proof.
  unfold trim. split.
  - intros H. apply (f_equal (@rev char)) in H.
    rewrite rev_involutive in H. simpl in H.
    apply ltrim_nil in H. rewrite forallb_rev, ltrim_forallb in H. exact H.
  - intros H. apply ltrim_nil in H. rewrite H. reflexivity.
Qed.

Section ChatFacts.
Context {L : Lib} {float : Type} {FA : FloatArith float}.

Lemma get_index_again (e : Search.Env float) :
  Search.get_index (snd (Search.get_index e)) = Search.get_index e.
Proof.
  unfold Search.get_index, Search.load, Search.save.
  destruct (Search.global_index e) eqn:Eg; simpl; [rewrite Eg; reflexivity|].
  destruct (Search.index_file e) eqn:Ef; simpl; [reflexivity|].
  destruct (Search.index_file_writable e); reflexivity.
Qed.

Lemma get_index_parsed_dir (e : Search.Env float) :
  Search.parsed_dir (snd (Search.get_index e)) = Search.parsed_dir e.
Proof.
  unfold Search.get_index, Search.load, Search.save.
  destruct (Search.global_index e); [reflexivity|].
  destruct (Search.index_file e); [reflexivity|].
  destruct (Search.index_file_writable e); reflexivity.
Qed.

Lemma search_get_index (q : pystr) (k : Z) (e : Search.Env float) :
  Search.search q k e
  = (Search.score (fst (Search.get_index e)) q f1_5 f0_75 k,
     snd (Search.get_index e)).
Proof.
  unfold Search.search. destruct (Search.get_index e); reflexivity.
Qed.

Lemma set_env_same (w : Api.World float) : Api.set_env (Api.env w) w = w.
Proof. destruct w; reflexivity. Qed.

(** X15. [chat] answers 400 exactly when the question is empty or
    whitespace only, and then it reads and changes nothing. *)
Theorem chat_rejects_blank_only (req : Api.ChatRequest) (w : Api.World float) :
  (fst (Api.chat req w) = Api.HTTP400
   <-> forallb is_space (Api.question req) = true)
  /\ (fst (Api.chat req w) = Api.HTTP400 -> snd (Api.chat req w) = w).
Proof.
  unfold Api.chat, Api.strip.
  destruct (trim is_space (Api.question req)) as [|c q] eqn:Eq.
  - split; [|reflexivity]. split; [|reflexivity].
    intros _. apply trim_nil, Eq.
  - assert (Hnot : forallb is_space (Api.question req) = true -> False).
    { intros H. apply (trim_nil is_space) in H. congruence. }
    destruct (Api.retrieve (c :: q) (Api.top_k req) w) as [chosen w'].
    assert (Hne : fst (match map (Api.answer_part (c :: q)) chosen with
                       | [] => let '(r, e) := Api.last_resort (c :: q) (Api.env w')
                               in (r, Api.set_env e w')
                       | _ :: _ =>
                           if truthy (Api.OPENAI_API_KEY w')
                           then (Api.Generation
                                   (join [NEWLINE; NEWLINE]
                                      (map (Api.answer_part (c :: q)) chosen))
                                   (Api.sources_of (Api.index_json w) (c :: q) chosen)
                                   (Api.display_sources_of
                                      (Api.sources_of (Api.index_json w) (c :: q)
                                         chosen)), w')
                           else (Api.Reply
                                   (Api.sub_url_pattern 0
                                      (join [NEWLINE; NEWLINE]
                                         (map (Api.answer_part (c :: q)) chosen)))
                                   (Api.display_sources_of
                                      (Api.sources_of (Api.index_json w) (c :: q)
                                         chosen)) false, w')
                       end) = Api.HTTP400 -> False).
    { destruct (map (Api.answer_part (c :: q)) chosen).
      - unfold Api.last_resort.
        destruct (Search.search (c :: q) 1 (Api.env w')) as [[bm|err] e'];
          simpl; [|discriminate].
        destruct bm as [|[score pid] bm]; simpl; [discriminate|].
        destruct (Api.read_post (Search.parsed_dir e') (float_repr pid));
          simpl; discriminate.
      - destruct (truthy (Api.OPENAI_API_KEY w')); simpl; discriminate. }
    split; [split|]; intros H; exfalso; auto.
Qed.

Lemma last_resort_env (q : pystr) (e : Search.Env float) :
  snd (Api.last_resort q e) = snd (Search.get_index e).
Proof.
  unfold Api.last_resort. rewrite search_get_index.
  destruct (Search.score (fst (Search.get_index e)) q f1_5 f0_75 1)
    as [[|[score pid] bm]|err]; simpl; try reflexivity.
  destruct (Api.read_post (Search.parsed_dir (snd (Search.get_index e)))
              (float_repr pid)); reflexivity.
Qed.

Lemma tier4_env (q : pystr) (top_k : Z) (chosen : list (Api.Cand float))
  (e : Search.Env float) :
  snd (Api.tier4 q top_k chosen e) = e
  \/ snd (Api.tier4 q top_k chosen e) = snd (Search.get_index e).
Proof.
  unfold Api.tier4. destruct (len chosen <? top_k); [|left; reflexivity].
  rewrite search_get_index.
  destruct (Search.score _ _ _ _ _); right; reflexivity.
Qed.

Lemma tier5_env (q : pystr) (top_k : Z) (chosen : list (Api.Cand float))
  (e : Search.Env float) :
  snd (Api.tier5 q top_k chosen e) = e
  \/ snd (Api.tier5 q top_k chosen e) = snd (Search.get_index e).
Proof.
  unfold Api.tier5. destruct chosen; [|left; reflexivity].
  rewrite search_get_index.
  destruct (Search.score _ _ _ _ _); right; reflexivity.
Qed.

Lemma retrieve_env (q : pystr) (top_k : Z) (w : Api.World float) :
  exists e,
    snd (Api.retrieve q top_k w) = Api.set_env e w
    /\ (e = Api.env w \/ e = snd (Search.get_index (Api.env w))).
Proof.
  unfold Api.retrieve.
  pose proof (tier4_env q top_k
                (Api.choose top_k (Api.candidates_after 3 w (lower q)))
                (Api.env w)) as H4.
  destruct (Api.tier4 q top_k _ (Api.env w)) as [ch4 e4]. simpl in H4.
  pose proof (tier5_env q top_k ch4 e4) as H5.
  destruct (Api.tier5 q top_k ch4 e4) as [ch5 e5]. simpl in H5 |- *.
  exists e5. split; [reflexivity|].
  destruct H4 as [-> | ->], H5 as [-> | ->]; auto.
  right. rewrite get_index_again. reflexivity.
Qed.

(** X16. The only thing [chat] changes is the state of search.py, and only
    by a first call of [get_index]: afterwards the world is as it was, or
    as it was with the index loaded (or built and saved) and kept. It
    leaves [index.json], the API key and the parsed directory as they
    are. *)
Theorem chat_only_loads_index (req : Api.ChatRequest) (w : Api.World float) :
  (snd (Api.chat req w) = w
   \/ snd (Api.chat req w)
      = Api.set_env (snd (Search.get_index (Api.env w))) w)
  /\ Api.index_json (snd (Api.chat req w)) = Api.index_json w
  /\ Api.OPENAI_API_KEY (snd (Api.chat req w)) = Api.OPENAI_API_KEY w
  /\ Search.parsed_dir (Api.env (snd (Api.chat req w)))
     = Search.parsed_dir (Api.env w).
Proof.
  assert (H : snd (Api.chat req w) = w
              \/ snd (Api.chat req w)
                 = Api.set_env (snd (Search.get_index (Api.env w))) w).
  { unfold Api.chat.
    destruct (Api.strip (Api.question req)) as [|c q]; [left; reflexivity|].
    destruct (retrieve_env (c :: q) (Api.top_k req) w) as (e & He & Hcases).
    destruct (Api.retrieve (c :: q) (Api.top_k req) w) as [chosen w'].
    simpl in He. subst w'.
    destruct (map (Api.answer_part (c :: q)) chosen).
    - pose proof (last_resort_env (c :: q) (Api.env (Api.set_env e w))) as Hl.
      destruct (Api.last_resort (c :: q) (Api.env (Api.set_env e w)))
        as [r e']. simpl in Hl |- *. subst e'. right.
      destruct Hcases as [-> | ->]; [reflexivity|].
      rewrite get_index_again. reflexivity.
    - destruct (truthy (Api.OPENAI_API_KEY (Api.set_env e w))); simpl;
        (destruct Hcases as [-> | ->];
         [left; apply set_env_same | right; reflexivity]). }
  split; [exact H|].
  destruct H as [-> | ->]; [repeat split|].
  simpl. repeat split. apply get_index_parsed_dir.
Qed.

Lemma score_len (self : Search.BM25Index float) (query : pystr)
  (k1 b : float) (top_k : Z) (l : list (pystr * float)) :
  0 <= top_k -> Search.score self query k1 b top_k = Ok l -> len l <= top_k.
Proof.
  intros Hk H. unfold Search.score in H.
  destruct (Search.query_tokens query);
    [inversion H; unfold len; simpl; lia|].
  destruct (Search.self_N self =? 0); [inversion H; unfold len; simpl; lia|].
  destruct (Search.idf_table _ _ _); [|discriminate]. simpl in H.
  destruct (Search.score_docs _ _ _ _ _ _ _); [|discriminate]. simpl in H.
  inversion H. apply len_slice_to, Hk.
Qed.

Lemma tier4_loop_len (dir : store) (bm : list (pystr * float)) :
  forall chosen : list (Api.Cand float),
    len (Api.tier4_loop dir bm chosen) <= len chosen + len bm.
Proof.
  induction bm as [|[pid s] bm IH]; intros chosen; cbn [Api.tier4_loop].
  - unfold len; simpl; lia.
  - rewrite len_cons.
    destruct (existsb _ chosen); [specialize (IH chosen); lia|].
    destruct (Api.tier4_item dir pid s) as [c|e];
      [|specialize (IH chosen); lia].
    specialize (IH (chosen ++ [c])). unfold len in *.
    rewrite length_app in IH. simpl in IH. lia.
Qed.

Lemma tier5_loop_len (dir : store) (bm : list (pystr * float)) :
  forall chosen : list (Api.Cand float),
    len (Api.tier5_loop dir bm chosen) <= len chosen + len bm.
Proof.
  induction bm as [|[s pid] bm IH]; intros chosen; cbn [Api.tier5_loop].
  - unfold len; simpl; lia.
  - rewrite len_cons.
    destruct (Api.tier5_item dir s pid) as [c|e];
      [|specialize (IH chosen); lia].
    specialize (IH (chosen ++ [c])). unfold len in *.
    rewrite length_app in IH. simpl in IH. lia.
Qed.

Lemma tier4_len (q : pystr) (top_k : Z) (chosen : list (Api.Cand float))
  (e : Search.Env float) :
  len chosen <= top_k ->
  len (fst (Api.tier4 q top_k chosen e)) <= top_k.
Proof.
  intros H3. unfold Api.tier4.
  destruct (len chosen <? top_k) eqn:E; [|exact H3].
  apply Z.ltb_lt in E. rewrite search_get_index.
  destruct (Search.score _ q f1_5 f0_75 (top_k - len chosen)) as [bm|err]
    eqn:Es; [|exact H3].
  apply score_len in Es; [|lia]. simpl.
  pose proof (tier4_loop_len (Search.parsed_dir (snd (Search.get_index e)))
                bm chosen). lia.
Qed.

(** X17. For [top_k >= 0] the five tiers together choose at most [top_k]
    candidates. *)
Theorem retrieve_at_most_top_k (q : pystr) (top_k : Z) (w : Api.World float) :
  0 <= top_k -> len (fst (Api.retrieve q top_k w)) <= top_k.
Proof.
  intros Hk. unfold Api.retrieve.
  set (chosen := Api.choose top_k (Api.candidates_after 3 w (lower q))).
  assert (H3 : len chosen <= top_k) by (apply len_slice_to, Hk).
  assert (H4 : len (fst (Api.tier4 q top_k chosen (Api.env w))) <= top_k)
    by (apply tier4_len, H3).
  destruct (Api.tier4 q top_k chosen (Api.env w)) as [ch4 e4]. simpl in H4.
  assert (H5 : len (fst (Api.tier5 q top_k ch4 e4)) <= top_k).
  { unfold Api.tier5. destruct ch4 as [|c ch4]; [|exact H4].
    rewrite search_get_index.
    destruct (Search.score _ q f1_5 f0_75 top_k) as [bm|err] eqn:Es;
      [|exact H4].
    apply score_len in Es; [|lia]. simpl.
    pose proof (tier5_loop_len
                  (Search.parsed_dir (snd (Search.get_index e4))) bm []).
    unfold len in *; simpl in *; lia. }
  destruct (Api.tier5 q top_k ch4 e4) as [ch5 e5]. exact H5.
Qed.

(** X18. When the keyword tiers yield at least [top_k >= 1] candidates,
    the best [top_k] of them are the candidates of the answer; the BM25
    index is not consulted, and nothing is loaded or built. *)
Theorem retrieve_keyword_hits_suffice (q : pystr) (top_k : Z)
  (w : Api.World float) :
  0 < top_k ->
  top_k <= len (Api.candidates_after 3 w (lower q)) ->
  Api.retrieve q top_k w
  = (Api.choose top_k (Api.candidates_after 3 w (lower q)), w).
Proof.
  intros Hk Hlen. unfold Api.retrieve.
  set (chosen := Api.choose top_k (Api.candidates_after 3 w (lower q))).
  assert (H3 : len chosen = top_k).
  { unfold chosen, Api.choose. rewrite len_slice_to_min by lia.
    rewrite len_sort_desc. lia. }
  unfold Api.tier4. replace (len chosen <? top_k) with false
    by (symmetry; apply Z.ltb_ge; lia).
  unfold Api.tier5. destruct chosen as [|c chosen'];
    [unfold len in H3; simpl in H3; lia|].
  rewrite set_env_same. reflexivity.
Qed.

End ChatFacts.

Section TierResults.
Context {L : Lib} {float : Type} {FA : FloatArith float}.

(** A loop over the index whose body appends at most one candidate, made
    for the post at hand. *)
Lemma for_posts_one_each (body : pystr -> result (list (Api.Cand float)))
  (P : Api.Cand float -> Prop) (idx : dict Api.Meta) :
  (forall post_id added,
      body post_id = Ok added ->
      added = []
      \/ exists c, added = [c] /\ Api.c_post_id c = Api.IdStr post_id /\ P c) ->
  forall candidates,
    exists added,
      Api.for_posts body idx candidates = candidates ++ added
      /\ subseq (map Api.c_post_id added)
           (map (@Api.IdStr float) (keys idx))
      /\ Forall P added.
Proof.
  intros Hbody. unfold Api.for_posts.
  induction idx as [|[post_id meta] idx IH]; intros candidates; simpl.
  - exists []. rewrite app_nil_r. repeat split; constructor.
  - destruct (body post_id) as [added|e] eqn:Eb.
    + destruct (IH (candidates ++ added)) as (more & -> & Hsub & HP).
      exists (added ++ more). rewrite app_assoc. split; [reflexivity|].
      destruct (Hbody post_id added Eb) as [-> | (c & -> & Hid & Hc)]; simpl.
      * split; [apply subseq_skip, Hsub | exact HP].
      * rewrite Hid. split; [apply subseq_keep, Hsub|].
        constructor; assumption.
    + destruct (IH candidates) as (more & -> & Hsub & HP).
      exists more. split; [reflexivity|].
      split; [apply subseq_skip, Hsub | exact HP].
Qed.

(** X19. The first tier of [chat] yields no candidate, whatever the posts
    and the question are: reading [SYNONYMS] fails for every post, and the
    failure is passed over. The second tier therefore always runs on an
    empty list. *)
Theorem chat_tier1_yields_nothing (w : Api.World float) (ql : pystr) :
  Api.candidates_after 1 w ql = []
  /\ Api.candidates_after 2 w ql
     = Api.for_posts (Api.tier2_doc (Search.parsed_dir (Api.env w)) ql)
         (Api.index_json w) [].
Proof.
  unfold Api.candidates_after. rewrite tier1_empty. split; reflexivity.
Qed.

(** X20. The second tier, run on an empty list, yields at most one
    candidate per post of the index, in the order of the index, each with
    score 1 and made from a file that can be read; and it yields none when
    the question has no word of more than two characters. *)
Theorem tier2_one_candidate_per_post (dir : store) (idx : dict Api.Meta)
  (ql : pystr) :
  let r := Api.tier2 (float := float) dir idx ql [] in
  subseq (map Api.c_post_id r) (map (@Api.IdStr float) (keys idx))
  /\ Forall (fun c =>
       Api.c_score c = Api.NumInt 1
       /\ exists post_id parsed,
            Api.c_post_id c = Api.IdStr post_id
            /\ Api.read_post dir post_id = Ok parsed
            /\ Api.c_title c = or_empty (p_title parsed)) r
  /\ ((forall tok, In tok (Api.findall_w ql) -> len tok <= 2) -> r = []).
Proof.
  cbv zeta. unfold Api.tier2.
  destruct (for_posts_one_each (Api.tier2_doc dir ql)
              (fun c =>
                 Api.c_score c = Api.NumInt 1
                 /\ exists post_id parsed,
                      Api.c_post_id c = Api.IdStr post_id
                      /\ Api.read_post dir post_id = Ok parsed
                      /\ Api.c_title c = or_empty (p_title parsed))
              idx) with (candidates := @nil (Api.Cand float))
    as (added & Heq & Hsub & HP).
  - intros post_id added H. unfold Api.tier2_doc in H.
    destruct (Api.read_post dir post_id) as [parsed|e] eqn:Er; [|discriminate].
    simpl in H.
    match type of H with
    | Ok (if ?c then _ else _) = _ => destruct c
    end; inversion H; subst; [right | left; reflexivity].
    eexists. split; [reflexivity|]. split; [reflexivity|].
    split; [reflexivity|]. exists post_id, parsed. auto.
  - simpl in Heq. rewrite Heq. split; [exact Hsub|]. split; [exact HP|].
    intros Hshort.
    assert (Hnone : filter (fun tok => 2 <? len tok) (Api.findall_w ql) = []).
    { induction (Api.findall_w ql) as [|tok toks IH]; simpl; [reflexivity|].
      replace (2 <? len tok) with false
        by (symmetry; apply Z.ltb_ge, Hshort; left; reflexivity).
      apply IH. intros t Ht. apply Hshort. right; exact Ht. }
    rewrite <- Heq. clear Heq Hsub HP. unfold Api.for_posts.
    induction idx as [|[post_id meta] idx IH]; simpl; [reflexivity|].
    unfold Api.tier2_doc at 2. rewrite Hnone.
    destruct (Api.read_post dir post_id); simpl; exact IH.
Qed.

(** X21. The fourth tier keeps the candidates it is given, in order, and
    appends only posts that are not among them yet, each once. It appends
    nothing when the list already holds [top_k] candidates, and otherwise
    no more than are missing. *)
Theorem tier4_appends_new_posts (q : pystr) (top_k : Z)
  (chosen : list (Api.Cand float)) (e : Search.Env float) :
  exists added,
    fst (Api.tier4 q top_k chosen e) = chosen ++ added
    /\ (forall c, In c added ->
                  ~ In (Api.c_post_id c) (map Api.c_post_id chosen))
    /\ NoDup (map Api.c_post_id added)
    /\ (top_k <= len chosen -> added = [])
    /\ (len chosen <= top_k -> len added <= top_k - len chosen).
Proof.
  destruct (tier4_adds_absent q top_k chosen e) as (added & Heq & Hnew & Hnd).
  exists added. split; [exact Heq|]. split; [exact Hnew|].
  split; [exact Hnd|]. split.
  - intros Hfull. unfold Api.tier4 in Heq.
    replace (len chosen <? top_k) with false in Heq
      by (symmetry; apply Z.ltb_ge, Hfull).
    simpl in Heq. rewrite <- (app_nil_r chosen) in Heq at 1.
    apply app_inv_head in Heq. congruence.
  - intros Hle. pose proof (tier4_len q top_k chosen e Hle) as Hlen.
    rewrite Heq in Hlen. unfold len in *. rewrite length_app in Hlen. lia.
Qed.

Lemma id_not_seen (pid : pystr) (chosen : list (Api.Cand float)) :
  ~ In (Api.IdStr pid) (map Api.c_post_id chosen) ->
  existsb (fun c => Api.id_eqb (Api.IdStr pid) (Api.c_post_id c)) chosen
  = false.
Proof.
  intros H.
  destruct (existsb (fun c => Api.id_eqb (Api.IdStr pid) (Api.c_post_id c))
              chosen) eqn:E; [|reflexivity].
  exfalso. apply H. apply existsb_exists in E as (c & Hc & Heq).
  apply in_map_iff. exists c. split; [|exact Hc].
  destruct (Api.c_post_id c) as [s|x]; simpl in Heq; [|discriminate].
  apply str_eqb_eq in Heq. subst s. reflexivity.
Qed.

(** The fourth tier on hits that are distinct readable posts not chosen
    yet: every hit becomes a candidate. *)
Lemma tier4_loop_all (dir : store) (bm : list (pystr * float)) :
  NoDup (map fst dir) ->
  (forall pid, In pid (map fst bm) ->
     exists parsed, In (pid ++ dot_json, Some parsed) dir) ->
  NoDup (map fst bm) ->
  forall chosen : list (Api.Cand float),
    (forall pid, In pid (map fst bm) ->
       ~ In (Api.IdStr pid) (map Api.c_post_id chosen)) ->
    map (fun c => (Api.c_post_id c, Api.c_score c))
      (Api.tier4_loop dir bm chosen)
    = map (fun c => (Api.c_post_id c, Api.c_score c)) chosen
      ++ map (fun e => (Api.IdStr (fst e), Api.NumFloat (snd e))) bm.
Proof.
  intros Hdir. induction bm as [|[pid s] bm IH]; intros Hfiles Hnd chosen Hnew.
  - simpl. rewrite app_nil_r. reflexivity.
  - cbn [Api.tier4_loop].
    rewrite id_not_seen by (apply Hnew; left; reflexivity).
    destruct (Hfiles pid (or_introl eq_refl)) as (parsed & Hfile).
    unfold Api.tier4_item, Api.read_post.
    rewrite (read_json_in dir _ parsed Hdir Hfile). cbn [bind].
    inversion Hnd as [|? ? Hpid Hnd']; subst.
    rewrite IH.
    + rewrite map_app, <- app_assoc. reflexivity.
    + intros p Hp. apply Hfiles. right; exact Hp.
    + exact Hnd'.
    + intros p Hp Hin. rewrite map_app in Hin.
      apply in_app_or in Hin as [Hin | Hin].
      * apply (Hnew p (or_intror Hp) Hin).
      * simpl in Hin. destruct Hin as [Heq | []].
        inversion Heq; subst. exact (Hpid Hp).
Qed.

(** X22. When the index in force is the fresh index of the directory and
    the keyword tiers find nothing, the candidates of the answer are exactly
    the BM25 hits for the question, in their order, each under its post id
    and with its BM25 score. *)
Theorem retrieve_falls_back_to_bm25 (q : pystr) (top_k : Z)
  (w : Api.World float) (bm : list (pystr * float)) :
  let dir := Search.parsed_dir (Api.env w) in
  NoDup (map fst dir) ->
  fst (Search.get_index (Api.env w)) = Search.build dir Search.init ->
  Api.candidates_after 3 w (lower q) = [] ->
  0 < top_k ->
  Search.score (Search.build dir Search.init) q f1_5 f0_75 top_k = Ok bm ->
  map (fun c => (Api.c_post_id c, Api.c_score c))
    (fst (Api.retrieve q top_k w))
  = map (fun e => (Api.IdStr (fst e), Api.NumFloat (snd e))) bm.
Proof.
  cbv zeta. intros Hdir Hidx Hnone Hk Hscore.
  destruct (score_ids_in_tf _ _ _ _ _ _ (NoDup_build_tf _ Hdir) Hscore)
    as (Hnd & Hkeys).
  assert (Hfiles : forall pid, In pid (map fst bm) ->
            exists parsed,
              In (pid ++ dot_json, Some parsed)
                 (Search.parsed_dir (Api.env w)))
    by (intros pid Hpid; apply build_tf_key_file; auto).
  unfold Api.retrieve. rewrite Hnone.
  assert (Hchoose : Api.choose top_k (@nil (Api.Cand float)) = []).
  { unfold Api.choose. simpl. apply slice_to_nil. }
  rewrite Hchoose. unfold Api.tier4.
  change (len (@nil (Api.Cand float))) with 0.
  replace (0 <? top_k) with true by (symmetry; apply Z.ltb_lt, Hk).
  rewrite Z.sub_0_r, search_get_index, Hidx, Hscore.
  pose proof (tier4_loop_all
                (Search.parsed_dir (snd (Search.get_index (Api.env w)))) bm)
    as Hall.
  rewrite get_index_parsed_dir in *.
  specialize (Hall Hdir Hfiles Hnd [] (fun _ _ H => H)). simpl in Hall.
  unfold Api.tier5.
  destruct (Api.tier4_loop (Search.parsed_dir (Api.env w)) bm [])
    as [|c chosen] eqn:E4; [|exact Hall].
  rewrite search_get_index, get_index_again, Hidx, Hscore.
  rewrite get_index_parsed_dir.
  destruct bm as [|hit bm]; [reflexivity | discriminate].
Qed.

Lemma tier4_loop_no_files (bm : list (pystr * float))
  (chosen : list (Api.Cand float)) :
  Api.tier4_loop [] bm chosen = chosen.
Proof.
  induction bm as [|[pid s] bm IH]; cbn [Api.tier4_loop]; [reflexivity|].
  destruct (existsb _ chosen); exact IH.
Qed.

Lemma tier5_loop_no_files (bm : list (pystr * float))
  (chosen : list (Api.Cand float)) :
  Api.tier5_loop [] bm chosen = chosen.
Proof.
  induction bm as [|[s pid] bm IH]; cbn [Api.tier5_loop]; [reflexivity|].
  exact IH.
Qed.

Lemma retrieve_no_files (q : pystr) (top_k : Z) (w : Api.World float) :
  Search.parsed_dir (Api.env w) = [] ->
  fst (Api.retrieve q top_k w) = [].
Proof.
  intros Hdir. unfold Api.retrieve, Api.candidates_after.
  rewrite Hdir, tier1_empty.
  assert (H2 : Api.tier2 (float := float) [] (Api.index_json w) (lower q) []
               = []).
  { unfold Api.tier2. apply for_posts_raising.
    intros post_id. exists OSError. reflexivity. }
  rewrite H2.
  assert (H3 : Api.tier3 (float := float) [] (Api.index_json w) (lower q) []
               = []).
  { unfold Api.tier3. destruct (existsb _ Api.who_markers); [|reflexivity].
    apply for_posts_raising. intros post_id. exists OSError. reflexivity. }
  rewrite H3.
  assert (Hchoose : Api.choose top_k (@nil (Api.Cand float)) = []).
  { unfold Api.choose. simpl. apply slice_to_nil. }
  rewrite Hchoose.
  pose proof (tier4_env q top_k [] (Api.env w)) as He4.
  assert (H4 : fst (Api.tier4 q top_k [] (Api.env w)) = []).
  { unfold Api.tier4. destruct (_ <? top_k); [|reflexivity].
    rewrite search_get_index.
    destruct (Search.score _ _ _ _ _); [|reflexivity]. simpl.
    rewrite get_index_parsed_dir, Hdir. apply tier4_loop_no_files. }
  destruct (Api.tier4 q top_k [] (Api.env w)) as [ch4 e4].
  simpl in He4, H4. subst ch4.
  assert (Hdir4 : Search.parsed_dir e4 = []).
  { destruct He4 as [-> | ->]; [exact Hdir|].
    rewrite get_index_parsed_dir. exact Hdir. }
  assert (H5 : fst (Api.tier5 q top_k [] e4) = []).
  { unfold Api.tier5. rewrite search_get_index.
    destruct (Search.score _ _ _ _ _); [|reflexivity]. simpl.
    rewrite get_index_parsed_dir, Hdir4. apply tier5_loop_no_files. }
  destruct (Api.tier5 q top_k [] e4) as [ch5 e5]. exact H5.
Qed.

(** X23. With an empty parsed directory [chat] answers every question that
    is not blank with the not-found message and no source, whatever
    [index.json] and a persisted BM25 index still list. *)
Theorem chat_on_empty_directory (req : Api.ChatRequest) (w : Api.World float) :
  Search.parsed_dir (Api.env w) = [] ->
  forallb is_space (Api.question req) = false ->
  fst (Api.chat req w) = Api.Reply Api.not_found [] false.
Proof.
  intros Hdir Hq. unfold Api.chat.
  destruct (Api.strip (Api.question req)) as [|c q] eqn:Eq.
  { apply (trim_nil is_space) in Eq. congruence. }
  pose proof (retrieve_no_files (c :: q) (Api.top_k req) w Hdir) as Hr.
  destruct (retrieve_env (c :: q) (Api.top_k req) w) as (e & He & Hcases).
  destruct (Api.retrieve (c :: q) (Api.top_k req) w) as [chosen w'].
  simpl in Hr, He. subst chosen w'. cbn [map].
  assert (Hdir' : Search.parsed_dir e = []).
  { destruct Hcases as [-> | ->]; [exact Hdir|].
    rewrite get_index_parsed_dir. exact Hdir. }
  cbn [Api.env Api.set_env].
  unfold Api.last_resort. rewrite search_get_index.
  destruct (Search.score (fst (Search.get_index e)) (c :: q) f1_5 f0_75 1)
    as [[|[score pid] bm]|err]; simpl; try reflexivity.
  rewrite get_index_parsed_dir, Hdir'. reflexivity.
Qed.

(** X24. Without an API key the answer of [chat] is the parts
    [[title] excerpt] of the chosen candidates joined by blank lines, as
    they are, whenever that text holds no backslash: the pattern that is
    meant to remove urls matches nothing in it. *)
Theorem rule_based_answer_verbatim (req : Api.ChatRequest)
  (w : Api.World float) :
  let q := Api.strip (Api.question req) in
  let chosen := fst (Api.retrieve q (Api.top_k req) w) in
  let text := join [NEWLINE; NEWLINE] (map (Api.answer_part q) chosen) in
  forallb is_space (Api.question req) = false ->
  truthy (Api.OPENAI_API_KEY w) = false ->
  0 < len chosen ->
  existsb (N.eqb Api.BACKSLASH) text = false ->
  fst (Api.chat req w)
  = Api.Reply text
      (Api.display_sources_of (Api.sources_of (Api.index_json w) q chosen))
      false.
Proof.
  cbv zeta. intros Hq Hkey Hchosen Htext.
  rewrite chat_rule_based.
  - rewrite sub_url_pattern_unchanged; [reflexivity|].
    intros Hin.
    assert (existsb (N.eqb Api.BACKSLASH)
              (join [NEWLINE; NEWLINE]
                 (map (Api.answer_part (Api.strip (Api.question req)))
                    (fst (Api.retrieve (Api.strip (Api.question req))
                            (Api.top_k req) w)))) = true); [|congruence].
    apply existsb_exists. eexists. split; [exact Hin | apply N.eqb_refl].
  - intros H. apply (trim_nil is_space) in H. congruence.
  - exact Hkey.
  - intros H. rewrite H in Hchosen. unfold len in Hchosen; simpl in Hchosen.
    lia.
Qed.

End TierResults.

(** * The further properties on the example data *)

Module FurtherExamples.
Import Reference ReferenceLaws Examples.
Local Open Scope Q_scope.

#[export] Instance QFloatZero : FloatZero (FA := QFloat).
Proof.
  split.
  - reflexivity.
  - intros i k d. apply Qfltb_false.
    change (@fdiv Q QFloat ?x ?y) with (Qred (x / y)).
    change (@fmul Q QFloat ?x ?y) with (Qred (x * y)).
    change (@of_int Q QFloat 0) with 0. change (@fzero Q QFloat) with 0.
    rewrite !Qred_correct.
    assert (E : i * Qred (0 * k) / d == 0).
    { rewrite Qred_correct. unfold Qdiv. ring. }
    rewrite E. apply Qle_refl.
  - intros x y Hx Hy. apply Qfltb_false in Hx, Hy. apply Qfltb_false.
    rewrite Qfadd_correct. change (@fzero Q QFloat) with 0 in *. lra.
Qed.

Local Close Scope Q_scope.

Lemma NoDup_twin_dir : NoDup (map fst twin_dir).
Proof. vm_compute. repeat constructor; simpl; intuition discriminate. Qed.

Lemma NoDup_leave_dir : NoDup (map fst leave_dir).
Proof. vm_compute. repeat constructor; simpl; intuition discriminate. Qed.

Lemma build_reads_documents_only_witness :
  indexed cluttered_dir = indexed twin_dir
  /\ Search.build cluttered_dir (@Search.init Q QFloat)
     = Search.build twin_dir Search.init.
Proof.
  assert (H : indexed cluttered_dir = indexed twin_dir)
    by (vm_compute; reflexivity).
  split; [exact H|].
  exact (build_reads_documents_only cluttered_dir twin_dir Search.init H).
Defined.

Lemma build_fresh_maps_witness :
  NoDup (map fst twin_dir)
  /\ Search.self_tf twin_index
     = map (fun doc => (fst doc, Search.count_tokens (doc_tokens doc)))
         (indexed twin_dir)
  /\ Search.self_docs twin_index
     = map (fun doc => (fst doc, or_empty (p_title (snd doc))))
         (indexed twin_dir)
  /\ Search.self_doc_len twin_index
     = map (fun doc => (fst doc, len (doc_tokens doc))) (indexed twin_dir)
  /\ NoDup (keys (Search.self_tf twin_index))
  /\ Search.self_N twin_index = len (Search.self_tf twin_index).
Proof.
  split; [exact NoDup_twin_dir|].
  exact (build_fresh_maps (float := Q) twin_dir NoDup_twin_dir).
Defined.

Lemma get_index_persists_witness :
  let env := empty_env twin_dir in
  let env' := snd (Search.get_index env) in
  Search.global_index env = None
  /\ Search.index_file env = None
  /\ fst (Search.get_index env) = twin_index
  /\ Search.parsed_dir env' = twin_dir
  /\ Search.index_file env' = Some twin_index
  /\ forall (dir' : store) (writable : bool),
       fst (Search.get_index
              {| Search.parsed_dir := dir';
                 Search.index_file := Search.index_file env';
                 Search.index_file_writable := writable;
                 Search.global_index := None |})
       = twin_index.
Proof.
  split; [reflexivity|]. split; [reflexivity|].
  exact (get_index_persists (empty_env twin_dir) eq_refl eq_refl).
Defined.

Lemma score_hits_are_documents_witness :
  NoDup (map fst twin_dir)
  /\ Search.score twin_index (lit "alpha") f1_5 f0_75 5 = Ok twin_scores
  /\ NoDup (map fst twin_scores)
  /\ forall pid, In pid (map fst twin_scores) ->
       exists parsed, In (pid ++ dot_json, Some parsed) twin_dir.
Proof.
  assert (H : Search.score twin_index (lit "alpha") f1_5 f0_75 5
              = Ok twin_scores) by (vm_compute; reflexivity).
  split; [exact NoDup_twin_dir|]. split; [exact H|].
  exact (score_hits_are_documents twin_dir (lit "alpha") f1_5 f0_75 5
           twin_scores NoDup_twin_dir H).
Defined.

Lemma score_hits_share_a_token_witness :
  NoDup (map fst twin_dir)
  /\ Search.score twin_index (lit "alpha") f1_5 f0_75 5 = Ok twin_scores
  /\ In (lit "b", (440446 # 2415765)%Q) twin_scores
  /\ exists parsed t,
       In (lit "b" ++ dot_json, Some parsed) twin_dir
       /\ In t (Search.tokenize (lit "alpha"))
       /\ In t (Search.tokenize (Search.doc_text parsed)).
Proof.
  assert (H : Search.score twin_index (lit "alpha") f1_5 f0_75 5
              = Ok twin_scores) by (vm_compute; reflexivity).
  assert (Hin : In (lit "b", (440446 # 2415765)%Q) twin_scores)
    by (left; reflexivity).
  split; [exact NoDup_twin_dir|]. split; [exact H|]. split; [exact Hin|].
  exact (score_hits_share_a_token twin_dir (lit "alpha") f1_5 f0_75 5
           twin_scores NoDup_twin_dir H (lit "b") _ Hin).
Defined.

Lemma get_post_of_indexed_witness :
  NoDup (map fst twin_dir)
  /\ (forall post_id,
        Api.get_post twin_dir post_id = Api.HTTP404
        <-> ~ In (post_id ++ dot_json) (map fst twin_dir))
  /\ forall post_id title,
       In (post_id, title) (Search.self_docs twin_index) ->
       exists parsed,
         Api.get_post twin_dir post_id = Api.Post parsed
         /\ or_empty (p_title parsed) = title.
Proof.
  split; [exact NoDup_twin_dir|].
  exact (get_post_of_indexed (float := Q) twin_dir NoDup_twin_dir).
Defined.

Lemma retrieve_at_most_top_k_witness :
  0 <= 1 /\ len (fst (Api.retrieve (lit "휴학") 1 leave_world)) <= 1.
Proof.
  assert (H : 0 <= 1) by lia.
  split; [exact H|].
  exact (retrieve_at_most_top_k (lit "휴학") 1 leave_world H).
Defined.

Lemma retrieve_keyword_hits_suffice_witness :
  0 < 1
  /\ 1 <= len (Api.candidates_after 3 link_world (lower (lit "장학금 신청")))
  /\ Api.retrieve (lit "장학금 신청") 1 link_world
     = (Api.choose 1
          (Api.candidates_after 3 link_world (lower (lit "장학금 신청"))),
        link_world).
Proof.
  assert (H0 : 0 < 1) by lia.
  assert (H1 : 1 <= len (Api.candidates_after 3 link_world
                           (lower (lit "장학금 신청"))))
    by (apply Z.leb_le; vm_compute; reflexivity).
  split; [exact H0|]. split; [exact H1|].
  exact (retrieve_keyword_hits_suffice (lit "장학금 신청") 1 link_world H0 H1).
Defined.

Lemma retrieve_falls_back_to_bm25_witness :
  NoDup (map fst leave_dir)
  /\ fst (Search.get_index (Api.env leave_world))
     = Search.build leave_dir Search.init
  /\ Api.candidates_after 3 leave_world (lower (lit "휴학")) = []
  /\ 0 < 5
  /\ Search.score (Search.build leave_dir Search.init) (lit "휴학")
       f1_5 f0_75 5 = Ok leave_hits
  /\ map (fun c => (Api.c_post_id c, Api.c_score c))
       (fst (Api.retrieve (lit "휴학") 5 leave_world))
     = map (fun e => (Api.IdStr (fst e), Api.NumFloat (snd e))) leave_hits.
Proof.
  assert (H1 : fst (Search.get_index (Api.env leave_world))
               = Search.build leave_dir Search.init) by reflexivity.
  assert (H2 : Api.candidates_after 3 leave_world (lower (lit "휴학")) = [])
    by (vm_compute; reflexivity).
  assert (H3 : 0 < 5) by lia.
  assert (H4 : Search.score (Search.build leave_dir Search.init) (lit "휴학")
                 f1_5 f0_75 5 = Ok leave_hits) by (vm_compute; reflexivity).
  split; [exact NoDup_leave_dir|]. split; [exact H1|]. split; [exact H2|].
  split; [exact H3|]. split; [exact H4|].
  exact (retrieve_falls_back_to_bm25 (lit "휴학") 5 leave_world leave_hits
           NoDup_leave_dir H1 H2 H3 H4).
Defined.

Lemma chat_on_empty_directory_witness :
  let req := {| Api.question := lit "휴학"; Api.top_k := 5 |} in
  let w := world [] leave_idx in
  Search.parsed_dir (Api.env w) = []
  /\ forallb is_space (Api.question req) = false
  /\ fst (Api.chat req w) = Api.Reply Api.not_found [] false.
Proof.
  assert (H : forallb is_space (lit "휴학") = false)
    by (vm_compute; reflexivity).
  split; [reflexivity|]. split; [exact H|].
  exact (chat_on_empty_directory
           {| Api.question := lit "휴학"; Api.top_k := 5 |}
           (world [] leave_idx) eq_refl H).
Defined.

Lemma rule_based_answer_verbatim_witness :
  let req := {| Api.question := lit "장학금 신청"; Api.top_k := 5 |} in
  let q := Api.strip (Api.question req) in
  let chosen := fst (Api.retrieve q (Api.top_k req) link_world) in
  let text := join [NEWLINE; NEWLINE] (map (Api.answer_part q) chosen) in
  forallb is_space (Api.question req) = false
  /\ truthy (Api.OPENAI_API_KEY link_world) = false
  /\ 0 < len chosen
  /\ existsb (N.eqb Api.BACKSLASH) text = false
  /\ fst (Api.chat req link_world)
     = Api.Reply text
         (Api.display_sources_of
            (Api.sources_of (Api.index_json link_world) q chosen))
         false.
Proof.
  cbv zeta.
  assert (H1 : forallb is_space (lit "장학금 신청") = false)
    by (vm_compute; reflexivity).
  assert (H2 : truthy (Api.OPENAI_API_KEY link_world) = false) by reflexivity.
  assert (H3 : 0 < len (fst (Api.retrieve (Api.strip (lit "장학금 신청")) 5
                               link_world)))
    by (apply Z.ltb_lt; vm_compute; reflexivity).
  assert (H4 : existsb (N.eqb Api.BACKSLASH)
                 (join [NEWLINE; NEWLINE]
                    (map (Api.answer_part (Api.strip (lit "장학금 신청")))
                       (fst (Api.retrieve (Api.strip (lit "장학금 신청")) 5
                               link_world)))) = false)
    by (vm_compute; reflexivity).
  split; [exact H1|]. split; [exact H2|]. split; [exact H3|].
  split; [exact H4|].
  exact (rule_based_answer_verbatim
           {| Api.question := lit "장학금 신청"; Api.top_k := 5 |}
           link_world H1 H2 H3 H4).
Defined.

End FurtherExamples.
